(** * erc721-kit: escrow, marketplace and royalty engines

    A shallow embedding of the three Solidity contracts of the kit
    ([RoyaltyEngine.sol], [ERC721Marketplace.sol], [ERC721Escrow.sol]) and
    the properties their specification states about them, followed by the
    royalty side of the example collection ([MockNFT.sol]) and further
    properties of the four contracts.

    Modelling conventions.
    - [uint256], [address] and [bytes32] values are binary naturals [N];
      Solidity 0.8 arithmetic is checked, so every [+], [-] and [*] of the
      source is a [checked_*] operation that reverts instead of wrapping.
    - a Solidity [mapping] is a [gmap] read through [sload], which returns
      the zero value of the value type for a key that was never written.
    - a call either commits or reverts as a whole: an operation is a
      function from a context (chain, contract storage, effect log) to
      [Ok] of the new context or [Revert] of a reason, and a reverted call
      leaves no context behind.
    - everything outside the kit (token registries, ether ledger, the
      optional EIP-2981 capability, keccak256) is reached through the
      [Chain] and [Keccak] interfaces; a view call and an ether
      [transfer] (2300 gas) are atomic and may fail.
    - [safeTransferFrom] hands control to the account that receives the
      token, in the middle of the running call: the operations take the
      receivers of the chain as the [Receivers] interface.  A statement
      that names no receivers is about [passive] ones, which never call
      back; the statements on sales, completions, cancellations and
      resolutions are about the receivers of [Reentrancy], which call
      back into the engine as they like.
    - the OpenZeppelin bases (Ownable, Pausable) are written out with the
      reverts of the 4.x release the contracts import; ReentrancyGuard is
      the guard of [Reentrancy.dispatch], held by the functions declared
      [nonReentrant] while they run (past passive receivers it never
      fires). *)

From Stdlib Require Import NArith Lia List Bool.
From stdpp Require Import base option strings gmap.

Local Open Scope string_scope.
Local Open Scope list_scope.
Local Open Scope N_scope.

(** ** Machine values *)

Abbreviation address := N (only parsing).
Abbreviation uint256 := N (only parsing).
Abbreviation bytes32 := N (only parsing).

Definition MAX_UINT256 : N := 2 ^ 256 - 1.

(** Why a call reverted. *)
Inductive error :=
| Require (msg : string)        (* a failed [require(cond, msg)] *)
| Overflow                      (* Panic(0x11) raised by [+], [*] or [++] *)
| Underflow                     (* Panic(0x11) raised by [-] *)
| CallFailed (callee : string)  (* an external call or a transfer reverted *)
| NonPayable.                   (* value sent to a non-payable function *)

Inductive result (A : Type) :=
| Ok (a : A)
| Revert (e : error).
Arguments Ok {A} a.
Arguments Revert {A} e.

(** What a committed call did to the outside world, in program order. *)
Inductive effect :=
| SendEth (to : address) (amount : uint256)
| MoveNft (nft from to : address) (tokenId : uint256)
| Emit (event : string) (args : list N).

(** Zero value of a Solidity type, returned by a mapping for a fresh key. *)
Class Zero (V : Type) := zero : V.
#[global] Instance zero_N : Zero N := 0.
#[global] Instance zero_bool : Zero bool := false.
#[global] Instance zero_list {A} : Zero (list A) := [].

Definition sload `{Countable K} {V} `{Zero V} (m : gmap K V) (k : K) : V :=
  default zero (m !! k).
Arguments sload : simpl never.

(** ** The outside world *)

(** The calls the engines make to other contracts and to the ledger.
    [None] is a reverted call. *)
Class Chain (W : Type) := {
  (* IERC721 *)
  ownerOf : W -> address -> uint256 -> option address;
  isApprovedForAll : W -> address -> address -> address -> option bool;
  getApproved : W -> address -> uint256 -> option address;
  safeTransferFrom :
    W -> address (* token contract *) -> address (* msg.sender of the call *) ->
    address (* from *) -> address (* to *) -> uint256 -> option W;
  (* ether *)
  balance : W -> address -> uint256;
  send : W -> address (* from *) -> address (* to *) -> uint256 -> option W;
  (* ERC165Checker.supportsInterface(type(IERC2981).interfaceId) *)
  supportsRoyaltyInterface : W -> address -> bool;
  (* IERC2981.royaltyInfo *)
  royaltyInfo : W -> address -> uint256 -> uint256 -> option (address * uint256);
  (* Ownable(nftContract).owner() *)
  contractOwner : W -> address -> option address
}.

Class Keccak := keccak256 : list N -> bytes32.

(** Transaction context: [msg.sender], [msg.value], [block.timestamp] and
    [address(this)]. *)
Record env := Env {
  sender : address;
  value : uint256;
  timestamp : uint256;
  this : address
}.

(** ** The transaction monad *)

Section Monad.
Context {W : Type} `{Chain W} {S : Type}.

Record ctx := Ctx { world : W; store : S; log : list effect }.

Definition M (A : Type) : Type := ctx -> result (A * ctx).

Definition ret {A} (a : A) : M A := fun c => Ok (a, c).

Definition bind {A B} (m : M A) (f : A -> M B) : M B :=
  fun c => match m c with
           | Ok (a, c') => f a c'
           | Revert e => Revert e
           end.

Definition revert {A} (e : error) : M A := fun _ => Revert e.

Definition require (b : bool) (msg : string) : M unit :=
  if b then ret tt else revert (Require msg).

Definition gets {A} (f : S -> A) : M A := fun c => Ok (f (store c), c).

Definition modify (f : S -> S) : M unit :=
  fun c => Ok (tt, Ctx (world c) (f (store c)) (log c)).

Definition record (e : effect) : M unit :=
  fun c => Ok (tt, Ctx (world c) (store c) (log c ++ [e])).

Definition emit (event : string) (args : list N) : M unit :=
  record (Emit event args).

Definition gets_world {A} (f : W -> A) : M A := fun c => Ok (f (world c), c).

(** A read-only external call. *)
Definition view {A} (callee : string) (f : W -> option A) : M A :=
  fun c => match f (world c) with
           | Some a => Ok (a, c)
           | None => Revert (CallFailed callee)
           end.

(** [try f() returns (a) { .. } catch { .. }]: the failure is observed.
    (A callee without code, or one whose answer does not decode, at
    which the caller itself reverts, is not told apart from a callee
    that reverts.) *)
Definition try_view {A} (f : W -> option A) : M (option A) :=
  fun c => Ok (f (world c), c).

(** [payable(to).transfer(amount)] from the running contract. *)
Definition transfer (e : env) (to : address) (amount : uint256) : M unit :=
  fun c => match send (world c) (this e) to amount with
           | Some w => Ok (tt, Ctx w (store c) (log c ++ [SendEth to amount]))
           | None => Revert (CallFailed "transfer")
           end.

(** What [safeTransferFrom] of a registry runs once the token has moved:
    [onERC721Received] of the account that receives it.  The receiver gets
    control in the middle of the running call: it sees the storage as the
    call has left it so far and may change it, by calling back into the
    running contract, before it returns; its revert is the revert of the
    whole call. *)
Class Receivers := received :
  env -> address (* token contract *) -> address (* from *) ->
  address (* to *) -> uint256 -> M unit.

Context {receivers : Receivers}.

(** [IERC721(nft).safeTransferFrom(from, to, tokenId)] called by the
    running contract: the token moves, then the receiver is called. *)
Definition nftSafeTransferFrom (e : env) (nft from to : address)
    (tokenId : uint256) : M unit :=
  fun c => match safeTransferFrom (world c) nft (this e) from to tokenId with
           | Some w =>
               received e nft from to tokenId
                 (Ctx w (store c) (log c ++ [MoveNft nft from to tokenId]))
           | None => Revert (CallFailed "safeTransferFrom")
           end.

(** Entry of a [payable] function: [msg.value] moves to the contract. *)
Definition payable (e : env) : M unit :=
  fun c => match send (world c) (sender e) (this e) (value e) with
           | Some w => Ok (tt, Ctx w (store c) (log c))
           | None => Revert (CallFailed "msg.value")
           end.

(** Entry of any other function: the compiler rejects attached value. *)
Definition nonpayable (e : env) : M unit :=
  if value e =? 0 then ret tt else revert NonPayable.

Definition checked_add (a b : uint256) : M uint256 :=
  if a + b <=? MAX_UINT256 then ret (a + b) else revert Overflow.

Definition checked_mul (a b : uint256) : M uint256 :=
  if a * b <=? MAX_UINT256 then ret (a * b) else revert Overflow.

Definition checked_sub (a b : uint256) : M uint256 :=
  if b <=? a then ret (a - b) else revert Underflow.
End Monad.

Arguments ctx : clear implicits.
Arguments M : clear implicits.
Arguments Receivers : clear implicits.

(** Receivers that never call back: accounts without code, for which the
    registry skips the call, and contracts whose [onERC721Received] only
    returns the selector.  This is the instance every statement is about
    that does not name another. *)
#[global] Instance passive {W S} : Receivers W S :=
  fun _ _ _ _ _ => ret tt.

#[global] Instance M_ret {W S} : MRet (M W S) := fun A => @ret W S A.
#[global] Instance M_bind {W S} : MBind (M W S) := fun A B f m => bind m f.

(** Payments of an effect log, in order. *)
Fixpoint payments (l : list effect) : list (address * uint256) :=
  match l with
  | [] => []
  | SendEth to amount :: l' => (to, amount) :: payments l'
  | _ :: l' => payments l'
  end.

Fixpoint nftMoves (l : list effect) : list (address * address * address * uint256) :=
  match l with
  | [] => []
  | MoveNft nft from to tokenId :: l' => (nft, from, to, tokenId) :: nftMoves l'
  | _ :: l' => nftMoves l'
  end.

(** The context a call starts from: empty log. *)
Definition enter {W S} (w : W) (s : S) : ctx W S := Ctx w s [].

(** An external [view] call into another contract of the kit whose storage
    is [s']: the callee sees the same chain; its revert reason bubbles up. *)
Definition staticcall {W S S' A} (s' : S') (m : M W S' A) : M W S A :=
  fun c => match m (Ctx (world c) s' []) with
           | Ok (a, _) => Ok (a, c)
           | Revert e => Revert e
           end.

(** ** RoyaltyEngine.sol *)

Module RoyaltyEngine.

Record RoyaltyInfo := {
  recipient : address;
  percentage : uint256   (* basis points, 1% = 100 *)
}.

#[global] Instance zero_RoyaltyInfo : Zero RoyaltyInfo :=
  {| recipient := 0; percentage := 0 |}.

Record storage := {
  contractRoyalties : gmap N RoyaltyInfo;
  tokenRoyalties : gmap (N * N) RoyaltyInfo;
  defaultRoyalty : RoyaltyInfo;
  owner : address
}.

Definition MAX_ROYALTY_PERCENTAGE : uint256 := 1000.

Definition set_contractRoyalties f (s : storage) : storage :=
  {| contractRoyalties := f (contractRoyalties s);
     tokenRoyalties := tokenRoyalties s;
     defaultRoyalty := defaultRoyalty s;
     owner := owner s |}.

Definition set_tokenRoyalties f (s : storage) : storage :=
  {| contractRoyalties := contractRoyalties s;
     tokenRoyalties := f (tokenRoyalties s);
     defaultRoyalty := defaultRoyalty s;
     owner := owner s |}.

Definition set_defaultRoyalty r (s : storage) : storage :=
  {| contractRoyalties := contractRoyalties s;
     tokenRoyalties := tokenRoyalties s;
     defaultRoyalty := r;
     owner := owner s |}.

Definition set_owner o (s : storage) : storage :=
  {| contractRoyalties := contractRoyalties s;
     tokenRoyalties := tokenRoyalties s;
     defaultRoyalty := defaultRoyalty s;
     owner := o |}.

(** [constructor()]: no records, default royalty 0%, deployer owns. *)
Definition constructor (e : env) : storage :=
  {| contractRoyalties := ∅;
     tokenRoyalties := ∅;
     defaultRoyalty := {| recipient := 0; percentage := 0 |};
     owner := sender e |}.

Section Ops.
Context {W : Type} `{Chain W}.
Local Abbreviation M := (M W storage).

Definition onlyOwner (e : env) : M unit :=
  o ← gets owner;
  require (sender e =? o) "Ownable: caller is not the owner".

Definition _isContractOwner (nftContract account : address) : M bool :=
  r ← try_view (fun w => contractOwner w nftContract);
  match r with
  | Some contractOwner => ret (contractOwner =? account)
  | None => ret false
  end.

Definition _isTokenOwner (nftContract : address) (tokenId : uint256)
    (account : address) : M bool :=
  r ← try_view (fun w => ownerOf w nftContract tokenId);
  match r with
  | Some tokenOwner => ret (tokenOwner =? account)
  | None => ret false
  end.

(** The body shared by every setter: cap, then recipient check. *)
Definition checkRoyalty (recipient : address) (percentage : uint256) : M unit :=
  require (percentage <=? MAX_ROYALTY_PERCENTAGE) "Royalty too high";;
  if 0 <? percentage
  then require (negb (recipient =? 0)) "Invalid recipient"
  else ret tt.

Definition setDefaultRoyalty (e : env) (recipient : address)
    (percentage : uint256) : M unit :=
  onlyOwner e;;
  checkRoyalty recipient percentage;;
  modify (set_defaultRoyalty
            {| recipient := recipient; percentage := percentage |});;
  emit "DefaultRoyaltyUpdated" [recipient; percentage].

Definition contractAuthorized (e : env) (nftContract : address) : M bool :=
  o ← gets owner;
  if sender e =? o then ret true
  else _isContractOwner nftContract (sender e).

Definition tokenAuthorized (e : env) (nftContract : address)
    (tokenId : uint256) : M bool :=
  o ← gets owner;
  if sender e =? o then ret true
  else
    t ← _isTokenOwner nftContract tokenId (sender e);
    if (t : bool) then ret true
    else _isContractOwner nftContract (sender e).

Definition setContractRoyalty (e : env) (nftContract recipient : address)
    (percentage : uint256) : M unit :=
  a ← contractAuthorized e nftContract;
  require a "Not authorized";;
  checkRoyalty recipient percentage;;
  modify (set_contractRoyalties
            <[nftContract := {| recipient := recipient;
                                percentage := percentage |}]>);;
  emit "ContractRoyaltyUpdated" [nftContract; recipient; percentage].

Definition setTokenRoyalty (e : env) (nftContract : address)
    (tokenId : uint256) (recipient : address) (percentage : uint256)
    : M unit :=
  a ← tokenAuthorized e nftContract tokenId;
  require a "Not authorized";;
  checkRoyalty recipient percentage;;
  modify (set_tokenRoyalties
            <[(nftContract, tokenId) := {| recipient := recipient;
                                           percentage := percentage |}]>);;
  emit "TokenRoyaltyUpdated" [nftContract; tokenId; recipient; percentage].

(** [percentage-based] amount of one record. *)
Definition recordAmount (salePrice : uint256) (r : RoyaltyInfo)
    : M (address * uint256) :=
  p ← checked_mul salePrice (percentage r);
  ret (recipient r, p / 10000).

Definition isSet (r : RoyaltyInfo) : bool :=
  negb (recipient r =? 0) || (0 <? percentage r).

(** The part of [getRoyalty] after the EIP-2981 probe. *)
Definition manualRoyalty (nftContract : address) (tokenId salePrice : uint256)
    : M (address * uint256) :=
  tokenRoyalty ← gets (fun s => sload (tokenRoyalties s) (nftContract, tokenId));
  if isSet tokenRoyalty then recordAmount salePrice tokenRoyalty
  else
    contractRoyalty ← gets (fun s => sload (contractRoyalties s) nftContract);
    if isSet contractRoyalty then recordAmount salePrice contractRoyalty
    else
      defaultRoyalty ← gets defaultRoyalty;
      if isSet defaultRoyalty then recordAmount salePrice defaultRoyalty
      else ret (0, 0).

Definition getRoyalty (nftContract : address) (tokenId salePrice : uint256)
    : M (address * uint256) :=
  supports ← gets_world (fun w => supportsRoyaltyInterface w nftContract);
  if (supports : bool) then
    r ← try_view (fun w => royaltyInfo w nftContract tokenId salePrice);
    match r with
    | Some (eip2981Recipient, eip2981Amount) =>
        if negb (eip2981Recipient =? 0) && (eip2981Amount <=? salePrice / 10)
        then ret (eip2981Recipient, eip2981Amount)
        else manualRoyalty nftContract tokenId salePrice
    | None => manualRoyalty nftContract tokenId salePrice
    end
  else manualRoyalty nftContract tokenId salePrice.

Definition getRoyaltyPercentage (nftContract : address) (tokenId : uint256)
    : M uint256 :=
  tokenRoyalty ← gets (fun s => sload (tokenRoyalties s) (nftContract, tokenId));
  if isSet tokenRoyalty then ret (percentage tokenRoyalty)
  else
    contractRoyalty ← gets (fun s => sload (contractRoyalties s) nftContract);
    if isSet contractRoyalty then ret (percentage contractRoyalty)
    else
      d ← gets defaultRoyalty;
      ret (percentage d).

Definition getRoyaltyRecipient (nftContract : address) (tokenId : uint256)
    : M address :=
  tokenRoyalty ← gets (fun s => sload (tokenRoyalties s) (nftContract, tokenId));
  if negb (recipient tokenRoyalty =? 0) then ret (recipient tokenRoyalty)
  else
    contractRoyalty ← gets (fun s => sload (contractRoyalties s) nftContract);
    if negb (recipient contractRoyalty =? 0)
    then ret (recipient contractRoyalty)
    else
      d ← gets defaultRoyalty;
      ret (recipient d).

Definition hasContractRoyalty (nftContract : address) : M bool :=
  royalty ← gets (fun s => sload (contractRoyalties s) nftContract);
  ret (negb (recipient royalty =? 0) || (0 <? percentage royalty)).

Definition hasTokenRoyalty (nftContract : address) (tokenId : uint256)
    : M bool :=
  royalty ← gets (fun s => sload (tokenRoyalties s) (nftContract, tokenId));
  ret (negb (recipient royalty =? 0) || (0 <? percentage royalty)).

Fixpoint batchLoop (nftContracts recipients : list address)
    (percentages : list uint256) : M unit :=
  match nftContracts, recipients, percentages with
  | c :: cs, r :: rs, p :: ps =>
      checkRoyalty r p;;
      modify (set_contractRoyalties
                <[c := {| recipient := r; percentage := p |}]>);;
      emit "ContractRoyaltyUpdated" [c; r; p];;
      batchLoop cs rs ps
  | _, _, _ => ret tt
  end.

Definition batchSetContractRoyalties (e : env)
    (nftContracts recipients : list address) (percentages : list uint256)
    : M unit :=
  onlyOwner e;;
  require ((length nftContracts =? length recipients)%nat
           && (length recipients =? length percentages)%nat)
          "Array length mismatch";;
  batchLoop nftContracts recipients percentages.

Definition removeContractRoyalty (e : env) (nftContract : address) : M unit :=
  a ← contractAuthorized e nftContract;
  require a "Not authorized";;
  modify (set_contractRoyalties (delete nftContract));;
  emit "ContractRoyaltyUpdated" [nftContract; 0; 0].

Definition removeTokenRoyalty (e : env) (nftContract : address)
    (tokenId : uint256) : M unit :=
  a ← tokenAuthorized e nftContract tokenId;
  require a "Not authorized";;
  modify (set_tokenRoyalties (delete (nftContract, tokenId)));;
  emit "TokenRoyaltyUpdated" [nftContract; tokenId; 0; 0].

(** Ownable *)
Definition transferOwnership (e : env) (newOwner : address) : M unit :=
  onlyOwner e;;
  require (negb (newOwner =? 0)) "Ownable: new owner is the zero address";;
  oldOwner ← gets owner;
  modify (set_owner newOwner);;
  emit "OwnershipTransferred" [oldOwner; newOwner].

Definition renounceOwnership (e : env) : M unit :=
  onlyOwner e;;
  oldOwner ← gets owner;
  modify (set_owner 0);;
  emit "OwnershipTransferred" [oldOwner; 0].

(** The public state-changing surface. *)
Inductive call :=
| SetDefaultRoyalty (recipient : address) (percentage : uint256)
| SetContractRoyalty (nftContract recipient : address) (percentage : uint256)
| SetTokenRoyalty (nftContract : address) (tokenId : uint256)
    (recipient : address) (percentage : uint256)
| BatchSetContractRoyalties (nftContracts recipients : list address)
    (percentages : list uint256)
| RemoveContractRoyalty (nftContract : address)
| RemoveTokenRoyalty (nftContract : address) (tokenId : uint256)
| TransferOwnership (newOwner : address)
| RenounceOwnership.

Definition exec (e : env) (c : call) : M unit :=
  nonpayable e;;
  match c with
  | SetDefaultRoyalty r p => setDefaultRoyalty e r p
  | SetContractRoyalty n r p => setContractRoyalty e n r p
  | SetTokenRoyalty n t r p => setTokenRoyalty e n t r p
  | BatchSetContractRoyalties ns rs ps => batchSetContractRoyalties e ns rs ps
  | RemoveContractRoyalty n => removeContractRoyalty e n
  | RemoveTokenRoyalty n t => removeTokenRoyalty e n t
  | TransferOwnership o => transferOwnership e o
  | RenounceOwnership => renounceOwnership e
  end.

(** Storage states a deployed engine can be in. *)
Inductive reachable : storage -> Prop :=
| reachable_init e : reachable (constructor e)
| reachable_step s e c w c' :
    reachable s ->
    exec e c (enter w s) = Ok (tt, c') ->
    reachable (store c').
End Ops.

End RoyaltyEngine.

(** ** ERC721Marketplace.sol *)

Module Marketplace.

Record Listing := {
  l_seller : address;
  l_nftContract : address;
  l_tokenId : uint256;
  l_price : uint256;
  l_createdAt : uint256;
  l_expiresAt : uint256;
  l_active : bool
}.

Record Offer := {
  o_buyer : address;
  o_nftContract : address;
  o_tokenId : uint256;
  o_amount : uint256;
  o_createdAt : uint256;
  o_expiresAt : uint256;
  o_active : bool
}.

#[global] Instance zero_Listing : Zero Listing :=
  {| l_seller := 0; l_nftContract := 0; l_tokenId := 0; l_price := 0;
     l_createdAt := 0; l_expiresAt := 0; l_active := false |}.

#[global] Instance zero_Offer : Zero Offer :=
  {| o_buyer := 0; o_nftContract := 0; o_tokenId := 0; o_amount := 0;
     o_createdAt := 0; o_expiresAt := 0; o_active := false |}.

Definition l_set_active (b : bool) (l : Listing) : Listing :=
  {| l_seller := l_seller l; l_nftContract := l_nftContract l;
     l_tokenId := l_tokenId l; l_price := l_price l;
     l_createdAt := l_createdAt l; l_expiresAt := l_expiresAt l;
     l_active := b |}.

Definition l_set_price (p : uint256) (l : Listing) : Listing :=
  {| l_seller := l_seller l; l_nftContract := l_nftContract l;
     l_tokenId := l_tokenId l; l_price := p;
     l_createdAt := l_createdAt l; l_expiresAt := l_expiresAt l;
     l_active := l_active l |}.

Definition o_set_active (b : bool) (o : Offer) : Offer :=
  {| o_buyer := o_buyer o; o_nftContract := o_nftContract o;
     o_tokenId := o_tokenId o; o_amount := o_amount o;
     o_createdAt := o_createdAt o; o_expiresAt := o_expiresAt o;
     o_active := b |}.

Record storage := {
  listings : gmap N Listing;
  offers : gmap N Offer;
  tokenToListingId : gmap (N * N) N;
  userListings : gmap N (list N);
  userOffers : gmap N (list N);
  whitelistedContracts : gmap N bool;
  royaltyEngine : address;
  marketplaceFeePercentage : uint256;
  feeRecipient : address;
  totalListings : uint256;
  totalSales : uint256;
  totalVolume : uint256;
  owner : address;       (* Ownable *)
  paused : bool          (* Pausable *)
}.

Definition MAX_FEE_PERCENTAGE : uint256 := 1000.

Definition set_listings f (s : storage) : storage :=
  {| listings := f (listings s); offers := offers s;
     tokenToListingId := tokenToListingId s; userListings := userListings s;
     userOffers := userOffers s;
     whitelistedContracts := whitelistedContracts s;
     royaltyEngine := royaltyEngine s;
     marketplaceFeePercentage := marketplaceFeePercentage s;
     feeRecipient := feeRecipient s; totalListings := totalListings s;
     totalSales := totalSales s; totalVolume := totalVolume s;
     owner := owner s; paused := paused s |}.

Definition set_offers f (s : storage) : storage :=
  {| listings := listings s; offers := f (offers s);
     tokenToListingId := tokenToListingId s; userListings := userListings s;
     userOffers := userOffers s;
     whitelistedContracts := whitelistedContracts s;
     royaltyEngine := royaltyEngine s;
     marketplaceFeePercentage := marketplaceFeePercentage s;
     feeRecipient := feeRecipient s; totalListings := totalListings s;
     totalSales := totalSales s; totalVolume := totalVolume s;
     owner := owner s; paused := paused s |}.

Definition set_tokenToListingId f (s : storage) : storage :=
  {| listings := listings s; offers := offers s;
     tokenToListingId := f (tokenToListingId s);
     userListings := userListings s; userOffers := userOffers s;
     whitelistedContracts := whitelistedContracts s;
     royaltyEngine := royaltyEngine s;
     marketplaceFeePercentage := marketplaceFeePercentage s;
     feeRecipient := feeRecipient s; totalListings := totalListings s;
     totalSales := totalSales s; totalVolume := totalVolume s;
     owner := owner s; paused := paused s |}.

Definition set_userListings f (s : storage) : storage :=
  {| listings := listings s; offers := offers s;
     tokenToListingId := tokenToListingId s;
     userListings := f (userListings s); userOffers := userOffers s;
     whitelistedContracts := whitelistedContracts s;
     royaltyEngine := royaltyEngine s;
     marketplaceFeePercentage := marketplaceFeePercentage s;
     feeRecipient := feeRecipient s; totalListings := totalListings s;
     totalSales := totalSales s; totalVolume := totalVolume s;
     owner := owner s; paused := paused s |}.

Definition set_userOffers f (s : storage) : storage :=
  {| listings := listings s; offers := offers s;
     tokenToListingId := tokenToListingId s; userListings := userListings s;
     userOffers := f (userOffers s);
     whitelistedContracts := whitelistedContracts s;
     royaltyEngine := royaltyEngine s;
     marketplaceFeePercentage := marketplaceFeePercentage s;
     feeRecipient := feeRecipient s; totalListings := totalListings s;
     totalSales := totalSales s; totalVolume := totalVolume s;
     owner := owner s; paused := paused s |}.

Definition set_whitelistedContracts f (s : storage) : storage :=
  {| listings := listings s; offers := offers s;
     tokenToListingId := tokenToListingId s; userListings := userListings s;
     userOffers := userOffers s;
     whitelistedContracts := f (whitelistedContracts s);
     royaltyEngine := royaltyEngine s;
     marketplaceFeePercentage := marketplaceFeePercentage s;
     feeRecipient := feeRecipient s; totalListings := totalListings s;
     totalSales := totalSales s; totalVolume := totalVolume s;
     owner := owner s; paused := paused s |}.

Definition set_royaltyEngine v (s : storage) : storage :=
  {| listings := listings s; offers := offers s;
     tokenToListingId := tokenToListingId s; userListings := userListings s;
     userOffers := userOffers s;
     whitelistedContracts := whitelistedContracts s; royaltyEngine := v;
     marketplaceFeePercentage := marketplaceFeePercentage s;
     feeRecipient := feeRecipient s; totalListings := totalListings s;
     totalSales := totalSales s; totalVolume := totalVolume s;
     owner := owner s; paused := paused s |}.

Definition set_marketplaceFeePercentage v (s : storage) : storage :=
  {| listings := listings s; offers := offers s;
     tokenToListingId := tokenToListingId s; userListings := userListings s;
     userOffers := userOffers s;
     whitelistedContracts := whitelistedContracts s;
     royaltyEngine := royaltyEngine s; marketplaceFeePercentage := v;
     feeRecipient := feeRecipient s; totalListings := totalListings s;
     totalSales := totalSales s; totalVolume := totalVolume s;
     owner := owner s; paused := paused s |}.

Definition set_feeRecipient v (s : storage) : storage :=
  {| listings := listings s; offers := offers s;
     tokenToListingId := tokenToListingId s; userListings := userListings s;
     userOffers := userOffers s;
     whitelistedContracts := whitelistedContracts s;
     royaltyEngine := royaltyEngine s;
     marketplaceFeePercentage := marketplaceFeePercentage s;
     feeRecipient := v; totalListings := totalListings s;
     totalSales := totalSales s; totalVolume := totalVolume s;
     owner := owner s; paused := paused s |}.

Definition set_totalListings v (s : storage) : storage :=
  {| listings := listings s; offers := offers s;
     tokenToListingId := tokenToListingId s; userListings := userListings s;
     userOffers := userOffers s;
     whitelistedContracts := whitelistedContracts s;
     royaltyEngine := royaltyEngine s;
     marketplaceFeePercentage := marketplaceFeePercentage s;
     feeRecipient := feeRecipient s; totalListings := v;
     totalSales := totalSales s; totalVolume := totalVolume s;
     owner := owner s; paused := paused s |}.

Definition set_totalSales v (s : storage) : storage :=
  {| listings := listings s; offers := offers s;
     tokenToListingId := tokenToListingId s; userListings := userListings s;
     userOffers := userOffers s;
     whitelistedContracts := whitelistedContracts s;
     royaltyEngine := royaltyEngine s;
     marketplaceFeePercentage := marketplaceFeePercentage s;
     feeRecipient := feeRecipient s; totalListings := totalListings s;
     totalSales := v; totalVolume := totalVolume s; owner := owner s;
     paused := paused s |}.

Definition set_totalVolume v (s : storage) : storage :=
  {| listings := listings s; offers := offers s;
     tokenToListingId := tokenToListingId s; userListings := userListings s;
     userOffers := userOffers s;
     whitelistedContracts := whitelistedContracts s;
     royaltyEngine := royaltyEngine s;
     marketplaceFeePercentage := marketplaceFeePercentage s;
     feeRecipient := feeRecipient s; totalListings := totalListings s;
     totalSales := totalSales s; totalVolume := v; owner := owner s;
     paused := paused s |}.

Definition set_owner v (s : storage) : storage :=
  {| listings := listings s; offers := offers s;
     tokenToListingId := tokenToListingId s; userListings := userListings s;
     userOffers := userOffers s;
     whitelistedContracts := whitelistedContracts s;
     royaltyEngine := royaltyEngine s;
     marketplaceFeePercentage := marketplaceFeePercentage s;
     feeRecipient := feeRecipient s; totalListings := totalListings s;
     totalSales := totalSales s; totalVolume := totalVolume s; owner := v;
     paused := paused s |}.

Definition set_paused v (s : storage) : storage :=
  {| listings := listings s; offers := offers s;
     tokenToListingId := tokenToListingId s; userListings := userListings s;
     userOffers := userOffers s;
     whitelistedContracts := whitelistedContracts s;
     royaltyEngine := royaltyEngine s;
     marketplaceFeePercentage := marketplaceFeePercentage s;
     feeRecipient := feeRecipient s; totalListings := totalListings s;
     totalSales := totalSales s; totalVolume := totalVolume s;
     owner := owner s; paused := v |}.

(** [constructor(_feeRecipient, _royaltyEngine)] *)
Definition constructor (e : env) (_feeRecipient _royaltyEngine : address)
    : storage :=
  {| listings := ∅; offers := ∅; tokenToListingId := ∅;
     userListings := ∅; userOffers := ∅; whitelistedContracts := ∅;
     royaltyEngine := _royaltyEngine;
     marketplaceFeePercentage := 250;
     feeRecipient := _feeRecipient;
     totalListings := 0; totalSales := 0; totalVolume := 0;
     owner := sender e; paused := false |}.

(** View operations. *)
Definition getUserListings (s : storage) (user : address) : list bytes32 :=
  sload (userListings s) user.
Definition getUserOffers (s : storage) (user : address) : list bytes32 :=
  sload (userOffers s) user.
Definition getListing (s : storage) (listingId : bytes32) : Listing :=
  sload (listings s) listingId.
Definition getOffer (s : storage) (offerId : bytes32) : Offer :=
  sload (offers s) offerId.

(** [onERC721Received]: always the accepting selector. *)
Definition onERC721Received : N := 0x150b7a02.

Section Ops.
Context {W : Type} `{Chain W} `{Keccak} {receivers : Receivers W storage}.
Local Abbreviation M := (M W storage).

(** Modifiers. *)
Definition onlyOwner (e : env) : M unit :=
  o ← gets owner;
  require (sender e =? o) "Ownable: caller is not the owner".

Definition whenNotPaused : M unit :=
  p ← gets paused;
  require (negb p) "Pausable: paused".

Definition whenPaused : M unit :=
  p ← gets paused;
  require p "Pausable: not paused".

Definition onlyWhitelistedContract (nftContract : address) : M unit :=
  b ← gets (fun s => sload (whitelistedContracts s) nftContract);
  require b "Contract not whitelisted".

Definition validListing (e : env) (listingId : bytes32) : M unit :=
  l ← gets (fun s => sload (listings s) listingId);
  require (l_active l) "Listing not active";;
  require (timestamp e <? l_expiresAt l) "Listing expired".

Definition validOffer (e : env) (offerId : bytes32) : M unit :=
  o ← gets (fun s => sload (offers s) offerId);
  require (o_active o) "Offer not active";;
  require (timestamp e <? o_expiresAt o) "Offer expired".

(** [nft.isApprovedForAll(holder, address(this)) ||
     nft.getApproved(tokenId) == address(this)] *)
Definition engineApproved (e : env) (nft holder : address)
    (tokenId : uint256) : M bool :=
  all ← view "isApprovedForAll"
          (fun w => isApprovedForAll w nft holder (this e));
  if (all : bool) then ret true
  else
    a ← view "getApproved" (fun w => getApproved w nft tokenId);
    ret (a =? this e).

Definition _cancelListing (listingId : bytes32) : M unit :=
  listing ← gets (fun s => sload (listings s) listingId);
  modify (set_listings <[listingId := l_set_active false listing]>);;
  modify (set_tokenToListingId
            (delete (l_nftContract listing, l_tokenId listing)));;
  emit "ListingCancelled" [listingId].

(** [if (existingListingId != 0 && listings[existingListingId].active)
      _cancelListing(existingListingId)] *)
Definition cancelExisting (nftContract : address) (tokenId : uint256)
    : M unit :=
  existingListingId ←
    gets (fun s => sload (tokenToListingId s) (nftContract, tokenId));
  existing ← gets (fun s => sload (listings s) existingListingId);
  if negb (existingListingId =? 0) && l_active existing
  then _cancelListing existingListingId
  else ret tt.

Definition listItem (e : env) (nftContract : address)
    (tokenId price duration : uint256) : M unit :=
  whenNotPaused;;
  onlyWhitelistedContract nftContract;;
  require (0 <? price) "Price must be greater than 0";;
  require (0 <? duration) "Duration must be greater than 0";;
  tokenOwner ← view "ownerOf" (fun w => ownerOf w nftContract tokenId);
  require (tokenOwner =? sender e) "Not token owner";;
  approved ← engineApproved e nftContract (sender e) tokenId;
  require approved "Contract not approved";;
  let listingId := keccak256 [nftContract; tokenId; timestamp e] in
  old ← gets (fun s => sload (listings s) listingId);
  require (negb (l_active old)) "Already listed";;
  cancelExisting nftContract tokenId;;
  expiresAt ← checked_add (timestamp e) duration;
  modify (set_listings
            <[listingId := {| l_seller := sender e;
                              l_nftContract := nftContract;
                              l_tokenId := tokenId;
                              l_price := price;
                              l_createdAt := timestamp e;
                              l_expiresAt := expiresAt;
                              l_active := true |}]>);;
  modify (set_tokenToListingId <[(nftContract, tokenId) := listingId]>);;
  modify (set_userListings
            (fun m => <[sender e := sload m (sender e) ++ [listingId]]> m));;
  n ← gets totalListings;
  n' ← checked_add n 1;
  modify (set_totalListings n');;
  emit "ItemListed" [listingId; sender e; nftContract; tokenId; price].

(** The fee and royalty split shared by [buyItem] and [acceptOffer]:
    [marketplaceFee = price * marketplaceFeePercentage / 10000],
    [sellerAmount = price - marketplaceFee - royaltyAmount]. *)
Definition split (price royaltyAmount : uint256) : M (uint256 * uint256) :=
  feeBps ← gets marketplaceFeePercentage;
  product ← checked_mul price feeBps;
  let marketplaceFee := product / 10000 in
  afterFee ← checked_sub price marketplaceFee;
  sellerAmount ← checked_sub afterFee royaltyAmount;
  ret (marketplaceFee, sellerAmount).

(** The three conditional payments shared by both sale paths. *)
Definition payout (e : env) (seller : address)
    (sellerAmount marketplaceFee : uint256) (royaltyRecipient : address)
    (royaltyAmount : uint256) : M unit :=
  transfer e seller sellerAmount;;
  (if 0 <? marketplaceFee
   then (r ← gets feeRecipient; transfer e r marketplaceFee)
   else ret tt);;
  (if (0 <? royaltyAmount) && negb (royaltyRecipient =? 0)
   then transfer e royaltyRecipient royaltyAmount
   else ret tt).

Definition buyItem (e : env) (re : RoyaltyEngine.storage)
    (listingId : bytes32) : M unit :=
  whenNotPaused;;
  validListing e listingId;;
  listing ← gets (fun s => sload (listings s) listingId);
  require (l_price listing <=? value e) "Insufficient payment";;
  require (negb (sender e =? l_seller listing)) "Cannot buy own item";;
  tokenOwner ← view "ownerOf"
    (fun w => ownerOf w (l_nftContract listing) (l_tokenId listing));
  require (tokenOwner =? l_seller listing) "Seller no longer owns NFT";;
  modify (set_listings <[listingId := l_set_active false listing]>);;
  modify (set_tokenToListingId
            (delete (l_nftContract listing, l_tokenId listing)));;
  '(royaltyRecipient, royaltyAmount) ←
    staticcall re (RoyaltyEngine.getRoyalty (l_nftContract listing)
                     (l_tokenId listing) (l_price listing));
  '(marketplaceFee, sellerAmount) ← split (l_price listing) royaltyAmount;
  nftSafeTransferFrom e (l_nftContract listing) (l_seller listing)
    (sender e) (l_tokenId listing);;
  (* [listing] is a storage reference: from here on its fields are read
     from the record as the receiver has left it *)
  listing ← gets (fun s => sload (listings s) listingId);
  payout e (l_seller listing) sellerAmount marketplaceFee
    royaltyRecipient royaltyAmount;;
  (if l_price listing <? value e
   then transfer e (sender e) (value e - l_price listing)
   else ret tt);;
  sales ← gets totalSales;
  sales' ← checked_add sales 1;
  modify (set_totalSales sales');;
  volume ← gets totalVolume;
  volume' ← checked_add volume (l_price listing);
  modify (set_totalVolume volume');;
  emit "ItemSold" [listingId; sender e; l_seller listing;
                   l_nftContract listing; l_tokenId listing;
                   l_price listing].

Definition cancelListing (e : env) (listingId : bytes32) : M unit :=
  listing ← gets (fun s => sload (listings s) listingId);
  o ← gets owner;
  require ((l_seller listing =? sender e) || (sender e =? o))
    "Not authorized";;
  require (l_active listing) "Listing not active";;
  _cancelListing listingId.

Definition updateListing (e : env) (listingId : bytes32)
    (newPrice : uint256) : M unit :=
  validListing e listingId;;
  listing ← gets (fun s => sload (listings s) listingId);
  require (l_seller listing =? sender e) "Not listing owner";;
  require (0 <? newPrice) "Price must be greater than 0";;
  modify (set_listings <[listingId := l_set_price newPrice listing]>);;
  emit "ListingUpdated" [listingId; newPrice].

Definition createOffer (e : env) (nftContract : address)
    (tokenId duration : uint256) : M unit :=
  whenNotPaused;;
  onlyWhitelistedContract nftContract;;
  require (0 <? value e) "Offer must be greater than 0";;
  require (0 <? duration) "Duration must be greater than 0";;
  let offerId :=
    keccak256 [sender e; nftContract; tokenId; timestamp e] in
  expiresAt ← checked_add (timestamp e) duration;
  modify (set_offers
            <[offerId := {| o_buyer := sender e;
                            o_nftContract := nftContract;
                            o_tokenId := tokenId;
                            o_amount := value e;
                            o_createdAt := timestamp e;
                            o_expiresAt := expiresAt;
                            o_active := true |}]>);;
  modify (set_userOffers
            (fun m => <[sender e := sload m (sender e) ++ [offerId]]> m));;
  emit "OfferCreated" [offerId; sender e; nftContract; tokenId; value e].

Definition acceptOffer (e : env) (re : RoyaltyEngine.storage)
    (offerId : bytes32) : M unit :=
  whenNotPaused;;
  validOffer e offerId;;
  offer ← gets (fun s => sload (offers s) offerId);
  tokenOwner ← view "ownerOf"
    (fun w => ownerOf w (o_nftContract offer) (o_tokenId offer));
  require (tokenOwner =? sender e) "Not token owner";;
  approved ← engineApproved e (o_nftContract offer) (sender e)
               (o_tokenId offer);
  require approved "Contract not approved";;
  modify (set_offers <[offerId := o_set_active false offer]>);;
  '(royaltyRecipient, royaltyAmount) ←
    staticcall re (RoyaltyEngine.getRoyalty (o_nftContract offer)
                     (o_tokenId offer) (o_amount offer));
  '(marketplaceFee, sellerAmount) ← split (o_amount offer) royaltyAmount;
  nftSafeTransferFrom e (o_nftContract offer) (sender e) (o_buyer offer)
    (o_tokenId offer);;
  (* [offer] is a storage reference: read again after the receiver *)
  offer ← gets (fun s => sload (offers s) offerId);
  payout e (sender e) sellerAmount marketplaceFee
    royaltyRecipient royaltyAmount;;
  cancelExisting (o_nftContract offer) (o_tokenId offer);;
  sales ← gets totalSales;
  sales' ← checked_add sales 1;
  modify (set_totalSales sales');;
  volume ← gets totalVolume;
  volume' ← checked_add volume (o_amount offer);
  modify (set_totalVolume volume');;
  emit "OfferAccepted" [offerId; sender e; o_buyer offer; o_amount offer].

Definition cancelOffer (e : env) (offerId : bytes32) : M unit :=
  validOffer e offerId;;
  offer ← gets (fun s => sload (offers s) offerId);
  o ← gets owner;
  require ((o_buyer offer =? sender e) || (sender e =? o))
    "Not authorized";;
  modify (set_offers <[offerId := o_set_active false offer]>);;
  transfer e (o_buyer offer) (o_amount offer);;
  emit "OfferCancelled" [offerId].

(** Administration. *)
Definition setContractWhitelist (e : env) (nftContract : address)
    (whitelisted : bool) : M unit :=
  onlyOwner e;;
  modify (set_whitelistedContracts <[nftContract := whitelisted]>).

Definition setMarketplaceFee (e : env) (newFeePercentage : uint256)
    : M unit :=
  onlyOwner e;;
  require (newFeePercentage <=? MAX_FEE_PERCENTAGE) "Fee too high";;
  modify (set_marketplaceFeePercentage newFeePercentage).

Definition setFeeRecipient (e : env) (newFeeRecipient : address) : M unit :=
  onlyOwner e;;
  require (negb (newFeeRecipient =? 0)) "Invalid address";;
  modify (set_feeRecipient newFeeRecipient).

Definition setRoyaltyEngine (e : env) (newRoyaltyEngine : address)
    : M unit :=
  onlyOwner e;;
  require (negb (newRoyaltyEngine =? 0)) "Invalid address";;
  modify (set_royaltyEngine newRoyaltyEngine).

Definition pause (e : env) : M unit :=
  onlyOwner e;;
  whenNotPaused;;
  modify (set_paused true);;
  emit "Paused" [sender e].

Definition unpause (e : env) : M unit :=
  onlyOwner e;;
  whenPaused;;
  modify (set_paused false);;
  emit "Unpaused" [sender e].

Definition emergencyWithdraw (e : env) : M unit :=
  onlyOwner e;;
  whenPaused;;
  o ← gets owner;
  held ← gets_world (fun w => balance w (this e));
  transfer e o held.

Definition transferOwnership (e : env) (newOwner : address) : M unit :=
  onlyOwner e;;
  require (negb (newOwner =? 0)) "Ownable: new owner is the zero address";;
  oldOwner ← gets owner;
  modify (set_owner newOwner);;
  emit "OwnershipTransferred" [oldOwner; newOwner].

Definition renounceOwnership (e : env) : M unit :=
  onlyOwner e;;
  oldOwner ← gets owner;
  modify (set_owner 0);;
  emit "OwnershipTransferred" [oldOwner; 0].

(** The public state-changing surface. *)
Inductive call :=
| ListItem (nftContract : address) (tokenId price duration : uint256)
| BuyItem (listingId : bytes32)
| CancelListing (listingId : bytes32)
| UpdateListing (listingId : bytes32) (newPrice : uint256)
| CreateOffer (nftContract : address) (tokenId duration : uint256)
| AcceptOffer (offerId : bytes32)
| CancelOffer (offerId : bytes32)
| SetContractWhitelist (nftContract : address) (whitelisted : bool)
| SetMarketplaceFee (newFeePercentage : uint256)
| SetFeeRecipient (newFeeRecipient : address)
| SetRoyaltyEngine (newRoyaltyEngine : address)
| Pause
| Unpause
| EmergencyWithdraw
| TransferOwnership (newOwner : address)
| RenounceOwnership.

(** One call; [re] is the storage of the contract the [royaltyEngine]
    slot points at.  The [nonReentrant] modifier of [listItem],
    [buyItem], [createOffer] and [acceptOffer] is applied where a call
    enters the engine, see [MarketplaceTx.nonReentrant]. *)
Definition exec (e : env) (re : RoyaltyEngine.storage) (c : call) : M unit :=
  match c with
  | ListItem n t p d => nonpayable e;; listItem e n t p d
  | BuyItem l => payable e;; buyItem e re l
  | CancelListing l => nonpayable e;; cancelListing e l
  | UpdateListing l p => nonpayable e;; updateListing e l p
  | CreateOffer n t d => payable e;; createOffer e n t d
  | AcceptOffer o => nonpayable e;; acceptOffer e re o
  | CancelOffer o => nonpayable e;; cancelOffer e o
  | SetContractWhitelist n b => nonpayable e;; setContractWhitelist e n b
  | SetMarketplaceFee f => nonpayable e;; setMarketplaceFee e f
  | SetFeeRecipient r => nonpayable e;; setFeeRecipient e r
  | SetRoyaltyEngine r => nonpayable e;; setRoyaltyEngine e r
  | Pause => nonpayable e;; pause e
  | Unpause => nonpayable e;; unpause e
  | EmergencyWithdraw => nonpayable e;; emergencyWithdraw e
  | TransferOwnership o => nonpayable e;; transferOwnership e o
  | RenounceOwnership => nonpayable e;; renounceOwnership e
  end.

(** Storage states a deployed marketplace can be in. *)
Inductive reachable : storage -> Prop :=
| reachable_init e f r : reachable (constructor e f r)
| reachable_step s e re c w c' :
    reachable s ->
    exec e re c (enter w s) = Ok (tt, c') ->
    reachable (store c').
End Ops.

End Marketplace.

(** ** ERC721Escrow.sol *)

Module Escrow.

Inductive EscrowStatus := Active | Completed | Cancelled | Disputed.

Definition status_eqb (a b : EscrowStatus) : bool :=
  match a, b with
  | Active, Active | Completed, Completed
  | Cancelled, Cancelled | Disputed, Disputed => true
  | _, _ => false
  end.

Record EscrowTransaction := {
  seller : address;
  buyer : address;
  nftContract : address;
  tokenId : uint256;
  price : uint256;
  createdAt : uint256;
  deadline : uint256;
  status : EscrowStatus;
  sellerApproved : bool;
  buyerApproved : bool
}.

#[global] Instance zero_EscrowTransaction : Zero EscrowTransaction :=
  {| seller := 0; buyer := 0; nftContract := 0; tokenId := 0; price := 0;
     createdAt := 0; deadline := 0; status := Active;
     sellerApproved := false; buyerApproved := false |}.

Definition set_status v (x : EscrowTransaction) : EscrowTransaction :=
  {| seller := seller x; buyer := buyer x; nftContract := nftContract x;
     tokenId := tokenId x; price := price x; createdAt := createdAt x;
     deadline := deadline x; status := v;
     sellerApproved := sellerApproved x; buyerApproved := buyerApproved x |}.

Definition set_sellerApproved v (x : EscrowTransaction) : EscrowTransaction :=
  {| seller := seller x; buyer := buyer x; nftContract := nftContract x;
     tokenId := tokenId x; price := price x; createdAt := createdAt x;
     deadline := deadline x; status := status x; sellerApproved := v;
     buyerApproved := buyerApproved x |}.

Definition set_buyerApproved v (x : EscrowTransaction) : EscrowTransaction :=
  {| seller := seller x; buyer := buyer x; nftContract := nftContract x;
     tokenId := tokenId x; price := price x; createdAt := createdAt x;
     deadline := deadline x; status := status x;
     sellerApproved := sellerApproved x; buyerApproved := v |}.

Record storage := {
  escrowTransactions : gmap N EscrowTransaction;
  whitelistedContracts : gmap N bool;
  userEscrows : gmap N (list N);
  nextEscrowId : uint256;
  escrowFeePercentage : uint256;
  disputeWindow : uint256;
  feeRecipient : address;
  disputeResolver : address;
  owner : address;       (* Ownable *)
  paused : bool          (* Pausable *)
}.

Definition MAX_FEE_PERCENTAGE : uint256 := 1000.

Definition set_escrowTransactions f (s : storage) : storage :=
  {| escrowTransactions := f (escrowTransactions s);
     whitelistedContracts := whitelistedContracts s;
     userEscrows := userEscrows s; nextEscrowId := nextEscrowId s;
     escrowFeePercentage := escrowFeePercentage s;
     disputeWindow := disputeWindow s; feeRecipient := feeRecipient s;
     disputeResolver := disputeResolver s; owner := owner s;
     paused := paused s |}.

Definition set_whitelistedContracts f (s : storage) : storage :=
  {| escrowTransactions := escrowTransactions s;
     whitelistedContracts := f (whitelistedContracts s);
     userEscrows := userEscrows s; nextEscrowId := nextEscrowId s;
     escrowFeePercentage := escrowFeePercentage s;
     disputeWindow := disputeWindow s; feeRecipient := feeRecipient s;
     disputeResolver := disputeResolver s; owner := owner s;
     paused := paused s |}.

Definition set_userEscrows f (s : storage) : storage :=
  {| escrowTransactions := escrowTransactions s;
     whitelistedContracts := whitelistedContracts s;
     userEscrows := f (userEscrows s); nextEscrowId := nextEscrowId s;
     escrowFeePercentage := escrowFeePercentage s;
     disputeWindow := disputeWindow s; feeRecipient := feeRecipient s;
     disputeResolver := disputeResolver s; owner := owner s;
     paused := paused s |}.

Definition set_nextEscrowId v (s : storage) : storage :=
  {| escrowTransactions := escrowTransactions s;
     whitelistedContracts := whitelistedContracts s;
     userEscrows := userEscrows s; nextEscrowId := v;
     escrowFeePercentage := escrowFeePercentage s;
     disputeWindow := disputeWindow s; feeRecipient := feeRecipient s;
     disputeResolver := disputeResolver s; owner := owner s;
     paused := paused s |}.

Definition set_escrowFeePercentage v (s : storage) : storage :=
  {| escrowTransactions := escrowTransactions s;
     whitelistedContracts := whitelistedContracts s;
     userEscrows := userEscrows s; nextEscrowId := nextEscrowId s;
     escrowFeePercentage := v; disputeWindow := disputeWindow s;
     feeRecipient := feeRecipient s; disputeResolver := disputeResolver s;
     owner := owner s; paused := paused s |}.

Definition set_disputeWindow v (s : storage) : storage :=
  {| escrowTransactions := escrowTransactions s;
     whitelistedContracts := whitelistedContracts s;
     userEscrows := userEscrows s; nextEscrowId := nextEscrowId s;
     escrowFeePercentage := escrowFeePercentage s; disputeWindow := v;
     feeRecipient := feeRecipient s; disputeResolver := disputeResolver s;
     owner := owner s; paused := paused s |}.

Definition set_feeRecipient v (s : storage) : storage :=
  {| escrowTransactions := escrowTransactions s;
     whitelistedContracts := whitelistedContracts s;
     userEscrows := userEscrows s; nextEscrowId := nextEscrowId s;
     escrowFeePercentage := escrowFeePercentage s;
     disputeWindow := disputeWindow s; feeRecipient := v;
     disputeResolver := disputeResolver s; owner := owner s;
     paused := paused s |}.

Definition set_disputeResolver v (s : storage) : storage :=
  {| escrowTransactions := escrowTransactions s;
     whitelistedContracts := whitelistedContracts s;
     userEscrows := userEscrows s; nextEscrowId := nextEscrowId s;
     escrowFeePercentage := escrowFeePercentage s;
     disputeWindow := disputeWindow s; feeRecipient := feeRecipient s;
     disputeResolver := v; owner := owner s; paused := paused s |}.

Definition set_owner v (s : storage) : storage :=
  {| escrowTransactions := escrowTransactions s;
     whitelistedContracts := whitelistedContracts s;
     userEscrows := userEscrows s; nextEscrowId := nextEscrowId s;
     escrowFeePercentage := escrowFeePercentage s;
     disputeWindow := disputeWindow s; feeRecipient := feeRecipient s;
     disputeResolver := disputeResolver s; owner := v; paused := paused s |}.

Definition set_paused v (s : storage) : storage :=
  {| escrowTransactions := escrowTransactions s;
     whitelistedContracts := whitelistedContracts s;
     userEscrows := userEscrows s; nextEscrowId := nextEscrowId s;
     escrowFeePercentage := escrowFeePercentage s;
     disputeWindow := disputeWindow s; feeRecipient := feeRecipient s;
     disputeResolver := disputeResolver s; owner := owner s; paused := v |}.

(** [constructor(_feeRecipient, _disputeResolver)]; [7 days] is 604800. *)
Definition constructor (e : env) (_feeRecipient _disputeResolver : address)
    : storage :=
  {| escrowTransactions := ∅; whitelistedContracts := ∅; userEscrows := ∅;
     nextEscrowId := 1;
     escrowFeePercentage := 250;
     disputeWindow := 604800;
     feeRecipient := _feeRecipient;
     disputeResolver := _disputeResolver;
     owner := sender e; paused := false |}.

(** View operations. *)
Definition getUserEscrows (s : storage) (user : address) : list uint256 :=
  sload (userEscrows s) user.
Definition getEscrow (s : storage) (escrowId : uint256) : EscrowTransaction :=
  sload (escrowTransactions s) escrowId.

(** [onERC721Received]: always the accepting selector. *)
Definition onERC721Received : N := 0x150b7a02.

Section Ops.
Context {W : Type} `{Chain W} {receivers : Receivers W storage}.
Local Abbreviation M := (M W storage).

(** Modifiers. *)
Definition onlyOwner (e : env) : M unit :=
  o ← gets owner;
  require (sender e =? o) "Ownable: caller is not the owner".

Definition whenNotPaused : M unit :=
  p ← gets paused;
  require (negb p) "Pausable: paused".

Definition whenPaused : M unit :=
  p ← gets paused;
  require p "Pausable: not paused".

Definition onlyDisputeResolver (e : env) : M unit :=
  r ← gets disputeResolver;
  require (sender e =? r) "Only dispute resolver".

Definition validEscrow (escrowId : uint256) : M unit :=
  next ← gets nextEscrowId;
  require ((0 <? escrowId) && (escrowId <? next)) "Invalid escrow ID".

Definition createEscrow (e : env) (buyer nftContract : address)
    (tokenId deadline : uint256) : M unit :=
  whenNotPaused;;
  require (negb (buyer =? 0)) "Invalid buyer address";;
  require (negb (buyer =? sender e)) "Buyer cannot be seller";;
  whitelisted ← gets (fun s => sload (whitelistedContracts s) nftContract);
  require whitelisted "Contract not whitelisted";;
  require (0 <? value e) "Price must be greater than 0";;
  require (timestamp e <? deadline) "Invalid deadline";;
  tokenOwner ← view "ownerOf" (fun w => ownerOf w nftContract tokenId);
  require (tokenOwner =? sender e) "Seller doesn't own NFT";;
  all ← view "isApprovedForAll"
          (fun w => isApprovedForAll w nftContract (sender e) (this e));
  approved ← (if (all : bool) then ret true
              else a ← view "getApproved"
                         (fun w => getApproved w nftContract tokenId);
                   ret (a =? this e));
  require approved "Contract not approved";;
  escrowId ← gets nextEscrowId;
  next ← checked_add escrowId 1;
  modify (set_nextEscrowId next);;
  modify (set_escrowTransactions
            <[escrowId := {| seller := sender e;
                             buyer := buyer;
                             nftContract := nftContract;
                             tokenId := tokenId;
                             price := value e;
                             createdAt := timestamp e;
                             deadline := deadline;
                             status := Active;
                             sellerApproved := false;
                             buyerApproved := false |}]>);;
  modify (set_userEscrows
            (fun m => <[sender e := sload m (sender e) ++ [escrowId]]> m));;
  modify (set_userEscrows
            (fun m => <[buyer := sload m buyer ++ [escrowId]]> m));;
  nftSafeTransferFrom e nftContract (sender e) (this e) tokenId;;
  emit "EscrowCreated" [escrowId; sender e; buyer; nftContract; tokenId;
                        value e].

Definition _completeEscrow (e : env) (escrowId : uint256) : M unit :=
  escrow ← gets (fun s => sload (escrowTransactions s) escrowId);
  modify (set_escrowTransactions
            <[escrowId := set_status Completed escrow]>);;
  feeBps ← gets escrowFeePercentage;
  product ← checked_mul (price escrow) feeBps;
  let fee := product / 10000 in
  sellerAmount ← checked_sub (price escrow) fee;
  nftSafeTransferFrom e (nftContract escrow) (this e) (buyer escrow)
    (tokenId escrow);;
  (* [escrow] is a storage reference: read again after the receiver *)
  escrow ← gets (fun s => sload (escrowTransactions s) escrowId);
  transfer e (seller escrow) sellerAmount;;
  (if 0 <? fee
   then (r ← gets feeRecipient; transfer e r fee)
   else ret tt);;
  emit "EscrowCompleted" [escrowId].

Definition approveEscrow (e : env) (escrowId : uint256) : M unit :=
  validEscrow escrowId;;
  escrow ← gets (fun s => sload (escrowTransactions s) escrowId);
  require (status_eqb (status escrow) Active) "Escrow not active";;
  require ((sender e =? seller escrow) || (sender e =? buyer escrow))
    "Not authorized";;
  (if sender e =? seller escrow
   then modify (set_escrowTransactions
                  <[escrowId := set_sellerApproved true escrow]>)
   else modify (set_escrowTransactions
                  <[escrowId := set_buyerApproved true escrow]>));;
  escrow' ← gets (fun s => sload (escrowTransactions s) escrowId);
  if sellerApproved escrow' && buyerApproved escrow'
  then _completeEscrow e escrowId
  else ret tt.

(** The refund shared by [cancelEscrow] and the seller-wins branch of
    [resolveDispute]: asset back to the seller, price back to the buyer. *)
Definition unwind (e : env) (escrowId : uint256)
    (escrow : EscrowTransaction) : M unit :=
  modify (set_escrowTransactions
            <[escrowId := set_status Cancelled escrow]>);;
  nftSafeTransferFrom e (nftContract escrow) (this e) (seller escrow)
    (tokenId escrow);;
  escrow ← gets (fun s => sload (escrowTransactions s) escrowId);
  transfer e (buyer escrow) (price escrow).

Definition cancelEscrow (e : env) (escrowId : uint256) : M unit :=
  validEscrow escrowId;;
  escrow ← gets (fun s => sload (escrowTransactions s) escrowId);
  require (status_eqb (status escrow) Active) "Escrow not active";;
  require ((sender e =? seller escrow) || (sender e =? buyer escrow)
           || (deadline escrow <? timestamp e))
    "Not authorized to cancel";;
  unwind e escrowId escrow;;
  emit "EscrowCancelled" [escrowId].

Definition initiateDispute (e : env) (escrowId : uint256) : M unit :=
  validEscrow escrowId;;
  escrow ← gets (fun s => sload (escrowTransactions s) escrowId);
  require (status_eqb (status escrow) Active) "Escrow not active";;
  require ((sender e =? seller escrow) || (sender e =? buyer escrow))
    "Not authorized";;
  window ← gets disputeWindow;
  closes ← checked_add (deadline escrow) window;
  require (timestamp e <=? closes) "Dispute window closed";;
  modify (set_escrowTransactions
            <[escrowId := set_status Disputed escrow]>);;
  emit "EscrowDisputed" [escrowId].

Definition resolveDispute (e : env) (escrowId : uint256)
    (favorBuyer : bool) : M unit :=
  onlyDisputeResolver e;;
  validEscrow escrowId;;
  escrow ← gets (fun s => sload (escrowTransactions s) escrowId);
  require (status_eqb (status escrow) Disputed) "Escrow not disputed";;
  (if favorBuyer
   then _completeEscrow e escrowId
   else unwind e escrowId escrow);;
  emit "DisputeResolved" [escrowId; if favorBuyer then 1 else 0].

(** Administration. *)
Definition setContractWhitelist (e : env) (nftContract : address)
    (whitelisted : bool) : M unit :=
  onlyOwner e;;
  modify (set_whitelistedContracts <[nftContract := whitelisted]>);;
  emit "ContractWhitelisted" [nftContract; if whitelisted then 1 else 0].

Definition setEscrowFee (e : env) (newFeePercentage : uint256) : M unit :=
  onlyOwner e;;
  require (newFeePercentage <=? MAX_FEE_PERCENTAGE) "Fee too high";;
  modify (set_escrowFeePercentage newFeePercentage);;
  emit "FeeUpdated" [newFeePercentage].

Definition setFeeRecipient (e : env) (newFeeRecipient : address) : M unit :=
  onlyOwner e;;
  require (negb (newFeeRecipient =? 0)) "Invalid address";;
  modify (set_feeRecipient newFeeRecipient).

Definition setDisputeResolver (e : env) (newDisputeResolver : address)
    : M unit :=
  onlyOwner e;;
  require (negb (newDisputeResolver =? 0)) "Invalid address";;
  modify (set_disputeResolver newDisputeResolver).

Definition pause (e : env) : M unit :=
  onlyOwner e;;
  whenNotPaused;;
  modify (set_paused true);;
  emit "Paused" [sender e].

Definition unpause (e : env) : M unit :=
  onlyOwner e;;
  whenPaused;;
  modify (set_paused false);;
  emit "Unpaused" [sender e].

Definition emergencyWithdraw (e : env) : M unit :=
  onlyOwner e;;
  whenPaused;;
  o ← gets owner;
  held ← gets_world (fun w => balance w (this e));
  transfer e o held.

Definition transferOwnership (e : env) (newOwner : address) : M unit :=
  onlyOwner e;;
  require (negb (newOwner =? 0)) "Ownable: new owner is the zero address";;
  oldOwner ← gets owner;
  modify (set_owner newOwner);;
  emit "OwnershipTransferred" [oldOwner; newOwner].

Definition renounceOwnership (e : env) : M unit :=
  onlyOwner e;;
  oldOwner ← gets owner;
  modify (set_owner 0);;
  emit "OwnershipTransferred" [oldOwner; 0].

(** The public state-changing surface. *)
Inductive call :=
| CreateEscrow (buyer nftContract : address) (tokenId deadline : uint256)
| ApproveEscrow (escrowId : uint256)
| CancelEscrow (escrowId : uint256)
| InitiateDispute (escrowId : uint256)
| ResolveDispute (escrowId : uint256) (favorBuyer : bool)
| SetContractWhitelist (nftContract : address) (whitelisted : bool)
| SetEscrowFee (newFeePercentage : uint256)
| SetFeeRecipient (newFeeRecipient : address)
| SetDisputeResolver (newDisputeResolver : address)
| Pause
| Unpause
| EmergencyWithdraw
| TransferOwnership (newOwner : address)
| RenounceOwnership.

(** One call.  The [nonReentrant] modifier of [createEscrow] is applied
    where a call enters the engine, see [EscrowTx.nonReentrant]. *)
Definition exec (e : env) (c : call) : M unit :=
  match c with
  | CreateEscrow b n t d => payable e;; createEscrow e b n t d
  | ApproveEscrow i => nonpayable e;; approveEscrow e i
  | CancelEscrow i => nonpayable e;; cancelEscrow e i
  | InitiateDispute i => nonpayable e;; initiateDispute e i
  | ResolveDispute i f => nonpayable e;; resolveDispute e i f
  | SetContractWhitelist n b => nonpayable e;; setContractWhitelist e n b
  | SetEscrowFee f => nonpayable e;; setEscrowFee e f
  | SetFeeRecipient r => nonpayable e;; setFeeRecipient e r
  | SetDisputeResolver r => nonpayable e;; setDisputeResolver e r
  | Pause => nonpayable e;; pause e
  | Unpause => nonpayable e;; unpause e
  | EmergencyWithdraw => nonpayable e;; emergencyWithdraw e
  | TransferOwnership o => nonpayable e;; transferOwnership e o
  | RenounceOwnership => nonpayable e;; renounceOwnership e
  end.

(** Storage states a deployed escrow engine can be in. *)
Inductive reachable : storage -> Prop :=
| reachable_init e f r : reachable (constructor e f r)
| reachable_step s e c w c' :
    reachable s ->
    exec e c (enter w s) = Ok (tt, c') ->
    reachable (store c').
End Ops.

End Escrow.

(** ** Resolution order of the royalty engine, as the specification words it *)

Module RoyaltySpec.
Import RoyaltyEngine.

(** The layer a royalty answer comes from. *)
Inductive layer :=
| External (recipient : address) (amount : uint256)
| TokenOverride
| ContractOverride
| GlobalDefault
| NoRoyalty.

(** A record is an override unless recipient and fraction are both empty. *)
Definition present (r : RoyaltyInfo) : Prop :=
  recipient r ≠ 0 ∨ percentage r ≠ 0.

#[global] Instance present_dec r : Decision (present r).
Proof. unfold present. apply _. Defined.

Section Resolve.
Context {W : Type} `{Chain W}.

(** Step (1): the registry's own answer, accepted only when the
    recipient is non-empty and the amount is at most 10% of the price. *)
Definition externalAnswer (w : W) (nft : address) (tokenId salePrice : uint256)
    : option (address * uint256) :=
  if supportsRoyaltyInterface w nft then
    match royaltyInfo w nft tokenId salePrice with
    | Some (r, a) =>
        if decide (r ≠ 0 ∧ 10 * a ≤ salePrice) then Some (r, a) else None
    | None => None
    end
  else None.

(** Steps (2) to (5): token override, contract override, global
    default, none. *)
Definition cascade (s : storage) (nft : address) (tokenId : uint256)
    : layer :=
  if decide (present (sload (tokenRoyalties s) (nft, tokenId)))
  then TokenOverride
  else if decide (present (sload (contractRoyalties s) nft))
  then ContractOverride
  else if decide (present (defaultRoyalty s))
  then GlobalDefault
  else NoRoyalty.

Definition resolve (w : W) (s : storage) (nft : address)
    (tokenId salePrice : uint256) : layer :=
  match externalAnswer w nft tokenId salePrice with
  | Some (r, a) => External r a
  | None => cascade s nft tokenId
  end.

(** The record a percentage-based layer reads. *)
Definition layerRecord (s : storage) (nft : address) (tokenId : uint256)
    (l : layer) : RoyaltyInfo :=
  match l with
  | TokenOverride => sload (tokenRoyalties s) (nft, tokenId)
  | ContractOverride => sload (contractRoyalties s) nft
  | GlobalDefault => defaultRoyalty s
  | External _ _ | NoRoyalty => zero
  end.

(** (recipient, amount) of a layer: [salePrice * bps / 10000] for the
    percentage-based ones. *)
Definition answer (s : storage) (nft : address) (tokenId salePrice : uint256)
    (l : layer) : address * uint256 :=
  match l with
  | External r a => (r, a)
  | NoRoyalty => (0, 0)
  | _ => let r := layerRecord s nft tokenId l in
         (recipient r, salePrice * percentage r / 10000)
  end.
End Resolve.

(** A property of every stored record: the global default, every
    contract-level record and every token-level record. *)
Definition everyRecord (P : RoyaltyInfo -> Prop) (s : storage) : Prop :=
  P (defaultRoyalty s) ∧
  (∀ nft, P (sload (contractRoyalties s) nft)) ∧
  (∀ nft tokenId, P (sload (tokenRoyalties s) (nft, tokenId))).

(** The 10% cap. *)
Definition withinCap (r : RoyaltyInfo) : Prop :=
  percentage r ≤ MAX_ROYALTY_PERCENTAGE.

Definition capped (s : storage) : Prop := everyRecord withinCap s.

(** A non-zero fraction comes with a recipient. *)
Definition hasRecipient (r : RoyaltyInfo) : Prop :=
  percentage r ≠ 0 -> recipient r ≠ 0.

Definition addressed (s : storage) : Prop := everyRecord hasRecipient s.
End RoyaltySpec.

(** ** A small chain to run the engines on *)

(** One ERC-721 registry semantics for every token contract and a plain
    ether ledger: the standard behaviour the engines are written against.
    Used to run concrete scenarios. *)
Module Sim.

Record ledger := {
  eth : address -> uint256;
  holder : address -> uint256 -> address;          (* 0: token not minted *)
  operators : address -> address -> address -> bool;
  approvals : address -> uint256 -> address;
  royaltyOracle : address -> option (uint256 -> uint256 -> option (address * uint256))
}.

Definition upd1 {A} (f : N -> A) (k : N) (v : A) : N -> A :=
  fun x => if x =? k then v else f x.

Definition upd2 {A} (f : N -> N -> A) (k1 k2 : N) (v : A) : N -> N -> A :=
  fun x y => if (x =? k1) && (y =? k2) then v else f x y.

Definition sim_ownerOf (w : ledger) (nft : address) (id : uint256)
    : option address :=
  if holder w nft id =? 0 then None else Some (holder w nft id).

Definition sim_getApproved (w : ledger) (nft : address) (id : uint256)
    : option address :=
  if holder w nft id =? 0 then None else Some (approvals w nft id).

Definition sim_safeTransferFrom (w : ledger) (nft caller from to : address)
    (id : uint256)   : option ledger :=
  if negb (holder w nft id =? 0) && (holder w nft id =? from)
     && negb (to =? 0)
     && ((caller =? from) || operators w nft from caller
         || (approvals w nft id =? caller))
  then Some {| eth := eth w;
               holder := upd2 (holder w) nft id to;
               operators := operators w;
               approvals := upd2 (approvals w) nft id 0;
               royaltyOracle := royaltyOracle w |}
  else None.

Definition sim_send (w : ledger) (from to : address) (amount : uint256)
      : option ledger :=
  if amount <=? eth w from
  then let debited := upd1 (eth w) from (eth w from - amount) in
       Some {| eth := upd1 debited to (debited to + amount);
               holder := holder w;
               operators := operators w;
               approvals := approvals w;
               royaltyOracle := royaltyOracle w |}
  else None.

Definition chain : Chain ledger :=
  {| ownerOf := sim_ownerOf;
     isApprovedForAll := fun w nft h o => Some (operators w nft h o);
     getApproved := sim_getApproved;
     safeTransferFrom := sim_safeTransferFrom;
     balance := eth;
     send := sim_send;
     supportsRoyaltyInterface := fun w nft =>
       match royaltyOracle w nft with Some _ => true | None => false end;
     royaltyInfo := fun w nft id p =>
       match royaltyOracle w nft with Some f => f id p | None => None end;
     contractOwner := fun _ _ => None |}.

(** A never-zero stand-in for keccak256 over packed words, injective on
    words below 2^32 (the scenarios stay within them), so that ids fit
    a bytes32. *)
Definition keccak : Keccak :=
  fun l => 1 + fold_right (fun x acc => x + 2 ^ 32 * acc) 0 l.

(** The cast of the scenarios. *)
Definition deployer : address := 100.
Definition alice : address := 1.
Definition bob : address := 2.
Definition carol : address := 3.
Definition resolver : address := 4.
Definition treasury : address := 9.
Definition nft : address := 50.
Definition market : address := 200.
Definition escrow : address := 201.
Definition royalties : address := 202.

Definition ether : uint256 := 10 ^ 18.

(** Alice holds token 7 of [nft] and has approved both engines as
    operators; every account holds 10 ether; no EIP-2981 support. *)
Definition genesis : ledger :=
  {| eth := fun a => if (a =? market) || (a =? escrow) then 0 else 10 * ether;
     holder := fun c id => if (c =? nft) && (id =? 7) then alice else 0;
     operators := fun c h o =>
       (c =? nft) && (h =? alice) && ((o =? market) || (o =? escrow));
     approvals := fun _ _ => 0;
     royaltyOracle := fun _ => None |}.

Definition tx (from : address) (val now to : N) : env :=
  {| sender := from; value := val; timestamp := now; this := to |}.

End Sim.

(** ** What a settlement is expected to send *)

Module Expected.

(** The three-way payment of a sale: seller proceeds always, the fee when
    it is positive, the royalty when it is positive and has a recipient. *)
Definition settlement (seller feeRecipient royaltyRecipient : address)
    (sellerAmount fee royalty : uint256) : list effect :=
  [SendEth seller sellerAmount]
  ++ (if 0 <? fee then [SendEth feeRecipient fee] else [])
  ++ (if (0 <? royalty) && negb (royaltyRecipient =? 0)
      then [SendEth royaltyRecipient royalty] else []).

(** The overpayment handed back to the buyer. *)
Definition refund (buyer : address) (paid price : uint256) : list effect :=
  if price <? paid then [SendEth buyer (paid - price)] else [].

(** Total of a list of payments. *)
Definition total (l : list (address * uint256)) : uint256 :=
  fold_right (fun p acc => p.2 + acc) 0 l.

Arguments settlement : simpl never.
Arguments refund : simpl never.
Arguments total : simpl never.

End Expected.

(** ** Listing index of the marketplace *)

Module MarketInv.
Import Marketplace.


(** The (asset-registry, asset id) pair a listing is for. *)
Definition assetOf (s : storage) (listingId : bytes32) : address * uint256 :=
  (l_nftContract (sload (listings s) listingId),
   l_tokenId (sload (listings s) listingId)).


(** Storage effect of [_cancelListing]. *)
Definition deactivate (listingId : bytes32) (s : storage) : storage :=
  set_tokenToListingId (delete (assetOf s listingId))
    (set_listings
       <[listingId := l_set_active false (sload (listings s) listingId)]> s).


End MarketInv.

(** ** Approval flags of the escrow engine *)

Module EscrowInv.
Import Escrow.

Definition bothApproved (x : EscrowTransaction) : bool :=
  sellerApproved x && buyerApproved x.


(** Effects of a completion: asset to the buyer, price split between
    seller and fee recipient (no royalty). *)
Definition completion (this feeRecipient : address) (x : EscrowTransaction)
    (sellerAmount fee : uint256) (escrowId : uint256) : list effect :=
  [MoveNft (nftContract x) this (buyer x) (tokenId x)]
  ++ Expected.settlement (seller x) feeRecipient 0 sellerAmount fee 0
  ++ [Emit "EscrowCompleted" [escrowId]].

(** Effects of a cancellation: asset back to the seller, the whole held
    price back to the buyer. *)
Definition cancellation (this : address) (x : EscrowTransaction)
    : list effect :=
  [MoveNft (nftContract x) this (seller x) (tokenId x);
   SendEth (buyer x) (price x)].

End EscrowInv.

(** ** Concrete runs *)

Module Scenario.
Import Sim.

(** Run a call from where [c] left off; a reverted call changes nothing. *)
Definition step {S} (m : M ledger S unit) (c : ctx ledger S) : ctx ledger S :=
  match m (enter (world c) (store c)) with
  | Ok (_, c') => c'
  | Revert _ => enter (world c) (store c)
  end.

(** A royalty engine whose global default pays 5% to Carol. *)
Definition engine : RoyaltyEngine.storage :=
  RoyaltyEngine.set_defaultRoyalty
    {| RoyaltyEngine.recipient := carol; RoyaltyEngine.percentage := 500 |}
    (RoyaltyEngine.constructor (tx deployer 0 0 royalties)).

Definition week : uint256 := 604800.
Definition day : uint256 := 86400.

Definition mexec (e : env) (c : Marketplace.call)
    : M ledger Marketplace.storage unit :=
  Marketplace.exec (H := chain) (H0 := keccak) e engine c.

Definition eexec (e : env) (c : Escrow.call) : M ledger Escrow.storage unit :=
  Escrow.exec (H := chain) e c.

(** Marketplace: deploy, whitelist, Alice lists token 7 for 1 ether. *)
Definition m0 : ctx ledger Marketplace.storage :=
  enter genesis (Marketplace.constructor (tx deployer 0 0 market)
                   treasury royalties).
Definition m1 := step (mexec (tx deployer 0 10 market)
                         (Marketplace.SetContractWhitelist nft true)) m0.
Definition m2 := step (mexec (tx alice 0 1000 market)
                         (Marketplace.ListItem nft 7 ether week)) m1.
Definition listing1 : bytes32 := keccak [nft; 7; 1000].

(** Bob buys it with 1.5 ether. *)
Definition buyer_tx : env := tx bob (3 * ether / 2) 2000 market.
Definition m2_paid := step (payable (H := chain) buyer_tx) m2.
Definition m3 := step (mexec buyer_tx (Marketplace.BuyItem listing1)) m2.

(** Or Alice relists it for 2 ether an hour later. *)
Definition relist_tx : env := tx alice 0 4600 market.

(** Or Bob offers half an ether, the owner pauses, Bob cancels. *)
Definition offer_tx : env := tx bob (ether / 2) 1500 market.
Definition offer1 : bytes32 := keccak [bob; nft; 7; 1500].
Definition o1 := step (mexec offer_tx (Marketplace.CreateOffer nft 7 day)) m2.
Definition o2 := step (mexec (tx deployer 0 1600 market) Marketplace.Pause) o1.
Definition cancel_tx : env := tx bob 0 1700 market.
Definition o3 := step (mexec cancel_tx (Marketplace.CancelOffer offer1)) o2.

(** Or Alice accepts the offer. *)
Definition accept_tx : env := tx alice 0 1800 market.
Definition o1_accepted :=
  step (mexec accept_tx (Marketplace.AcceptOffer offer1)) o1.

(** Escrow: deploy, whitelist, Alice escrows token 7 for Bob with 1 ether
    held and a deadline at 90000. *)
Definition e0 : ctx ledger Escrow.storage :=
  enter genesis (Escrow.constructor (tx deployer 0 0 escrow) treasury resolver).
Definition e1 := step (eexec (tx deployer 0 10 escrow)
                         (Escrow.SetContractWhitelist nft true)) e0.
Definition e2 := step (eexec (tx alice ether 1000 escrow)
                         (Escrow.CreateEscrow bob nft 7 90000)) e1.

(** Both approve. *)
Definition e2_seller := step (eexec (tx alice 0 2000 escrow)
                                (Escrow.ApproveEscrow 1)) e2.
Definition e2_both := step (eexec (tx bob 0 3000 escrow)
                              (Escrow.ApproveEscrow 1)) e2_seller.

(** Or Bob disputes and the resolver favours the buyer, no approval given. *)
Definition e3 := step (eexec (tx bob 0 2000 escrow)
                         (Escrow.InitiateDispute 1)) e2.
Definition resolve_tx : env := tx resolver 0 3000 escrow.

(** Or Carol, a stranger, cancels after the deadline. *)
Definition late_tx : env := tx carol 0 100000 escrow.
Definition e2_cancelled := step (eexec late_tx (Escrow.CancelEscrow 1)) e2.

End Scenario.

(** States the concrete runs pass through between two transfers. *)
Module Midway.
Import Sim Scenario.

(** Bob cancels his offer before the pause. *)
Definition o1_cancelled :=
  step (mexec cancel_tx (Marketplace.CancelOffer offer1)) o1.

(** The resolver sides with the seller instead. *)
Definition e4_refunded :=
  step (eexec resolve_tx (Escrow.ResolveDispute 1 false)) e3.

End Midway.

(** ** MockNFT.sol: the EIP-2981 side of the example collection *)

(** What the caller of a [view] function gets back: the value, or
    nothing when the call reverted. *)
Definition returned {W S A} (r : result (A * ctx W S)) : option A :=
  match r with
  | Ok (a, _) => Some a
  | Revert _ => None
  end.

Module MockNFT.

Record RoyaltyInfo := {
  recipient : address;
  royaltyFraction : uint256   (* uint96, basis points, 1% = 100 *)
}.

#[global] Instance zero_RoyaltyInfo : Zero RoyaltyInfo :=
  {| recipient := 0; royaltyFraction := 0 |}.

(** The royalty slots, the Ownable and Pausable slots and, of the
    inherited ERC721 state, the holder of each token ([address(0)]: no
    such token). *)
Record storage := {
  _defaultRoyaltyInfo : RoyaltyInfo;
  _tokenRoyaltyInfo : gmap N RoyaltyInfo;
  _owners : gmap N address;
  owner : address;
  paused : bool
}.

Definition set_defaultRoyaltyInfo r (s : storage) : storage :=
  {| _defaultRoyaltyInfo := r;
     _tokenRoyaltyInfo := _tokenRoyaltyInfo s;
     _owners := _owners s;
     owner := owner s;
     paused := paused s |}.

Definition set_tokenRoyaltyInfo f (s : storage) : storage :=
  {| _defaultRoyaltyInfo := _defaultRoyaltyInfo s;
     _tokenRoyaltyInfo := f (_tokenRoyaltyInfo s);
     _owners := _owners s;
     owner := owner s;
     paused := paused s |}.

Definition set_owners f (s : storage) : storage :=
  {| _defaultRoyaltyInfo := _defaultRoyaltyInfo s;
     _tokenRoyaltyInfo := _tokenRoyaltyInfo s;
     _owners := f (_owners s);
     owner := owner s;
     paused := paused s |}.

Definition set_owner o (s : storage) : storage :=
  {| _defaultRoyaltyInfo := _defaultRoyaltyInfo s;
     _tokenRoyaltyInfo := _tokenRoyaltyInfo s;
     _owners := _owners s;
     owner := o;
     paused := paused s |}.

Definition set_paused p (s : storage) : storage :=
  {| _defaultRoyaltyInfo := _defaultRoyaltyInfo s;
     _tokenRoyaltyInfo := _tokenRoyaltyInfo s;
     _owners := _owners s;
     owner := owner s;
     paused := p |}.

(** Storage when the constructor body starts: nothing set, deployer
    owns, not paused. *)
Definition fresh (e : env) : storage :=
  {| _defaultRoyaltyInfo := zero;
     _tokenRoyaltyInfo := ∅;
     _owners := ∅;
     owner := sender e;
     paused := false |}.

Section Ops.
Context {W : Type} `{Chain W}.
Local Abbreviation M := (M W storage).

Definition onlyOwner (e : env) : M unit :=
  o ← gets owner;
  require (sender e =? o) "Ownable: caller is not the owner".

(** ERC721 [_exists] and [ownerOf] over the holder map. *)
Definition _exists (tokenId : uint256) : M bool :=
  h ← gets (fun s => sload (_owners s) tokenId);
  ret (negb (h =? 0)).

Definition ownerOf (tokenId : uint256) : M address :=
  h ← gets (fun s => sload (_owners s) tokenId);
  require (negb (h =? 0)) "ERC721: invalid token ID";;
  ret h.

Definition _setDefaultRoyalty (recipient : address)
    (royaltyFraction : uint256) : M unit :=
  require (royaltyFraction <=? 1000) "Royalty too high";;
  require (negb (recipient =? 0)) "Invalid recipient";;
  modify (set_defaultRoyaltyInfo
            {| recipient := recipient; royaltyFraction := royaltyFraction |});;
  emit "DefaultRoyaltySet" [recipient; royaltyFraction].

Definition _setTokenRoyalty (tokenId : uint256) (recipient : address)
    (royaltyFraction : uint256) : M unit :=
  require (royaltyFraction <=? 1000) "Royalty too high";;
  require (negb (recipient =? 0)) "Invalid recipient";;
  modify (set_tokenRoyaltyInfo
            <[tokenId := {| recipient := recipient;
                            royaltyFraction := royaltyFraction |}]>);;
  emit "TokenRoyaltySet" [tokenId; recipient; royaltyFraction].

(** [constructor(name, symbol, defaultRoyaltyRecipient,
    defaultRoyaltyFraction)], run on [fresh]. *)
Definition constructor (defaultRoyaltyRecipient : address)
    (defaultRoyaltyFraction : uint256) : M unit :=
  _setDefaultRoyalty defaultRoyaltyRecipient defaultRoyaltyFraction.

Definition setDefaultRoyalty (e : env) (recipient : address)
    (royaltyFraction : uint256) : M unit :=
  onlyOwner e;;
  _setDefaultRoyalty recipient royaltyFraction.

Definition setTokenRoyalty (e : env) (tokenId : uint256)
    (recipient : address) (royaltyFraction : uint256) : M unit :=
  known ← _exists tokenId;
  require known "Token does not exist";;
  o ← gets owner;
  authorized ← (if sender e =? o then ret true
                else h ← ownerOf tokenId; ret (sender e =? h));
  require authorized "Not authorized to set royalty";;
  _setTokenRoyalty tokenId recipient royaltyFraction.

Definition royaltyInfo (tokenId salePrice : uint256)
    : M (address * uint256) :=
  token ← gets (fun s => sload (_tokenRoyaltyInfo s) tokenId);
  royalty ← (if recipient token =? 0 then gets _defaultRoyaltyInfo
             else ret token);
  product ← checked_mul salePrice (royaltyFraction royalty);
  ret (recipient royalty, product / 10000).

(** The transfer hook: no token moves while the collection is paused. *)
Definition _beforeTokenTransfer : M unit :=
  p ← gets paused;
  require (negb p) "Pausable: paused".

(** [_burn]: [super._burn] looks the holder up, runs the transfer hook
    and takes the token off the holder map (its balance, approval and URI
    bookkeeping is not kept here); then the royalty record is reset. *)
Definition _burn (tokenId : uint256) : M unit :=
  ownerOf tokenId;;
  _beforeTokenTransfer;;
  modify (set_owners (delete tokenId));;
  modify (set_tokenRoyaltyInfo (delete tokenId)).

(** The calls that write the royalty slots. *)
Inductive call :=
| SetDefaultRoyalty (recipient : address) (royaltyFraction : uint256)
| SetTokenRoyalty (tokenId : uint256) (recipient : address)
    (royaltyFraction : uint256)
| Burn (tokenId : uint256).

Definition exec (e : env) (c : call) : M unit :=
  nonpayable e;;
  match c with
  | SetDefaultRoyalty r f => setDefaultRoyalty e r f
  | SetTokenRoyalty t r f => setTokenRoyalty e t r f
  | Burn t => _burn t
  end.

(** Storage states of a deployed collection.  Minting, transfers,
    pausing and changes of ownership are OpenZeppelin's: they are taken as
    any change of the holder map, of the pause flag and of the owner slot;
    who may burn is not tracked. *)
Inductive reachable : storage -> Prop :=
| reachable_init e w r f c' :
    constructor r f (enter w (fresh e)) = Ok (tt, c') ->
    reachable (store c')
| reachable_step s e c w c' :
    reachable s ->
    exec e c (enter w s) = Ok (tt, c') ->
    reachable (store c')
| reachable_inherited s holders o p :
    reachable s ->
    reachable (set_paused p (set_owner o (set_owners (fun _ => holders) s))).
End Ops.

End MockNFT.

(** ** What only the owner of the marketplace sets, and its counters *)

Module MarketAdmin.
Import Marketplace.

Definition settings (s : storage) :=
  (whitelistedContracts s, royaltyEngine s, marketplaceFeePercentage s,
   feeRecipient s, owner s, paused s).

Definition counters (s : storage) : uint256 * uint256 * uint256 :=
  (totalListings s, totalSales s, totalVolume s).

(** Everything of a listing but its price. *)
Definition l_terms (l : Listing) :=
  (l_seller l, l_nftContract l, l_tokenId l, l_createdAt l, l_expiresAt l,
   l_active l).

End MarketAdmin.

(** ** Life of an escrow *)

Module EscrowLife.
Import Escrow.

Definition settings (s : storage) :=
  (whitelistedContracts s, escrowFeePercentage s, disputeWindow s,
   feeRecipient s, disputeResolver s, owner s, paused s).

(** What an escrow is created with. *)
Definition terms (x : EscrowTransaction) :=
  (seller x, buyer x, nftContract x, tokenId x, price x, createdAt x,
   deadline x).


Definition settled (x : EscrowTransaction) : Prop :=
  status x = Completed \/ status x = Cancelled.

(** Ids handed out so far. *)
Definition issued (s : storage) (escrowId : uint256) : Prop :=
  0 < escrowId < nextEscrowId s.


(** What [createEscrow] asks of a new escrow. *)
Definition wellFormed (x : EscrowTransaction) : Prop :=
  buyer x <> 0 /\ buyer x <> seller x /\ 0 < price x /\
  createdAt x < deadline x.

Section Later.
Context {W : Type} `{Chain W}.

(** [later s s']: committed calls lead from [s] to [s']. *)
Inductive later (s : storage) : storage -> Prop :=
| later_now : later s s
| later_step s' e c w c' :
    later s s' ->
    exec e c (enter w s') = Ok (tt, c') ->
    later s (store c').
End Later.

End EscrowLife.

(** ** Royalty records of the example collection *)

Module MockInv.
Import MockNFT.

(** What the two setters let through: a default with a recipient, and no
    fraction above 10%. *)
Definition wellFormed (s : storage) : Prop :=
  recipient (_defaultRoyaltyInfo s) <> 0 /\
  royaltyFraction (_defaultRoyaltyInfo s) <= 1000 /\
  forall tokenId, royaltyFraction (sload (_tokenRoyaltyInfo s) tokenId) <= 1000.

End MockInv.

(** ** Offers of the marketplace *)

Module OfferInv.
Import Marketplace.


End OfferInv.

(** ** Further concrete runs *)

Module Cases.
Import Sim Scenario.

Definition rexec (e : env) (c : RoyaltyEngine.call)
    : M ledger RoyaltyEngine.storage unit :=
  RoyaltyEngine.exec (H := chain) e c.

(** Royalty engine: deploy, the owner sets the 5% default for Carol;
    Alice, holder of token 7, gives it 2.5% for herself and removes it
    again. *)
Definition r0 : ctx ledger RoyaltyEngine.storage :=
  enter genesis (RoyaltyEngine.constructor (tx deployer 0 0 royalties)).
Definition r1 := step (rexec (tx deployer 0 5 royalties)
                         (RoyaltyEngine.SetDefaultRoyalty carol 500)) r0.
Definition holder_tx : env := tx alice 0 6 royalties.
Definition r2 := step (rexec holder_tx
                         (RoyaltyEngine.SetTokenRoyalty nft 7 alice 250)) r1.
Definition r3 := step (rexec (tx alice 0 7 royalties)
                         (RoyaltyEngine.RemoveTokenRoyalty nft 7)) r2.

(** Or the owner gives the whole collection 3% for Bob. *)
Definition collection_tx : env := tx deployer 0 6 royalties.
Definition r1_collection :=
  step (rexec collection_tx (RoyaltyEngine.SetContractRoyalty nft bob 300)) r1.

(** Or the owner sets two collections at once: 3% for Carol on [nft], and
    no royalty on registry 51. *)
Definition r1_batch :=
  step (rexec collection_tx
          (RoyaltyEngine.BatchSetContractRoyalties
             [nft; 51] [carol; bob] [300; 0])) r1.

(** The example collection: deployed with 7.5% for Carol, token 7 minted
    to Alice, who sets 4% for herself on it. *)
Definition collection : ctx ledger MockNFT.storage :=
  step (MockNFT.constructor (W := ledger) carol 750)
    (enter genesis (MockNFT.fresh (tx deployer 0 0 nft))).
Definition minted : MockNFT.storage :=
  MockNFT.set_paused false
    (MockNFT.set_owner deployer
       (MockNFT.set_owners (fun _ => {[7 := alice]}) (store collection))).
Definition own_tx : env := tx alice 0 8 nft.
Definition minted_own :=
  step (MockNFT.exec (W := ledger) own_tx (MockNFT.SetTokenRoyalty 7 alice 400))
    (enter genesis minted).

(** The chain on which [nft] is that collection. *)
Definition with_collection (ms : MockNFT.storage) : ledger :=
  {| eth := eth genesis;
     holder := holder genesis;
     operators := operators genesis;
     approvals := approvals genesis;
     royaltyOracle := fun registry =>
       if registry =? nft
       then Some (fun tokenId salePrice =>
                    returned (MockNFT.royaltyInfo (W := ledger) tokenId
                                salePrice (enter genesis ms)))
       else None |}.

(** Marketplace: Alice reprices or cancels her listing. *)
Definition reprice_tx : env := tx alice 0 1200 market.
Definition m2_repriced :=
  step (mexec reprice_tx (Marketplace.UpdateListing listing1 (2 * ether))) m2.

(** The chain after Alice has handed token 7 to Carol with her listing
    still open. *)
Definition moved : ledger :=
  default (world m2) (sim_safeTransferFrom (world m2) nft alice alice carol 7).

(** Bob offers half an ether and, in the same block, a quarter. *)
Definition offer_paid := step (payable (H := chain) offer_tx) m2.
Definition twice1 :=
  step (Marketplace.createOffer (W := ledger) (H0 := keccak) offer_tx nft 7 day)
    offer_paid.
Definition offer_tx2 : env := tx bob (ether / 4) 1500 market.
Definition twice1_paid := step (payable (H := chain) offer_tx2) twice1.
Definition twice2 :=
  step (Marketplace.createOffer (W := ledger) (H0 := keccak) offer_tx2 nft 7 day)
    twice1_paid.


Definition create_tx : env := tx alice ether 1000 escrow.
Definition dispute_tx : env := tx bob 0 2000 escrow.

End Cases.

(** ** Receivers that call back *)

(** A receiving contract runs its own code in [onERC721Received], the
    token already in its hands and the call that hands it over not yet
    finished.  ReentrancyGuard keeps it out of the functions marked
    [nonReentrant] while one of them is running; every other function of
    the engine it can call. *)
Module Reentrancy.
Section Callbacks.
Context {W S C : Type}.

(** What a receiver does before it returns: it acts on the chain, and it
    calls the engine, as whom and with what value it likes, each call seen
    to commit or to revert ([try]/[catch], or a low-level call). *)
Inductive script :=
| Return                        (* returns the selector *)
| Refuse                        (* reverts, or returns anything else *)
| Act (f : W -> W) (next : script)
| Call (from : address) (val : uint256) (c : C) (next : bool -> script).

(** The code of the accounts: what account [to] runs when registry [nft]
    hands it [tokenId] from [from], given the chain and the storage of the
    engine at that moment. *)
Definition accounts : Type :=
  address (* to *) -> address (* nft *) -> address (* from *) -> uint256 ->
  W -> S -> script.

(** A script run against the engine: a nested call that reverts leaves
    nothing behind and the script goes on; the calls share the block and
    the engine of the call they are nested in. *)
Fixpoint follow (run : env -> C -> M W S unit) (e : env) (p : script)
    : M W S unit :=
  match p with
  | Return => ret tt
  | Refuse => revert (CallFailed "onERC721Received")
  | Act f next =>
      fun c => follow run e next (Ctx (f (world c)) (store c) (log c))
  | Call from val call next =>
      fun c =>
        match run {| sender := from; value := val;
                     timestamp := timestamp e; this := this e |} call c with
        | Ok (_, c') => follow run e (next true) c'
        | Revert _ => follow run e (next false) c
        end
  end.

Context (exec : Receivers W S -> env -> C -> M W S unit)
        (nonReentrant : C -> bool) (code : accounts).

(** Entry of an external call into the engine.  [locked] is [_status ==
    _ENTERED] of ReentrancyGuard: a [nonReentrant] function is rejected
    while the guard is held and holds it, for the receivers it calls,
    until it returns; any other function leaves the guard as it finds
    it. *)
Definition dispatch (inner : bool -> Receivers W S) (locked : bool)
    (e : env) (c : C) : M W S unit :=
  if nonReentrant c
  then if locked
       then revert (Require "ReentrancyGuard: reentrant call")
       else exec (inner true) e c
  else exec (inner locked) e c.

(** The receivers of the chain, [depth] calls below the limit of the call
    stack (a call beyond it fails).  The engine's own [onERC721Received]
    only returns the selector. *)
Fixpoint callbacks (depth : nat) (locked : bool) : Receivers W S :=
  fun e nft from to tokenId c =>
    if to =? this e then Ok (tt, c)
    else
      follow (match depth with
              | O => fun _ _ => revert (CallFailed "call depth")
              | Datatypes.S d => dispatch (callbacks d) locked
              end)
        e (code to nft from tokenId (world c) (store c)) c.

(** A transaction: a call into the engine with the guard free. *)
Definition transaction (depth : nat) : env -> C -> M W S unit :=
  dispatch (callbacks depth) false.

End Callbacks.
Arguments script : clear implicits.
Arguments accounts : clear implicits.
End Reentrancy.

(** ** The marketplace with receivers that call back *)

Module MarketplaceTx.
Import Marketplace.

(** A call, with the storage of the royalty engine at the time. *)
Definition call : Type := RoyaltyEngine.storage * Marketplace.call.

(** The functions declared [nonReentrant]. *)
Definition nonReentrant (c : call) : bool :=
  match c.2 with
  | ListItem _ _ _ _ | BuyItem _ | CreateOffer _ _ _ | AcceptOffer _ => true
  | _ => false
  end.

(** Inactive listings and offers are out of reach of a receiver called
    under the guard, and so are the counters; the fee stays capped. *)
Definition undisturbed (s s' : storage) : Prop :=
  (forall listingId,
      l_active (sload (listings s) listingId) = false ->
      sload (listings s') listingId = sload (listings s) listingId) /\
  (forall offerId,
      o_active (sload (offers s) offerId) = false ->
      sload (offers s') offerId = sload (offers s) offerId) /\
  MarketAdmin.counters s' = MarketAdmin.counters s /\
  (marketplaceFeePercentage s <= MAX_FEE_PERCENTAGE ->
   marketplaceFeePercentage s' <= MAX_FEE_PERCENTAGE).

Section Tx.
Context {W : Type} `{Chain W} `{Keccak}.

Definition accounts : Type := Reentrancy.accounts W storage call.

Definition run (R : Receivers W storage) (e : env) (c : call)
    : M W storage unit :=
  exec (receivers := R) e c.1 c.2.

Definition callbacks (code : accounts) (depth : nat) (locked : bool)
    : Receivers W storage :=
  Reentrancy.callbacks run nonReentrant code depth locked.

Definition transaction (code : accounts) (depth : nat) (e : env)
    (re : RoyaltyEngine.storage) (c : Marketplace.call) : M W storage unit :=
  Reentrancy.transaction run nonReentrant code depth e (re, c).

(** What a receiver called under the guard leaves behind: the storage
    undisturbed, the log longer. *)
Definition quietly (c c' : ctx W storage) : Prop :=
  undisturbed (store c) (store c') /\ exists nested, log c' = log c ++ nested.

(** Storage states of a marketplace deployed among [code]. *)
Inductive reachable (code : accounts) : storage -> Prop :=
| reachable_init e f r : reachable code (constructor e f r)
| reachable_step s depth e re c w c' :
    reachable code s ->
    transaction code depth e re c (enter w s) = Ok (tt, c') ->
    reachable code (store c').
End Tx.
Arguments accounts : clear implicits.

End MarketplaceTx.

(** ** The escrow engine with receivers that call back *)

Module EscrowTx.
Import Escrow.

(** The one function declared [nonReentrant]. *)
Definition nonReentrant (c : call) : bool :=
  match c with
  | CreateEscrow _ _ _ _ => true
  | _ => false
  end.

(** What no call, nested or not, does to the escrows on record: ids are
    only added, the terms of an escrow stay, a settled escrow stays as it
    is, the fee stays capped and the dispute window stays. *)
Definition kept (s s' : storage) : Prop :=
  nextEscrowId s <= nextEscrowId s' /\
  (forall escrowId,
      EscrowLife.issued s escrowId ->
      let x := sload (escrowTransactions s) escrowId in
      let x' := sload (escrowTransactions s') escrowId in
      EscrowLife.terms x' = EscrowLife.terms x /\
      (EscrowLife.settled x -> x' = x)) /\
  (escrowFeePercentage s <= MAX_FEE_PERCENTAGE ->
   escrowFeePercentage s' <= MAX_FEE_PERCENTAGE) /\
  disputeWindow s' = disputeWindow s.

Section Tx.
Context {W : Type} `{Chain W}.

Definition accounts : Type := Reentrancy.accounts W storage call.

Definition run (R : Receivers W storage) (e : env) (c : call)
    : M W storage unit :=
  exec (receivers := R) e c.

Definition callbacks (code : accounts) (depth : nat) (locked : bool)
    : Receivers W storage :=
  Reentrancy.callbacks run nonReentrant code depth locked.

Definition transaction (code : accounts) (depth : nat) (e : env) (c : call)
    : M W storage unit :=
  Reentrancy.transaction run nonReentrant code depth e c.

(** What a call, and a receiver, leave behind: the escrows on record
    kept, the log longer. *)
Definition keeping (c c' : ctx W storage) : Prop :=
  kept (store c) (store c') /\ exists nested, log c' = log c ++ nested.

(** Storage states of an escrow engine deployed among [code]. *)
Inductive reachable (code : accounts) : storage -> Prop :=
| reachable_init e f r : reachable code (constructor e f r)
| reachable_step s depth e c w c' :
    reachable code s ->
    transaction code depth e c (enter w s) = Ok (tt, c') ->
    reachable code (store c').

(** [later code s s']: transactions lead from [s] to [s']. *)
Inductive later (code : accounts) (s : storage) : storage -> Prop :=
| later_now : later code s s
| later_step s' depth e c w c' :
    later code s s' ->
    transaction code depth e c (enter w s') = Ok (tt, c') ->
    later code s (store c').
End Tx.
Arguments accounts : clear implicits.

End EscrowTx.

(** ** Concrete runs with a receiver that calls back *)

Module Reentering.
Import Sim Scenario Cases.

(** A contract account.  Handed a token by the marketplace, it tries to
    bid again on token 7 and then takes back the bid it has made;
    handed a token by the escrow engine, it tries to cancel escrow 1 and
    then puts the token into a new escrow for Carol. *)
Definition vault : address := 7.

Definition bid_tx : env := tx vault (ether / 2) 1500 market.
Definition bid : bytes32 := keccak [vault; nft; 7; 1500].

Definition market_code : MarketplaceTx.accounts ledger :=
  fun to registry from tokenId w s =>
    if to =? vault
    then Reentrancy.Call vault (ether / 4)
           (engine, Marketplace.CreateOffer nft 7 day)
           (fun _ =>
              Reentrancy.Call vault 0 (engine, Marketplace.CancelOffer bid)
                (fun _ => Reentrancy.Return))
    else Reentrancy.Return.

Definition escrow_code : EscrowTx.accounts ledger :=
  fun to registry from tokenId w s =>
    if to =? vault
    then Reentrancy.Call vault 0 (Escrow.CancelEscrow 1)
           (fun _ =>
              Reentrancy.Call vault ether
                (Escrow.CreateEscrow carol registry tokenId 90000)
                (fun _ => Reentrancy.Return))
    else Reentrancy.Return.

(** The receivers a call is run with: under the guard of the marketplace,
    and with the guard of the escrow engine free. *)
Definition market_receivers : Receivers ledger Marketplace.storage :=
  MarketplaceTx.callbacks (H := chain) (H0 := keccak) market_code 2 true.
Definition escrow_receivers : Receivers ledger Escrow.storage :=
  EscrowTx.callbacks (H := chain) escrow_code 2 false.

Definition mtx (e : env) (c : Marketplace.call)
    : M ledger Marketplace.storage unit :=
  MarketplaceTx.transaction (H := chain) (H0 := keccak) market_code 2 e
    engine c.

Definition etx (e : env) (c : Escrow.call) : M ledger Escrow.storage unit :=
  EscrowTx.transaction (H := chain) escrow_code 2 e c.

(** Marketplace: with Alice's listing open, the vault bids half an ether
    for token 7 and then buys the listing with 1.5 ether. *)
Definition v1 := step (mtx bid_tx (Marketplace.CreateOffer nft 7 day)) m2.
Definition vault_tx : env := tx vault (3 * ether / 2) 2000 market.
Definition v1_paid := step (payable (H := chain) vault_tx) v1.
Definition v2_body :=
  step (Marketplace.buyItem (H := chain) (receivers := market_receivers)
          vault_tx engine listing1) v1_paid.
Definition v2 := step (mtx vault_tx (Marketplace.BuyItem listing1)) v1.

(** The purchase when the vault's code has returned. *)
Definition v2_handed :=
  step (nftSafeTransferFrom (H := chain) (receivers := market_receivers)
          vault_tx nft alice vault 7)
    (enter (world v1_paid) (MarketInv.deactivate listing1 (store v1_paid))).

(** Or Alice accepts the vault's bid. *)
Definition v1_accepted :=
  step (Marketplace.acceptOffer (H := chain) (receivers := market_receivers)
          accept_tx engine bid) v1.

(** The chain on which the vault holds token 8 and has approved the
    escrow engine as operator. *)
Definition stocked : ledger :=
  {| eth := eth genesis;
     holder := upd2 (holder genesis) nft 8 vault;
     operators := fun c h o =>
       operators genesis c h o || ((c =? nft) && (h =? vault) && (o =? escrow));
     approvals := approvals genesis;
     royaltyOracle := royaltyOracle genesis |}.

(** Escrow: deploy, whitelist; the vault escrows token 8 for Bob with
    1 ether held, and cancels. *)
Definition s0 : ctx ledger Escrow.storage :=
  enter stocked (Escrow.constructor (tx deployer 0 0 escrow) treasury resolver).
Definition s1 := step (etx (tx deployer 0 10 escrow)
                         (Escrow.SetContractWhitelist nft true)) s0.
Definition deposit_tx : env := tx vault ether 1000 escrow.
Definition s2 := step (etx deposit_tx (Escrow.CreateEscrow bob nft 8 90000)) s1.
Definition back_tx : env := tx vault 0 2000 escrow.
Definition s2_cancelled :=
  step (Escrow.cancelEscrow (H := chain) (receivers := escrow_receivers)
          back_tx 1) s2.

(** The cancellation when the vault's code has returned. *)
Definition s2_handed :=
  step (nftSafeTransferFrom (H := chain) (receivers := escrow_receivers)
          back_tx nft escrow vault 8)
    (enter (world s2)
       (Escrow.set_escrowTransactions
          <[1 := Escrow.set_status Escrow.Cancelled
                   (Escrow.getEscrow (store s2) 1)]> (store s2))).

(** Or Bob disputes and the resolver sides with the vault. *)
Definition s3 := step (etx dispute_tx (Escrow.InitiateDispute 1)) s2.
Definition s3_refunded :=
  step (Escrow.resolveDispute (H := chain) (receivers := escrow_receivers)
          resolve_tx 1 false) s3.

(** Or Alice escrows token 7 for the vault, and both approve. *)
Definition t2 := step (etx create_tx (Escrow.CreateEscrow vault nft 7 90000)) s1.
Definition t3 := step (etx (tx vault 0 2000 escrow) (Escrow.ApproveEscrow 1)) t2.
Definition complete_tx : env := tx alice 0 3000 escrow.
Definition t4 :=
  step (Escrow.approveEscrow (H := chain) (receivers := escrow_receivers)
          complete_tx 1) t3.

(** Or the vault disputes and the resolver sides with it. *)
Definition t3_disputed :=
  step (etx (tx vault 0 2000 escrow) (Escrow.InitiateDispute 1)) t2.
Definition t4_resolved :=
  step (Escrow.resolveDispute (H := chain) (receivers := escrow_receivers)
          resolve_tx 1 true) t3_disputed.

End Reentering.

(** * Proofs *)

(** ** Storage reads *)

Section Sload.
Context `{Countable K} {V : Type} `{Zero V}.
Implicit Types (m : gmap K V) (k : K) (v : V).

Lemma sload_empty k : sload (∅ : gmap K V) k = zero.
Proof. unfold sload. by rewrite lookup_empty. Qed.

Lemma sload_insert_eq m k v : sload (<[k := v]> m) k = v.
Proof. unfold sload. by rewrite lookup_insert_eq. Qed.

Lemma sload_insert_ne m k k' v : k ≠ k' -> sload (<[k := v]> m) k' = sload m k'.
Proof. intros. unfold sload. by rewrite lookup_insert_ne. Qed.

Lemma sload_delete_eq m k : sload (delete k m) k = zero.
Proof. unfold sload. by rewrite lookup_delete_eq. Qed.

Lemma sload_delete_ne m k k' : k ≠ k' -> sload (delete k m) k' = sload m k'.
Proof. intros. unfold sload. by rewrite lookup_delete_ne. Qed.
End Sload.

(** ** Inversion of committed calls *)

Section Inversion.
Context {W : Type} `{Chain W} {S : Type}.
Implicit Types (c : ctx W S).

Lemma bind_ok {A B} (m : M W S A) (f : A -> M W S B) c b c' :
  (m ≫= f) c = Ok (b, c') ->
  exists a c1, m c = Ok (a, c1) /\ f a c1 = Ok (b, c').
Proof.
  unfold mbind, M_bind, bind. destruct (m c) as [[a c1]|]; [|discriminate].
  eauto.
Qed.

Lemma bind_intro {A B} (m : M W S A) (f : A -> M W S B) c a c1 :
  m c = Ok (a, c1) -> (m ≫= f) c = f a c1.
Proof. unfold mbind, M_bind, bind. by intros ->. Qed.

Lemma bind_revert {A B} (m : M W S A) (f : A -> M W S B) c e :
  m c = Revert e -> (m ≫= f) c = Revert e.
Proof. unfold mbind, M_bind, bind. by intros ->. Qed.

Lemma ret_ok {A} (a b : A) c c' : ret a c = Ok (b, c') -> b = a /\ c' = c.
Proof. unfold ret. by inversion 1. Qed.

Lemma require_ok b msg c u c' :
  require b msg c = Ok (u, c') -> b = true /\ c' = c.
Proof. destruct b; [|discriminate]. unfold require, ret. by inversion 1. Qed.

Lemma gets_ok {A} (f : S -> A) c a c' :
  gets f c = Ok (a, c') -> a = f (store c) /\ c' = c.
Proof. unfold gets. by inversion 1. Qed.

Lemma gets_world_ok {A} (f : W -> A) c a c' :
  gets_world f c = Ok (a, c') -> a = f (world c) /\ c' = c.
Proof. unfold gets_world. by inversion 1. Qed.

Lemma modify_ok f c u c' :
  modify f c = Ok (u, c') -> c' = Ctx (world c) (f (store c)) (log c).
Proof. unfold modify. by inversion 1. Qed.

Lemma emit_ok ev args c u c' :
  emit ev args c = Ok (u, c') ->
  c' = Ctx (world c) (store c) (log c ++ [Emit ev args]).
Proof. unfold emit, record. by inversion 1. Qed.

Lemma view_ok {A} callee (f : W -> option A) c a c' :
  view callee f c = Ok (a, c') -> f (world c) = Some a /\ c' = c.
Proof. unfold view. destruct (f (world c)); [|discriminate]. by inversion 1. Qed.

Lemma try_view_ok {A} (f : W -> option A) c a c' :
  try_view f c = Ok (a, c') -> a = f (world c) /\ c' = c.
Proof. unfold try_view. by inversion 1. Qed.

Lemma transfer_ok e to amount c u c' :
  transfer e to amount c = Ok (u, c') ->
  exists w, send (world c) (this e) to amount = Some w /\
            c' = Ctx w (store c) (log c ++ [SendEth to amount]).
Proof.
  unfold transfer. destruct (send _ _ _ _); [|discriminate].
  inversion 1. eauto.
Qed.

Lemma nftSafeTransferFrom_ok e nft from to id c u c' :
  nftSafeTransferFrom e nft from to id c = Ok (u, c') ->
  exists w, safeTransferFrom (world c) nft (this e) from to id = Some w /\
            c' = Ctx w (store c) (log c ++ [MoveNft nft from to id]).
Proof.
  unfold nftSafeTransferFrom. destruct (safeTransferFrom _ _ _ _ _ _);
    [|discriminate].
  inversion 1. eauto.
Qed.

Lemma payable_ok e c u c' :
  payable e c = Ok (u, c') ->
  exists w, send (world c) (sender e) (this e) (value e) = Some w /\
            c' = Ctx w (store c) (log c).
Proof.
  unfold payable. destruct (send _ _ _ _); [|discriminate].
  inversion 1. eauto.
Qed.

Lemma nonpayable_ok e c u c' :
  nonpayable e c = Ok (u, c') -> value e = 0 /\ c' = c.
Proof.
  unfold nonpayable. destruct (value e =? 0) eqn:E; [|discriminate].
  unfold ret. inversion 1. split; [by apply N.eqb_eq|done].
Qed.

Lemma checked_add_ok a b c r c' :
  checked_add a b c = Ok (r, c') ->
  r = a + b /\ a + b <= MAX_UINT256 /\ c' = c.
Proof.
  unfold checked_add. destruct (a + b <=? MAX_UINT256) eqn:E; [|discriminate].
  unfold ret. inversion 1. apply N.leb_le in E. done.
Qed.

Lemma checked_mul_ok a b c r c' :
  checked_mul a b c = Ok (r, c') ->
  r = a * b /\ a * b <= MAX_UINT256 /\ c' = c.
Proof.
  unfold checked_mul. destruct (a * b <=? MAX_UINT256) eqn:E; [|discriminate].
  unfold ret. inversion 1. apply N.leb_le in E. done.
Qed.

Lemma checked_sub_ok a b c r c' :
  checked_sub a b c = Ok (r, c') -> r = a - b /\ b <= a /\ c' = c.
Proof.
  unfold checked_sub. destruct (b <=? a) eqn:E; [|discriminate].
  unfold ret. inversion 1. apply N.leb_le in E. done.
Qed.

Lemma staticcall_ok {S' A} (s' : S') (m : M W S' A) c a c' :
  staticcall (S := S) s' m c = Ok (a, c') ->
  (exists ci, m (Ctx (world c) s' []) = Ok (a, ci)) /\ c' = c.
Proof.
  unfold staticcall. destruct (m _) as [[a' ci]|]; [|discriminate].
  inversion 1. subst. eauto.
Qed.
End Inversion.

(** [minv H] takes a committed computation [H : m c = Ok (a, c')] apart,
    one primitive at a time. *)
Ltac minv_prim H :=
  lazymatch type of H with
  | ret _ _ = Ok _ => apply ret_ok in H; destruct H as [? ?]
  | mret _ _ = Ok _ => apply ret_ok in H; destruct H as [? ?]
  | require _ _ _ = Ok _ =>
      let E := fresh "Hreq" in apply require_ok in H; destruct H as [E ?]
  | gets _ _ = Ok _ => apply gets_ok in H; destruct H as [? ?]
  | gets_world _ _ = Ok _ => apply gets_world_ok in H; destruct H as [? ?]
  | modify _ _ = Ok _ => apply modify_ok in H
  | emit _ _ _ = Ok _ => apply emit_ok in H
  | view _ _ _ = Ok _ =>
      let E := fresh "Hview" in apply view_ok in H; destruct H as [E ?]
  | try_view _ _ = Ok _ => apply try_view_ok in H; destruct H as [? ?]
  | transfer _ _ _ _ = Ok _ =>
      let E := fresh "Hsend" in
      apply transfer_ok in H; destruct H as (? & E & ?)
  | nftSafeTransferFrom _ _ _ _ _ _ = Ok _ =>
      let E := fresh "Hmove" in
      apply nftSafeTransferFrom_ok in H; destruct H as (? & E & ?)
  | payable _ _ = Ok _ =>
      let E := fresh "Hpaid" in
      apply payable_ok in H; destruct H as (? & E & ?)
  | nonpayable _ _ = Ok _ =>
      let E := fresh "Hnoval" in
      apply nonpayable_ok in H; destruct H as [E ?]
  | checked_add _ _ _ = Ok _ =>
      let E := fresh "Hfit" in
      apply checked_add_ok in H; destruct H as (? & E & ?)
  | checked_mul _ _ _ = Ok _ =>
      let E := fresh "Hfit" in
      apply checked_mul_ok in H; destruct H as (? & E & ?)
  | checked_sub _ _ _ = Ok _ =>
      let E := fresh "Hfit" in
      apply checked_sub_ok in H; destruct H as (? & E & ?)
  | staticcall _ _ _ = Ok _ =>
      let E := fresh "Hcall" in
      apply staticcall_ok in H; destruct H as [[? E] ?]
  end.

(** Equality of effect logs up to bracketing. *)
Ltac list_assoc := repeat (simpl; rewrite <- ?app_assoc).

(** Extension point: inversion lemmas of composite operations. *)
Ltac minv_user H := fail.

Ltac minv H :=
  lazymatch type of H with
  | mbind _ _ _ = Ok _ =>
      let H1 := fresh "Hm" in
      let H2 := fresh "Hk" in
      apply bind_ok in H; destruct H as (? & ? & H1 & H2);
      minv H1; subst; cbn [world store log] in H2; minv H2
  | (if ?b then _ else _) _ = Ok _ =>
      let E := fresh "Hif" in destruct b eqn:E; minv H
  | (match ?x with _ => _ end) _ = Ok _ =>
      let E := fresh "Hcase" in destruct x eqn:E; minv H
  | (let '(_, _) := ?x in _) _ = Ok _ =>
      let E := fresh "Hcase" in destruct x eqn:E; minv H
  | _ => first [ minv_prim H; subst | minv_user H; subst | idtac ]
  end.

Ltac minv_in H := minv H; simplify_eq/=.

(** ** Inversion of reverted calls *)

Section Reverts.
Context {W : Type} `{Chain W} {S : Type}.
Implicit Types (c : ctx W S).

Lemma bind_revert_inv {A B} (m : M W S A) (f : A -> M W S B) c e :
  (m ≫= f) c = Revert e ->
  m c = Revert e \/ exists a c1, m c = Ok (a, c1) /\ f a c1 = Revert e.
Proof.
  unfold mbind, M_bind, bind. destruct (m c) as [[a c1]|e'] eqn:Hm; intros Hr.
  - right. eauto.
  - left. congruence.
Qed.

Lemma ret_revert {A} (a : A) c e : ret a c = Revert e -> False.
Proof. discriminate. Qed.

Lemma gets_revert {A} (f : S -> A) c e : gets f c = Revert e -> False.
Proof. discriminate. Qed.

Lemma gets_world_revert {A} (f : W -> A) c e : gets_world f c = Revert e -> False.
Proof. discriminate. Qed.

Lemma modify_revert f c e : modify f c = Revert e -> False.
Proof. discriminate. Qed.

Lemma emit_revert ev args c e : emit ev args c = Revert e -> False.
Proof. discriminate. Qed.

Lemma try_view_revert {A} (f : W -> option A) c e :
  try_view f c = Revert e -> False.
Proof. discriminate. Qed.

Lemma require_revert b msg c e :
  require b msg c = Revert e -> b = false /\ e = Require msg.
Proof. destruct b; [discriminate|]. unfold require, revert. by inversion 1. Qed.

Lemma view_revert {A} callee (f : W -> option A) c e :
  view callee f c = Revert e -> e = CallFailed callee.
Proof. unfold view. destruct (f (world c)); [discriminate|]. by inversion 1. Qed.

Lemma transfer_revert en to amount c e :
  transfer en to amount c = Revert e -> e = CallFailed "transfer".
Proof.
  unfold transfer. destruct (send _ _ _ _); [discriminate|]. by inversion 1.
Qed.

Lemma nftSafeTransferFrom_revert en nft from to id c e :
  nftSafeTransferFrom en nft from to id c = Revert e ->
  e = CallFailed "safeTransferFrom".
Proof.
  unfold nftSafeTransferFrom. destruct (safeTransferFrom _ _ _ _ _ _);
    [discriminate|]. by inversion 1.
Qed.

Lemma checked_add_revert a b c e : checked_add a b c = Revert e -> e = Overflow.
Proof.
  unfold checked_add. destruct (_ <=? _); [discriminate|]. by inversion 1.
Qed.

Lemma checked_mul_revert a b c e : checked_mul a b c = Revert e -> e = Overflow.
Proof.
  unfold checked_mul. destruct (_ <=? _); [discriminate|]. by inversion 1.
Qed.

Lemma checked_sub_revert a b c e :
  checked_sub a b c = Revert e -> e = Underflow /\ a < b.
Proof.
  unfold checked_sub. destruct (b <=? a) eqn:E; [discriminate|].
  inversion 1. split; [done|]. by apply N.leb_gt.
Qed.

Lemma staticcall_revert {S' A} (s' : S') (m : M W S' A) c e :
  staticcall (S := S) s' m c = Revert e ->
  m (Ctx (world c) s' []) = Revert e.
Proof. unfold staticcall. destruct (m _) as [[a ci]|e']; by inversion 1. Qed.
End Reverts.

(** [rinv H] follows a revert [H : m c = Revert e] to the primitive that
    raised it; primitives that cannot raise [e] are closed. *)
Ltac rinv_prim H :=
  lazymatch type of H with
  | ret _ _ = Revert _ => destruct (ret_revert _ _ _ H)
  | mret _ _ = Revert _ => destruct (ret_revert _ _ _ H)
  | gets _ _ = Revert _ => destruct (gets_revert _ _ _ H)
  | gets_world _ _ = Revert _ => destruct (gets_world_revert _ _ _ H)
  | modify _ _ = Revert _ => destruct (modify_revert _ _ _ H)
  | emit _ _ _ = Revert _ => destruct (emit_revert _ _ _ _ H)
  | try_view _ _ = Revert _ => destruct (try_view_revert _ _ _ H)
  | require _ _ _ = Revert _ =>
      apply require_revert in H; destruct H as [? H]; try discriminate H
  | view _ _ _ = Revert _ => apply view_revert in H; try discriminate H
  | transfer _ _ _ _ = Revert _ =>
      apply transfer_revert in H; try discriminate H
  | nftSafeTransferFrom _ _ _ _ _ _ = Revert _ =>
      apply nftSafeTransferFrom_revert in H; try discriminate H
  | checked_add _ _ _ = Revert _ =>
      apply checked_add_revert in H; try discriminate H
  | checked_mul _ _ _ = Revert _ =>
      apply checked_mul_revert in H; try discriminate H
  | checked_sub _ _ _ = Revert _ =>
      let E := fresh "Hunder" in
      apply checked_sub_revert in H; destruct H as [H E]; try discriminate H
  | staticcall _ _ _ = Revert _ => apply staticcall_revert in H
  end.

Ltac rinv H :=
  lazymatch type of H with
  | mbind _ _ _ = Revert _ =>
      let H1 := fresh "Hm" in
      let H2 := fresh "Hk" in
      apply bind_revert_inv in H; destruct H as [H|(? & ? & H1 & H2)];
      [ rinv H
      | minv H1; subst; cbn [world store log] in H2; rinv H2 ]
  | (if ?b then _ else _) _ = Revert _ =>
      let E := fresh "Hif" in destruct b eqn:E; rinv H
  | (match ?x with _ => _ end) _ = Revert _ =>
      let E := fresh "Hcase" in destruct x eqn:E; rinv H
  | _ => first [ rinv_prim H | idtac ]
  end.

(** [mrun] runs the primitives at the head of a computation forward. *)
Ltac mrun :=
  unfold mbind, M_bind, bind, require, gets, gets_world, modify, emit,
    record, try_view, enter, mret, M_ret, ret, revert;
  cbn [world store log].

(** Linear arithmetic around a fee [x / 10000], taken as an atom. *)
Ltac fee_lia Hle :=
  let fee := fresh "fee" in
  match type of Hle with
  | context [?x / 10000] => set (fee := x / 10000) in *
  end;
  clearbody fee; clear -Hle; lia.

(** ** Effect logs *)

Lemma payments_app l1 l2 : payments (l1 ++ l2) = payments l1 ++ payments l2.
Proof. induction l1 as [|[] l1 IH]; simpl; congruence. Qed.

Lemma nftMoves_app l1 l2 : nftMoves (l1 ++ l2) = nftMoves l1 ++ nftMoves l2.
Proof. induction l1 as [|[] l1 IH]; simpl; congruence. Qed.

(** Nothing of a settlement stays behind, unless a positive royalty has no
    recipient to go to. *)
Lemma settlement_total seller feeRecipient royaltyRecipient
    sellerAmount fee royalty :
  royalty = 0 \/ royaltyRecipient <> 0 ->
  Expected.total
    (payments (Expected.settlement seller feeRecipient royaltyRecipient
                 sellerAmount fee royalty))
  = sellerAmount + fee + royalty.
Proof.
  intros Hr. unfold Expected.settlement, Expected.total.
  destruct (0 <? fee) eqn:Ef; destruct (0 <? royalty) eqn:Ey;
    destruct (royaltyRecipient =? 0) eqn:Ez; simpl;
    rewrite ?N.ltb_lt, ?N.ltb_ge, ?N.eqb_eq, ?N.eqb_neq in *;
    try lia; destruct Hr; lia.
Qed.

(** ** Royalty engine *)

Section RoyaltyProofs.
Import RoyaltyEngine RoyaltySpec.
Context {W : Type} `{Chain W}.
Implicit Types (s : storage) (w : W) (c : ctx W storage).

Lemma isSet_present r : isSet r = true <-> present r.
Proof.
  unfold isSet, present. rewrite orb_true_iff, negb_true_iff.
  rewrite N.eqb_neq, N.ltb_lt. lia.
Qed.

Lemma isSet_absent r : isSet r = false <-> ~ present r.
Proof. rewrite <- isSet_present. by destruct (isSet r). Qed.

Lemma tenth_le a p : (a <=? p / 10) = true <-> 10 * a <= p.
Proof.
  rewrite N.leb_le. split; intros Hle.
  - pose proof (N.Div0.mul_div_le p 10). lia.
  - apply N.div_le_lower_bound; lia.
Qed.

Lemma recordAmount_eq salePrice r c :
  recordAmount salePrice r c =
  if salePrice * percentage r <=? MAX_UINT256
  then Ok ((recipient r, salePrice * percentage r / 10000), c)
  else Revert Overflow.
Proof.
  unfold recordAmount, checked_mul. mrun.
  by destruct (salePrice * percentage r <=? MAX_UINT256).
Qed.

Lemma manualRoyalty_eq nft tokenId salePrice c :
  let l := cascade (store c) nft tokenId in
  manualRoyalty nft tokenId salePrice c =
  if salePrice * percentage (layerRecord (store c) nft tokenId l)
     <=? MAX_UINT256
  then Ok (answer (store c) nft tokenId salePrice l, c)
  else Revert Overflow.
Proof.
  unfold manualRoyalty, cascade. mrun.
  destruct (isSet (sload (tokenRoyalties (store c)) (nft, tokenId))) eqn:Et.
  { apply isSet_present in Et. rewrite decide_True by done.
    apply recordAmount_eq. }
  apply isSet_absent in Et. rewrite decide_False by done.
  destruct (isSet (sload (contractRoyalties (store c)) nft)) eqn:Ec.
  { apply isSet_present in Ec. rewrite decide_True by done.
    apply recordAmount_eq. }
  apply isSet_absent in Ec. rewrite decide_False by done.
  destruct (isSet (defaultRoyalty (store c))) eqn:Ed.
  { apply isSet_present in Ed. rewrite decide_True by done.
    apply recordAmount_eq. }
  apply isSet_absent in Ed. rewrite decide_False by done.
  cbn. rewrite N.mul_0_r. reflexivity.
Qed.

Lemma resolve_manual w s nft tokenId salePrice :
  externalAnswer w nft tokenId salePrice = None ->
  resolve w s nft tokenId salePrice = cascade s nft tokenId.
Proof. unfold resolve. by intros ->. Qed.

Lemma getRoyalty_eq nft tokenId salePrice c :
  let l := resolve (world c) (store c) nft tokenId salePrice in
  getRoyalty nft tokenId salePrice c =
  if salePrice * percentage (layerRecord (store c) nft tokenId l)
     <=? MAX_UINT256
  then Ok (answer (store c) nft tokenId salePrice l, c)
  else Revert Overflow.
Proof.
  cbn zeta. unfold getRoyalty. mrun.
  destruct (externalAnswer (world c) nft tokenId salePrice) as [[r a]|] eqn:Ex.
  - unfold resolve. rewrite Ex. cbn. rewrite N.mul_0_r. cbn.
    unfold externalAnswer in Ex.
    destruct (supportsRoyaltyInterface (world c) nft); [|discriminate].
    destruct (royaltyInfo (world c) nft tokenId salePrice)
      as [[r' a']|]; [|discriminate].
    destruct (decide _) as [[Hr Ha]|]; [|discriminate].
    inversion Ex; subst.
    apply N.eqb_neq in Hr. apply tenth_le in Ha. rewrite Hr, Ha.
    reflexivity.
  - rewrite (resolve_manual _ _ _ _ _ Ex).
    rewrite <- manualRoyalty_eq.
    unfold externalAnswer in Ex.
    destruct (supportsRoyaltyInterface (world c) nft); [|reflexivity].
    destruct (royaltyInfo (world c) nft tokenId salePrice)
      as [[r' a']|]; [|reflexivity].
    destruct (decide _) as [|Hn]; [discriminate|].
    destruct (negb (r' =? 0) && (a' <=? salePrice / 10)) eqn:E;
      [|reflexivity].
    exfalso. apply Hn. apply andb_true_iff in E as [E1 E2].
    apply negb_true_iff, N.eqb_neq in E1. apply tenth_le in E2. done.
Qed.
(** *** What every setter enforces is an invariant of the engine *)

Lemma checkRoyalty_ok r p c u c' :
  checkRoyalty r p c = Ok (u, c') ->
  c' = c /\
  withinCap {| recipient := r; percentage := p |} /\
  hasRecipient {| recipient := r; percentage := p |}.
Proof.
  unfold checkRoyalty, withinCap, hasRecipient. intros Hc. minv_in Hc.
  - apply N.leb_le in Hreq. apply negb_true_iff, N.eqb_neq in Hreq0. done.
  - apply N.leb_le in Hreq. apply N.ltb_ge in Hif.
    repeat split; [done|]. intros Hp. exfalso. clear -Hif Hp. lia.
Qed.

Section EveryRecord.
Variable P : RoyaltyInfo -> Prop.
Hypothesis P_zero : P zero.

Lemma everyRecord_set_default s r :
  everyRecord P s -> P r -> everyRecord P (set_defaultRoyalty r s).
Proof. intros (Hd & Hc & Ht) Hr. by repeat split. Qed.

Lemma everyRecord_set_contract s nft r :
  everyRecord P s -> P r ->
  everyRecord P (set_contractRoyalties <[nft := r]> s).
Proof.
  intros (Hd & Hc & Ht) Hr. split; [done|]. split; [|done].
  intros n. cbn. destruct (decide (nft = n)) as [->|];
    [by rewrite sload_insert_eq | by rewrite sload_insert_ne].
Qed.

Lemma everyRecord_set_token s nft tokenId r :
  everyRecord P s -> P r ->
  everyRecord P (set_tokenRoyalties <[(nft, tokenId) := r]> s).
Proof.
  intros (Hd & Hc & Ht) Hr. split; [done|]. split; [done|].
  intros n t. cbn. destruct (decide ((nft, tokenId) = (n, t))) as [->|];
    [by rewrite sload_insert_eq | by rewrite sload_insert_ne].
Qed.

Lemma everyRecord_delete_contract s nft :
  everyRecord P s -> everyRecord P (set_contractRoyalties (delete nft) s).
Proof.
  intros (Hd & Hc & Ht). split; [done|]. split; [|done].
  intros n. cbn. destruct (decide (nft = n)) as [->|];
    [by rewrite sload_delete_eq | by rewrite sload_delete_ne].
Qed.

Lemma everyRecord_delete_token s nft tokenId :
  everyRecord P s -> everyRecord P (set_tokenRoyalties (delete (nft, tokenId)) s).
Proof.
  intros (Hd & Hc & Ht). split; [done|]. split; [done|].
  intros n t. cbn. destruct (decide ((nft, tokenId) = (n, t))) as [->|];
    [by rewrite sload_delete_eq | by rewrite sload_delete_ne].
Qed.

Lemma everyRecord_owner s o :
  everyRecord P s -> everyRecord P (set_owner o s).
Proof. intros (Hd & Hc & Ht). by repeat split. Qed.

(** [P] is what [checkRoyalty] lets through. *)
Hypothesis P_checked : forall r p (c : ctx W storage) u c',
  checkRoyalty r p c = Ok (u, c') -> P {| recipient := r; percentage := p |}.

Lemma batchLoop_everyRecord ns : forall rs ps c u c',
  batchLoop ns rs ps c = Ok (u, c') ->
  everyRecord P (store c) -> everyRecord P (store c').
Proof.
  induction ns as [|n ns IH]; intros rs ps c u c' Hrun Hinv.
  - cbn in Hrun. minv Hrun. done.
  - destruct rs as [|r rs], ps as [|p ps]; cbn [batchLoop] in Hrun;
      try (minv Hrun; done).
    apply bind_ok in Hrun as (? & c1 & Hchk & Hrun).
    pose proof (P_checked _ _ _ _ _ Hchk) as Hr.
    apply checkRoyalty_ok in Hchk as (-> & _).
    apply bind_ok in Hrun as (? & c2 & Hmod & Hrun). minv Hmod.
    apply bind_ok in Hrun as (? & c3 & Hemit & Hrun). minv Hemit.
    apply IH in Hrun; [done|]. cbn. by apply everyRecord_set_contract.
Qed.

Lemma exec_everyRecord e call c c' :
  exec e call c = Ok (tt, c') ->
  everyRecord P (store c) -> everyRecord P (store c').
Proof.
  intros Hrun Hinv. unfold exec in Hrun.
  apply bind_ok in Hrun as (? & c1 & Hval & Hrun). minv Hval.
  destruct call.
  - unfold setDefaultRoyalty, onlyOwner in Hrun.
    apply bind_ok in Hrun as (? & c1 & Hown & Hrun). minv Hown.
    apply bind_ok in Hrun as (? & c1 & Hchk & Hrun).
    pose proof (P_checked _ _ _ _ _ Hchk) as Hr.
    apply checkRoyalty_ok in Hchk as (-> & _). minv Hrun.
    by apply everyRecord_set_default.
  - unfold setContractRoyalty in Hrun.
    apply bind_ok in Hrun as (a & c1 & Hauth & Hrun).
    assert (c1 = c) as ->.
    { unfold contractAuthorized, _isContractOwner in Hauth. by minv Hauth. }
    apply bind_ok in Hrun as (? & c1 & Hreq & Hrun). minv Hreq.
    apply bind_ok in Hrun as (? & c1 & Hchk & Hrun).
    pose proof (P_checked _ _ _ _ _ Hchk) as Hr.
    apply checkRoyalty_ok in Hchk as (-> & _). minv Hrun.
    by apply everyRecord_set_contract.
  - unfold setTokenRoyalty in Hrun.
    apply bind_ok in Hrun as (a & c1 & Hauth & Hrun).
    assert (c1 = c) as ->.
    { unfold tokenAuthorized, _isTokenOwner, _isContractOwner in Hauth.
      by minv Hauth. }
    apply bind_ok in Hrun as (? & c1 & Hreq & Hrun). minv Hreq.
    apply bind_ok in Hrun as (? & c1 & Hchk & Hrun).
    pose proof (P_checked _ _ _ _ _ Hchk) as Hr.
    apply checkRoyalty_ok in Hchk as (-> & _). minv Hrun.
    by apply everyRecord_set_token.
  - unfold batchSetContractRoyalties, onlyOwner in Hrun.
    apply bind_ok in Hrun as (? & c1 & Hown & Hrun). minv Hown.
    apply bind_ok in Hrun as (? & c1 & Hlen & Hrun). minv Hlen.
    by apply batchLoop_everyRecord in Hrun.
  - unfold removeContractRoyalty in Hrun.
    apply bind_ok in Hrun as (a & c1 & Hauth & Hrun).
    assert (c1 = c) as ->.
    { unfold contractAuthorized, _isContractOwner in Hauth. by minv Hauth. }
    minv Hrun. by apply everyRecord_delete_contract.
  - unfold removeTokenRoyalty in Hrun.
    apply bind_ok in Hrun as (a & c1 & Hauth & Hrun).
    assert (c1 = c) as ->.
    { unfold tokenAuthorized, _isTokenOwner, _isContractOwner in Hauth.
      by minv Hauth. }
    minv Hrun. by apply everyRecord_delete_token.
  - unfold transferOwnership, onlyOwner in Hrun. minv Hrun.
    by apply everyRecord_owner.
  - unfold renounceOwnership, onlyOwner in Hrun. minv Hrun.
    by apply everyRecord_owner.
Qed.

Lemma reachable_everyRecord s : reachable (W := W) s -> everyRecord P s.
Proof.
  induction 1 as [e|s e call w c' _ IH Hrun].
  - repeat split; cbn; intros; by rewrite ?sload_empty.
  - by apply exec_everyRecord in Hrun.
Qed.
End EveryRecord.

(** Every royalty setter enforces the cap: it holds in every state the
    engine can reach. *)
Lemma reachable_capped s : reachable (W := W) s -> capped s.
Proof.
  apply reachable_everyRecord.
  - unfold withinCap, MAX_ROYALTY_PERCENTAGE. cbn. lia.
  - intros r p c u c' Hchk. by apply checkRoyalty_ok in Hchk as (_ & ? & _).
Qed.

(** Every setter asks for a recipient with a non-zero fraction. *)
Lemma reachable_addressed s : reachable (W := W) s -> addressed s.
Proof.
  apply reachable_everyRecord.
  - unfold hasRecipient. cbn. done.
  - intros r p c u c' Hchk. by apply checkRoyalty_ok in Hchk as (_ & _ & ?).
Qed.

(** With every record addressed, a positive royalty has a recipient. *)
Lemma getRoyalty_addressed w s nft tokenId salePrice r a c' :
  addressed s ->
  getRoyalty nft tokenId salePrice (enter w s) = Ok ((r, a), c') ->
  a = 0 \/ r <> 0.
Proof.
  intros (Hd & Hc & Ht) Hget. rewrite getRoyalty_eq in Hget.
  cbn [world store enter] in Hget.
  destruct (_ <=? _); [|discriminate]. inversion Hget; subst; clear Hget.
  unfold answer in H1.
  assert (forall rec : RoyaltyInfo,
             hasRecipient rec ->
             salePrice * percentage rec / 10000 = 0 \/ recipient rec <> 0)
    as Hrec.
  { intros rec Hh. destruct (decide (percentage rec = 0)) as [->|Hp].
    - left. by rewrite N.mul_0_r.
    - right. by apply Hh. }
  destruct (resolve w s nft tokenId salePrice) eqn:El; inversion H1; subst;
    try (by apply Hrec); try (by left).
  right. unfold resolve in El.
  destruct (externalAnswer w nft tokenId salePrice) as [[r' a']|] eqn:Ex.
  - inversion El; subst. unfold externalAnswer in Ex.
    destruct (supportsRoyaltyInterface w nft); [|discriminate].
    destruct (royaltyInfo w nft tokenId salePrice) as [[r2 a2]|];
      [|discriminate].
    destruct (decide _) as [[Hr _]|]; [|discriminate].
    by inversion Ex; subst.
  - unfold cascade in El. repeat case_decide; discriminate.
Qed.

Lemma capped_layer s nft tokenId l :
  capped s -> percentage (layerRecord s nft tokenId l) <= 1000.
Proof.
  intros (Hd & Hc & Ht). unfold withinCap, MAX_ROYALTY_PERCENTAGE in *.
  destruct l; cbn; try done; lia.
Qed.

Lemma bps_tenth p bps : bps <= 1000 -> p * bps / 10000 <= p / 10.
Proof.
  intros Hb. apply N.div_le_lower_bound; [lia|].
  pose proof (N.Div0.mul_div_le (p * bps) 10000). nia.
Qed.

Lemma getRoyalty_bounded w s nft tokenId salePrice r a c' :
  capped s ->
  getRoyalty nft tokenId salePrice (enter w s) = Ok ((r, a), c') ->
  a <= salePrice / 10.
Proof.
  intros Hcap Hget. rewrite getRoyalty_eq in Hget. cbn [world store enter] in Hget.
  destruct (_ <=? _); [|discriminate]. inversion Hget; subst; clear Hget.
  pose proof (capped_layer s nft tokenId
                (resolve w s nft tokenId salePrice) Hcap) as Hl.
  unfold answer in H1.
  destruct (resolve w s nft tokenId salePrice) eqn:El; inversion H1; subst;
    try (by apply bps_tenth).
  2: apply N.le_0_l.
  unfold resolve in El.
  destruct (externalAnswer w nft tokenId salePrice) as [[r' a']|] eqn:Ex.
  - inversion El; subst. unfold externalAnswer in Ex.
    destruct (supportsRoyaltyInterface w nft); [|discriminate].
    destruct (royaltyInfo w nft tokenId salePrice) as [[r2 a2]|];
      [|discriminate].
    destruct (decide _) as [[_ Ha]|]; [|discriminate].
    inversion Ex; subst. apply N.leb_le. by apply tenth_le.
  - unfold cascade in El. repeat case_decide; discriminate.
Qed.

Lemma getRoyalty_returns w s nft tokenId salePrice :
  capped s -> salePrice * 1000 <= MAX_UINT256 ->
  getRoyalty nft tokenId salePrice (enter w s) =
  Ok (answer s nft tokenId salePrice (resolve w s nft tokenId salePrice),
      enter w s).
Proof.
  intros Hcap Hfit. rewrite getRoyalty_eq. cbn [world store enter].
  pose proof (capped_layer s nft tokenId
                (resolve w s nft tokenId salePrice) Hcap) as Hl.
  destruct (_ <=? _) eqn:E; [done|]. apply N.leb_gt in E. nia.
Qed.
End RoyaltyProofs.

Section RoyaltyClaims.
Import RoyaltyEngine RoyaltySpec.
Context {W : Type} `{Chain W}.

(** C4. [getRoyalty] answers from the first layer, in the order external
    EIP-2981 answer (accepted only with a non-empty recipient and an
    amount of at most 10% of the sale price), token-level record,
    contract-level record, global default, none; a percentage-based layer
    answers [salePrice * bps / 10000].  The call is a function of chain
    and storage, leaves both untouched, and its only failure is the
    checked multiplication of the selected layer overflowing. *)
Theorem getRoyalty_resolution_order (w : W) (s : storage)
    (nftContract : address) (tokenId salePrice : uint256) :
  getRoyalty nftContract tokenId salePrice (enter w s) =
  let l := resolve w s nftContract tokenId salePrice in
  if salePrice * percentage (layerRecord s nftContract tokenId l)
     <=? MAX_UINT256
  then Ok (answer s nftContract tokenId salePrice l, enter w s)
  else Revert Overflow.
Proof. apply (getRoyalty_eq nftContract tokenId salePrice (enter w s)). Qed.

(** C9. When every stored record is capped at 1000 basis points,
    whatever [getRoyalty] returns is at most [salePrice / 10], on every
    path including the external one; and it does return whenever
    [salePrice * 1000] fits a uint256. *)
Theorem getRoyalty_at_most_tenth (w : W) (s : storage)
    (nftContract : address) (tokenId salePrice : uint256) :
  capped s ->
  (forall r a c',
      getRoyalty nftContract tokenId salePrice (enter w s) = Ok ((r, a), c') ->
      a <= salePrice / 10) /\
  (salePrice * 1000 <= MAX_UINT256 ->
   exists r a,
     getRoyalty nftContract tokenId salePrice (enter w s)
     = Ok ((r, a), enter w s) /\ a <= salePrice / 10).
Proof.
  intros Hcap. split.
  - intros r a c'. by apply getRoyalty_bounded.
  - intros Hfit.
    pose proof (getRoyalty_returns w s nftContract tokenId salePrice
                  Hcap Hfit) as Hret.
    destruct (answer s nftContract tokenId salePrice
                (resolve w s nftContract tokenId salePrice)) as [r a] eqn:Ea.
    exists r, a. split; [done|]. by eapply getRoyalty_bounded.
Qed.
End RoyaltyClaims.

(** A 5% global default on an otherwise empty engine: capped, and the
    royalty on a sale of 1000 is 50, within the tenth. *)
Lemma getRoyalty_at_most_tenth_witness :
  let s := RoyaltyEngine.set_defaultRoyalty
             {| RoyaltyEngine.recipient := Sim.treasury;
                RoyaltyEngine.percentage := 500 |}
             (RoyaltyEngine.constructor
                (Sim.tx Sim.deployer 0 0 Sim.royalties)) in
  RoyaltySpec.capped s /\
  exists r a,
    RoyaltyEngine.getRoyalty (H := Sim.chain) Sim.nft 7 1000 (enter Sim.genesis s)
    = Ok ((r, a), enter Sim.genesis s) /\ a <= 1000 / 10.
Proof.
  intros s.
  assert (RoyaltySpec.capped s) as Hcap.
  { repeat split; unfold RoyaltySpec.withinCap; cbn; intros;
      rewrite ?sload_empty; cbn;
      unfold RoyaltyEngine.MAX_ROYALTY_PERCENTAGE; lia. }
  split; [exact Hcap|].
  apply (getRoyalty_at_most_tenth (H := Sim.chain) Sim.genesis s Sim.nft 7 1000
           Hcap).
  vm_compute. discriminate.
Defined.

(** ** Marketplace *)

Section MarketplaceProofs.
Import Marketplace Expected.
Context {W : Type} `{Chain W} `{Keccak}.
Implicit Types (s : storage) (w : W) (c : ctx W storage) (e : env).

Lemma split_ok price royaltyAmount c r c' :
  split price royaltyAmount c = Ok (r, c') ->
  c' = c /\
  price * marketplaceFeePercentage (store c) <= MAX_UINT256 /\
  (let fee := price * marketplaceFeePercentage (store c) / 10000 in
   fee + royaltyAmount <= price /\
   r = (fee, price - fee - royaltyAmount)).
Proof.
  unfold split. intros Hrun. minv_in Hrun.
  repeat split; try done. lia.
Qed.

Lemma payout_ok e seller sellerAmount fee rr royalty c u c' :
  payout e seller sellerAmount fee rr royalty c = Ok (u, c') ->
  store c' = store c /\
  log c' = log c ++ settlement seller (feeRecipient (store c)) rr
                      sellerAmount fee royalty.
Proof.
  unfold payout, settlement. intros Hrun. minv_in Hrun.
  all: rewrite ?Hif, ?Hif0; simpl; rewrite <- ?app_assoc; done.
Qed.

Ltac minv_market H :=
  lazymatch type of H with
  | split _ _ _ = Ok _ =>
      let Hfit := fresh "Hprod" in
      let Hle := fresh "Hsplit" in
      apply split_ok in H; destruct H as (? & Hfit & Hle & ?)
  | payout _ _ _ _ _ _ _ = Ok _ =>
      let Hs := fresh "Hstore" in
      let Hl := fresh "Hlog" in
      apply payout_ok in H; destruct H as (Hs & Hl)
  end.
Ltac minv_user H ::= minv_market H.



(** What a committed [cancelOffer] checked and did. *)
Lemma cancelOffer_inv e offerId c c' :
  cancelOffer e offerId c = Ok (tt, c') ->
  let o := sload (offers (store c)) offerId in
  o_active o = true /\
  timestamp e < o_expiresAt o /\
  (sender e = o_buyer o \/ sender e = owner (store c)) /\
  send (world c) (this e) (o_buyer o) (o_amount o) = Some (world c') /\
  log c' = log c ++ [SendEth (o_buyer o) (o_amount o);
                     Emit "OfferCancelled" [offerId]] /\
  store c' = set_offers <[offerId := o_set_active false o]> (store c).
Proof.
  unfold cancelOffer, validOffer. intros Hrun. minv_in Hrun.
  apply N.ltb_lt in Hreq0. apply orb_true_iff in Hreq1.
  rewrite !N.eqb_eq in Hreq1. repeat split; try done.
  - destruct Hreq1; [by left | by right].
  - by list_assoc.
Qed.

(** [cancelOffer] commits exactly when the offer is live, the caller is its
    buyer or the owner, and the refund goes through. *)
Lemma cancelOffer_commits e offerId c w' :
  let o := sload (offers (store c)) offerId in
  o_active o = true ->
  timestamp e < o_expiresAt o ->
  sender e = o_buyer o \/ sender e = owner (store c) ->
  send (world c) (this e) (o_buyer o) (o_amount o) = Some w' ->
  cancelOffer e offerId c =
  Ok (tt, Ctx w' (set_offers <[offerId := o_set_active false o]> (store c))
            ((log c ++ [SendEth (o_buyer o) (o_amount o)])
             ++ [Emit "OfferCancelled" [offerId]])).
Proof.
  intros o. subst o. intros Hact Hlive Hauth Hsend.
  unfold cancelOffer, validOffer. mrun.
  rewrite Hact. apply N.ltb_lt in Hlive. rewrite Hlive.
  match goal with |- context [?a || ?b] => assert (a || b = true) as -> end.
  { apply orb_true_iff. rewrite !N.eqb_eq. destruct Hauth; [by left|by right]. }
  unfold transfer. cbn [world store log]. by rewrite Hsend.
Qed.

Lemma cancelOffer_unauthorized e offerId c :
  let o := sload (offers (store c)) offerId in
  sender e <> o_buyer o -> sender e <> owner (store c) ->
  exists err, cancelOffer e offerId c = Revert err.
Proof.
  intros o Hb Ho.
  destruct (cancelOffer e offerId c) as [[[] c']|err] eqn:Hrun; [|eauto].
  apply cancelOffer_inv in Hrun as (_ & _ & [?|?] & _); done.
Qed.

(** *** The listing index *)

Import MarketInv.












Section Indexed.
Hypothesis keccak_nonzero : forall l, keccak256 l <> 0.








End Indexed.

(** *** The split arithmetic *)

Lemma fee_tenth price bps :
  bps <= MAX_FEE_PERCENTAGE -> price * bps / 10000 <= price / 10.
Proof. apply bps_tenth. Qed.

Lemma two_tenths price a b :
  a <= price / 10 -> b <= price / 10 -> a + b <= price.
Proof.
  intros Ha Hb. pose proof (N.Div0.mul_div_le price 10). lia.
Qed.

Lemma split_not_underflow price royaltyAmount c :
  marketplaceFeePercentage (store c) <= MAX_FEE_PERCENTAGE ->
  royaltyAmount <= price / 10 ->
  split price royaltyAmount c <> Revert Underflow.
Proof.
  intros Hfee Hroy Hrun. unfold split in Hrun. rinv Hrun; simpl in *.
  - pose proof (fee_tenth price _ Hfee).
    pose proof (N.Div0.mul_div_le price 10). lia.
  - pose proof (two_tenths price _ _ (fee_tenth price _ Hfee) Hroy). lia.
Qed.

Lemma split_returns price royaltyAmount c :
  marketplaceFeePercentage (store c) <= MAX_FEE_PERCENTAGE ->
  royaltyAmount <= price / 10 ->
  price * marketplaceFeePercentage (store c) <= MAX_UINT256 ->
  let fee := price * marketplaceFeePercentage (store c) / 10000 in
  split price royaltyAmount c = Ok ((fee, price - fee - royaltyAmount), c) /\
  (price - fee - royaltyAmount) + fee + royaltyAmount = price.
Proof.
  intros Hfee Hroy Hfit fee.
  pose proof (two_tenths price _ _ (fee_tenth price _ Hfee) Hroy) as Hsum.
  fold fee in Hsum. split; [|lia].
  unfold split, checked_mul, checked_sub. mrun.
  apply N.leb_le in Hfit. rewrite Hfit. fold fee.
  assert ((fee <=? price) = true) as -> by (apply N.leb_le; lia).
  assert ((royaltyAmount <=? price - fee) = true) as ->
    by (apply N.leb_le; lia).
  done.
Qed.

Lemma getRoyalty_not_underflow nft tokenId price
    (ci : ctx W RoyaltyEngine.storage) :
  RoyaltyEngine.getRoyalty nft tokenId price ci <> Revert Underflow.
Proof. rewrite getRoyalty_eq. cbn zeta. by destruct (_ <=? _). Qed.

Lemma buyItem_not_underflow e re listingId c :
  marketplaceFeePercentage (store c) <= MAX_FEE_PERCENTAGE ->
  (forall nft tokenId p r a ci,
      RoyaltyEngine.getRoyalty nft tokenId p (Ctx (world c) re [])
      = Ok ((r, a), ci) -> a <= p / 10) ->
  buyItem e re listingId c <> Revert Underflow.
Proof.
  intros Hfee Hroy Hrun.
  unfold buyItem, whenNotPaused, validListing, payout in Hrun.
  rinv Hrun; simpl in *.
  all: match goal with
       | Hr : RoyaltyEngine.getRoyalty _ _ _ _ = Revert Underflow |- _ =>
           by apply getRoyalty_not_underflow in Hr
       | Hr : split _ _ _ = Revert Underflow |- _ =>
           apply split_not_underflow in Hr; [done|done|by eapply Hroy]
       end.
Qed.

Lemma acceptOffer_not_underflow e re offerId c :
  marketplaceFeePercentage (store c) <= MAX_FEE_PERCENTAGE ->
  (forall nft tokenId p r a ci,
      RoyaltyEngine.getRoyalty nft tokenId p (Ctx (world c) re [])
      = Ok ((r, a), ci) -> a <= p / 10) ->
  acceptOffer e re offerId c <> Revert Underflow.
Proof.
  intros Hfee Hroy Hrun.
  unfold acceptOffer, whenNotPaused, validOffer, engineApproved, payout,
    cancelExisting, _cancelListing in Hrun.
  rinv Hrun; simpl in *.
  all: match goal with
       | Hr : RoyaltyEngine.getRoyalty _ _ _ _ = Revert Underflow |- _ =>
           by apply getRoyalty_not_underflow in Hr
       | Hr : split _ _ _ = Revert Underflow |- _ =>
           apply split_not_underflow in Hr; [done|done|by eapply Hroy]
       end.
Qed.
End MarketplaceProofs.

(** ** Escrow *)

Section EscrowProofs.
Import Escrow EscrowInv Expected.
Context {W : Type} `{Chain W}.
Implicit Types (s : storage) (w : W) (c : ctx W storage) (e : env).

Lemma status_eqb_eq a b : status_eqb a b = true <-> a = b.
Proof. destruct a, b; simpl; split; congruence. Qed.

Lemma completeEscrow_ok e escrowId c u c' :
  _completeEscrow e escrowId c = Ok (u, c') ->
  let x := sload (escrowTransactions (store c)) escrowId in
  let fee := price x * escrowFeePercentage (store c) / 10000 in
  price x * escrowFeePercentage (store c) <= MAX_UINT256 /\
  fee <= price x /\
  store c' = set_escrowTransactions
               <[escrowId := set_status Completed x]> (store c) /\
  log c' = log c ++ completion (this e) (feeRecipient (store c)) x
                      (price x - fee) fee escrowId.
Proof.
  unfold _completeEscrow, completion, settlement. intros Hrun.
  minv_in Hrun.
  all: rewrite ?sload_insert_eq in *; simpl in *.
  all: repeat split; try done.
  all: rewrite ?Hif; by list_assoc.
Qed.

Lemma unwind_ok e escrowId x c u c' :
  unwind e escrowId x c = Ok (u, c') ->
  (exists w1,
      safeTransferFrom (world c) (nftContract x) (this e) (this e) (seller x)
        (tokenId x) = Some w1 /\
      send w1 (this e) (buyer x) (price x) = Some (world c')) /\
  store c' = set_escrowTransactions
               <[escrowId := set_status Cancelled x]> (store c) /\
  log c' = log c ++ cancellation (this e) x.
Proof.
  unfold unwind, cancellation. intros Hrun. minv_in Hrun.
  rewrite ?sload_insert_eq in *; simpl in *.
  repeat split; [eauto| by list_assoc].
Qed.

Ltac minv_escrow H :=
  lazymatch type of H with
  | _completeEscrow _ _ _ = Ok _ =>
      let Hs := fresh "Hstore" in
      let Hl := fresh "Hlog" in
      apply completeEscrow_ok in H; destruct H as (? & ? & Hs & Hl)
  | unwind _ _ _ _ = Ok _ =>
      let Hs := fresh "Hstore" in
      let Hl := fresh "Hlog" in
      let Hw := fresh "Hworld" in
      apply unwind_ok in H; destruct H as (Hw & Hs & Hl)
  end.
Ltac minv_user H ::= minv_escrow H.



Lemma initiateDispute_inv e escrowId c c' :
  initiateDispute e escrowId c = Ok (tt, c') ->
  let x := sload (escrowTransactions (store c)) escrowId in
  status x = Active /\
  (sender e = seller x \/ sender e = buyer x) /\
  timestamp e <= deadline x + disputeWindow (store c) /\
  store c' = set_escrowTransactions
               <[escrowId := set_status Disputed x]> (store c).
Proof.
  unfold initiateDispute, validEscrow. intros Hrun. minv_in Hrun.
  apply status_eqb_eq in Hreq0. apply N.leb_le in Hreq2.
  rewrite orb_true_iff, !N.eqb_eq in Hreq1. done.
Qed.



(** *** Both approvals imply completion *)





End EscrowProofs.


Section EscrowSteps.
Import Escrow EscrowInv Expected.
Context {W : Type} `{Chain W}.
Implicit Types (s : storage) (w : W) (c : ctx W storage) (e : env).



End EscrowSteps.

(** ** Pausing *)

Section PauseProofs.
Context {W : Type} `{Chain W} `{Keccak}.

Lemma market_whenNotPaused_paused {A} (k : M W Marketplace.storage A) c :
  Marketplace.paused (store c) = true ->
  (Marketplace.whenNotPaused;; k) c = Revert (Require "Pausable: paused").
Proof. intros Hp. unfold Marketplace.whenNotPaused. mrun. by rewrite Hp. Qed.

Lemma escrow_whenNotPaused_paused {A} (k : M W Escrow.storage A) c :
  Escrow.paused (store c) = true ->
  (Escrow.whenNotPaused;; k) c = Revert (Require "Pausable: paused").
Proof. intros Hp. unfold Escrow.whenNotPaused. mrun. by rewrite Hp. Qed.

Lemma market_emergencyWithdraw_inv e c c' :
  Marketplace.emergencyWithdraw e c = Ok (tt, c') ->
  Marketplace.paused (store c) = true /\
  sender e = Marketplace.owner (store c) /\
  store c' = store c /\
  log c' = log c ++ [SendEth (Marketplace.owner (store c))
                       (balance (world c) (this e))].
Proof.
  unfold Marketplace.emergencyWithdraw, Marketplace.onlyOwner,
    Marketplace.whenPaused.
  intros Hrun. minv_in Hrun. by apply N.eqb_eq in Hreq.
Qed.

Lemma escrow_emergencyWithdraw_inv e c c' :
  Escrow.emergencyWithdraw e c = Ok (tt, c') ->
  Escrow.paused (store c) = true /\
  sender e = Escrow.owner (store c) /\
  store c' = store c /\
  log c' = log c ++ [SendEth (Escrow.owner (store c))
                       (balance (world c) (this e))].
Proof.
  unfold Escrow.emergencyWithdraw, Escrow.onlyOwner, Escrow.whenPaused.
  intros Hrun. minv_in Hrun. by apply N.eqb_eq in Hreq.
Qed.

Lemma market_emergencyWithdraw_commits e c w' :
  Marketplace.paused (store c) = true ->
  sender e = Marketplace.owner (store c) ->
  send (world c) (this e) (Marketplace.owner (store c))
    (balance (world c) (this e)) = Some w' ->
  Marketplace.emergencyWithdraw e c =
  Ok (tt, Ctx w' (store c)
            (log c ++ [SendEth (Marketplace.owner (store c))
                         (balance (world c) (this e))])).
Proof.
  intros Hp Ho Hsend.
  unfold Marketplace.emergencyWithdraw, Marketplace.onlyOwner,
    Marketplace.whenPaused. mrun.
  rewrite Ho, N.eqb_refl, Hp. unfold transfer. cbn [world store log].
  by rewrite Hsend.
Qed.
End PauseProofs.

(** * The properties the specification states *)

Section MarketplaceClaims.
Import Marketplace MarketInv Expected.
Context {W : Type} `{Chain W} `{Keccak}.


(** C7. On an active offer, every caller other than the offer's buyer and
    the engine owner is rejected with no state change; a committed
    [cancelOffer] came from one of the two, sent exactly the held amount
    to the buyer and nothing else, and left the offer inactive; and
    [cancelOffer] does commit for either of them while the offer is
    unexpired and the refund goes through. *)
Theorem cancelOffer_buyer_or_owner (e : env) (offerId : bytes32)
    (c : ctx W storage) :
  let o := getOffer (store c) offerId in
  o_active o = true ->
  (sender e <> o_buyer o -> sender e <> owner (store c) ->
   exists err, cancelOffer e offerId c = Revert err) /\
  (forall c', cancelOffer e offerId c = Ok (tt, c') ->
     (sender e = o_buyer o \/ sender e = owner (store c)) /\
     payments (log c') = payments (log c) ++ [(o_buyer o, o_amount o)] /\
     o_active (getOffer (store c') offerId) = false) /\
  (forall w',
     timestamp e < o_expiresAt o ->
     sender e = o_buyer o \/ sender e = owner (store c) ->
     send (world c) (this e) (o_buyer o) (o_amount o) = Some w' ->
     exists c', cancelOffer e offerId c = Ok (tt, c') /\ world c' = w').
Proof.
  unfold getOffer. cbn zeta. intros Hact. split; [|split].
  - intros Hb Ho. by apply cancelOffer_unauthorized.
  - intros c' Hrun.
    apply cancelOffer_inv in Hrun as (_ & _ & Hauth & _ & Hlog & Hs).
    split; [done|]. split.
    + rewrite Hlog. clear. induction (log c) as [|[] l IH]; simpl; congruence.
    + rewrite Hs. simpl. by rewrite sload_insert_eq.
  - intros w' Hlive Hauth Hsend. eexists. split.
    + by apply cancelOffer_commits.
    + done.
Qed.

(** C10. With the marketplace fee at most 1000 basis points and the
    royalty engine answering at most a tenth of the price, neither sale
    path ever reverts on the checked subtractions of
    [sellerAmount = price - marketplaceFee - royaltyAmount]; and the split
    itself returns, with the three parts adding up to the price, whenever
    the fee product [price * marketplaceFeePercentage] fits a uint256. *)
Theorem seller_amount_never_underflows (e : env) (re : RoyaltyEngine.storage)
    (c : ctx W storage) :
  marketplaceFeePercentage (store c) <= MAX_FEE_PERCENTAGE ->
  (forall nft tokenId p r a ci,
      RoyaltyEngine.getRoyalty nft tokenId p (Ctx (world c) re [])
      = Ok ((r, a), ci) -> a <= p / 10) ->
  (forall listingId, buyItem e re listingId c <> Revert Underflow) /\
  (forall offerId, acceptOffer e re offerId c <> Revert Underflow) /\
  (forall price royaltyAmount,
      royaltyAmount <= price / 10 ->
      split price royaltyAmount c <> Revert Underflow /\
      (price * marketplaceFeePercentage (store c) <= MAX_UINT256 ->
       exists marketplaceFee sellerAmount,
         split price royaltyAmount c = Ok ((marketplaceFee, sellerAmount), c) /\
         marketplaceFee = price * marketplaceFeePercentage (store c) / 10000 /\
         sellerAmount + marketplaceFee + royaltyAmount = price)).
Proof.
  intros Hfee Hroy. split; [|split].
  - intros listingId. by apply buyItem_not_underflow.
  - intros offerId. by apply acceptOffer_not_underflow.
  - intros price royaltyAmount Hr. split.
    + by apply split_not_underflow.
    + intros Hfit.
      destruct (split_returns price royaltyAmount c Hfee Hr Hfit) as [Hs Hsum].
      eauto.
Qed.
End MarketplaceClaims.

Section EscrowClaims.
Import Escrow EscrowInv.
Context {W : Type} `{Chain W}.


End EscrowClaims.

Section PauseClaims.
Context {W : Type} `{Chain W} `{Keccak}.

(** C3, as amended.  While the marketplace is paused, [listItem],
    [buyItem], [createOffer] and [acceptOffer] revert with
    "Pausable: paused"; while the escrow engine is paused, [createEscrow]
    does; a reverted call leaves no state behind.  [emergencyWithdraw]
    commits only while paused and only for the owner, sweeping the whole
    balance to the owner, and it does commit then when the transfer goes
    through.  The view operations do not read the pause flag. *)
Theorem pause_gates_entry_points (e : env) (re : RoyaltyEngine.storage)
    (cm : ctx W Marketplace.storage) (ce : ctx W Escrow.storage) :
  (Marketplace.paused (store cm) = true ->
   (forall n t p d, Marketplace.listItem e n t p d cm
                    = Revert (Require "Pausable: paused")) /\
   (forall l, Marketplace.buyItem e re l cm
              = Revert (Require "Pausable: paused")) /\
   (forall n t d, Marketplace.createOffer e n t d cm
                  = Revert (Require "Pausable: paused")) /\
   (forall o, Marketplace.acceptOffer e re o cm
              = Revert (Require "Pausable: paused"))) /\
  (Escrow.paused (store ce) = true ->
   forall b n t d, Escrow.createEscrow e b n t d ce
                   = Revert (Require "Pausable: paused")) /\
  (forall c', Marketplace.emergencyWithdraw e cm = Ok (tt, c') ->
     Marketplace.paused (store cm) = true /\
     sender e = Marketplace.owner (store cm) /\
     store c' = store cm /\
     log c' = log cm ++ [SendEth (Marketplace.owner (store cm))
                           (balance (world cm) (this e))]) /\
  (forall c', Escrow.emergencyWithdraw e ce = Ok (tt, c') ->
     Escrow.paused (store ce) = true /\
     sender e = Escrow.owner (store ce) /\
     store c' = store ce /\
     log c' = log ce ++ [SendEth (Escrow.owner (store ce))
                           (balance (world ce) (this e))]) /\
  (forall w',
     Marketplace.paused (store cm) = true ->
     sender e = Marketplace.owner (store cm) ->
     send (world cm) (this e) (Marketplace.owner (store cm))
       (balance (world cm) (this e)) = Some w' ->
     exists c', Marketplace.emergencyWithdraw e cm = Ok (tt, c')) /\
  (forall b s id user,
     Marketplace.getListing (Marketplace.set_paused b s) id
     = Marketplace.getListing s id /\
     Marketplace.getOffer (Marketplace.set_paused b s) id
     = Marketplace.getOffer s id /\
     Marketplace.getUserListings (Marketplace.set_paused b s) user
     = Marketplace.getUserListings s user /\
     Marketplace.getUserOffers (Marketplace.set_paused b s) user
     = Marketplace.getUserOffers s user) /\
  (forall b s id user,
     Escrow.getEscrow (Escrow.set_paused b s) id = Escrow.getEscrow s id /\
     Escrow.getUserEscrows (Escrow.set_paused b s) user
     = Escrow.getUserEscrows s user).
Proof.
  repeat apply conj.
  - intros Hp. repeat apply conj; intros;
      by apply market_whenNotPaused_paused.
  - intros Hp b n t d. by apply escrow_whenNotPaused_paused.
  - intros c'. apply market_emergencyWithdraw_inv.
  - intros c'. apply escrow_emergencyWithdraw_inv.
  - intros w' Hp Ho Hsend. eexists.
    by apply market_emergencyWithdraw_commits.
  - done.
  - done.
Qed.
End PauseClaims.

(** * Concrete runs *)

Section Runs.
Import Sim Scenario Midway.
Local Existing Instance Sim.chain.
Local Existing Instance Sim.keccak.


Lemma engine_capped : RoyaltySpec.capped engine.
Proof.
  repeat split; unfold RoyaltySpec.withinCap; cbn; intros;
    rewrite ?sload_empty; cbn;
    unfold RoyaltyEngine.MAX_ROYALTY_PERCENTAGE; lia.
Qed.

Lemma market_step_reach c e call :
  Marketplace.reachable (store c) ->
  mexec e call (enter (world c) (store c)) = Ok (tt, step (mexec e call) c) ->
  Marketplace.reachable (store (step (mexec e call) c)).
Proof. intros Hr Hc. eapply Marketplace.reachable_step; eauto. Qed.

Lemma escrow_step_reach c e call :
  Escrow.reachable (store c) ->
  eexec e call (enter (world c) (store c)) = Ok (tt, step (eexec e call) c) ->
  Escrow.reachable (store (step (eexec e call) c)).
Proof. intros Hr Hc. eapply Escrow.reachable_step; eauto. Qed.

Lemma reach_m2 : Marketplace.reachable (store m2).
Proof.
  unfold m2, m1.
  do 2 (apply market_step_reach; [|vm_compute; reflexivity]).
  apply Marketplace.reachable_init.
Qed.


Lemma reach_o2 : Marketplace.reachable (store o2).
Proof.
  unfold o2, o1.
  do 2 (apply market_step_reach; [|vm_compute; reflexivity]).
  apply reach_m2.
Qed.




(** The scenarios of the specification, run. *)

Example escrow_both_approve :
  payments (log e2_both) = [(alice, 975 * ether / 1000); (treasury, 25 * ether / 1000)]
  /\ holder (world e2_both) nft 7 = bob
  /\ Escrow.status (Escrow.getEscrow (store e2_both) 1) = Escrow.Completed.
Proof. vm_compute. done. Qed.

Example buy_with_overpayment :
  payments (log m3)
  = [(alice, 925 * ether / 1000); (treasury, 25 * ether / 1000);
     (carol, 50 * ether / 1000); (bob, ether / 2)]
  /\ holder (world m3) nft 7 = bob
  /\ Marketplace.totalSales (store m3) = 1
  /\ Marketplace.totalVolume (store m3) = ether.
Proof. vm_compute. done. Qed.

Example offer_cancelled :
  payments (log o1_cancelled) = [(bob, ether / 2)]
  /\ Marketplace.o_active (Marketplace.getOffer (store o1_cancelled) offer1)
     = false
  /\ eth (world o1_cancelled) bob = 10 * ether.
Proof. vm_compute. done. Qed.

Example dispute_resolved_for_seller :
  payments (log e4_refunded) = [(bob, ether)]
  /\ holder (world e4_refunded) nft 7 = alice
  /\ Escrow.status (Escrow.getEscrow (store e4_refunded) 1) = Escrow.Cancelled.
Proof. vm_compute. done. Qed.

Example paused_listing_rejected :
  mexec relist_tx (Marketplace.ListItem nft 7 ether week)
    (enter (world o2) (store o2)) = Revert (Require "Pausable: paused").
Proof. vm_compute. done. Qed.

Example stranger_cannot_approve :
  eexec (tx carol 0 2000 escrow) (Escrow.ApproveEscrow 1)
    (enter (world e2) (store e2)) = Revert (Require "Not authorized").
Proof. vm_compute. done. Qed.

Example unknown_escrow_rejected :
  eexec (tx alice 0 2000 escrow) (Escrow.ApproveEscrow 999)
    (enter (world e2) (store e2)) = Revert (Require "Invalid escrow ID").
Proof. vm_compute. done. Qed.



(** While the marketplace of the scenario is paused, listing reverts. *)
Lemma pause_gates_entry_points_witness :
  Marketplace.paused (store o2) = true /\
  Marketplace.listItem relist_tx nft 7 ether week
    (enter (world o2) (store o2)) = Revert (Require "Pausable: paused").
Proof.
  assert (Marketplace.paused (store o2) = true) as Hp by reflexivity.
  split; [exact Hp|].
  destruct (pause_gates_entry_points relist_tx engine
              (enter (world o2) (store o2)) (enter (world e2) (store e2)))
    as (Hgate & _).
  destruct (Hgate Hp) as (Hlist & _). apply Hlist.
Defined.

(** C3 as stated fails: with the marketplace paused, Bob's [cancelOffer]
    commits, deactivates the offer and pays him back. *)
Lemma cancelOffer_commits_while_paused :
  Marketplace.reachable (store o2) /\
  Marketplace.paused (store o2) = true /\
  Marketplace.o_active (Marketplace.getOffer (store o2) offer1) = true /\
  Marketplace.cancelOffer cancel_tx offer1 (enter (world o2) (store o2))
  = Ok (tt, o3) /\
  Marketplace.o_active (Marketplace.getOffer (store o3) offer1) = false /\
  payments (log o3) = [(bob, ether / 2)].
Proof.
  split; [apply reach_o2|].
  do 4 (split; [vm_compute; reflexivity|]). vm_compute; reflexivity.
Qed.


(** Bob cancels his own live offer and is paid back exactly the half
    ether held; Carol cannot cancel it. *)
Lemma cancelOffer_buyer_or_owner_witness :
  Marketplace.o_active (Marketplace.getOffer (store o1) offer1) = true /\
  (exists c',
      Marketplace.cancelOffer cancel_tx offer1 (enter (world o1) (store o1))
      = Ok (tt, c') /\
      payments (log c') = [(bob, ether / 2)] /\
      Marketplace.o_active (Marketplace.getOffer (store c') offer1) = false) /\
  exists err,
    Marketplace.cancelOffer (tx carol 0 1700 market) offer1
      (enter (world o1) (store o1)) = Revert err.
Proof.
  assert (Marketplace.o_active (Marketplace.getOffer (store o1) offer1) = true)
    as Hact by reflexivity.
  split; [exact Hact|].
  destruct (cancelOffer_buyer_or_owner cancel_tx offer1
              (enter (world o1) (store o1)) Hact) as (_ & Hok & Hcommit).
  split.
  - destruct (Hcommit (world o1_cancelled)) as (c' & Hrun & _).
    + vm_compute. reflexivity.
    + left. reflexivity.
    + vm_compute. reflexivity.
    + exists c'. split; [exact Hrun|].
      destruct (Hok c' Hrun) as (_ & Hpay & Hoff).
      split; [exact Hpay|exact Hoff].
  - destruct (cancelOffer_buyer_or_owner (tx carol 0 1700 market) offer1
                (enter (world o1) (store o1)) Hact) as (Hrej & _).
    apply Hrej; vm_compute; discriminate.
Defined.

(** At the 2.5% fee and with the capped engine of the scenario neither the
    purchase nor the split of 1 ether with a 5% royalty underflows. *)
Lemma seller_amount_never_underflows_witness :
  Marketplace.buyItem buyer_tx engine listing1
    (enter (world m2_paid) (store m2_paid)) <> Revert Underflow /\
  exists marketplaceFee sellerAmount,
    Marketplace.split ether (ether / 20) (enter (world m2_paid) (store m2_paid))
    = Ok ((marketplaceFee, sellerAmount),
          enter (world m2_paid) (store m2_paid)) /\
    sellerAmount + marketplaceFee + ether / 20 = ether.
Proof.
  assert (Marketplace.marketplaceFeePercentage
            (store (enter (world m2_paid) (store m2_paid)))
          <= Marketplace.MAX_FEE_PERCENTAGE) as Hfee
    by (vm_compute; discriminate).
  assert (forall nft tokenId p r a ci,
             RoyaltyEngine.getRoyalty nft tokenId p
               (Ctx (world (enter (world m2_paid) (store m2_paid))) engine [])
             = Ok ((r, a), ci) -> a <= p / 10) as Hroy.
  { intros n t p r a ci Hget.
    exact (getRoyalty_bounded _ engine n t p r a ci engine_capped Hget). }
  destruct (seller_amount_never_underflows buyer_tx engine
              (enter (world m2_paid) (store m2_paid)) Hfee Hroy)
    as (Hbuy & _ & Hsplit).
  split; [apply Hbuy|].
  destruct (Hsplit ether (ether / 20)) as (_ & Hret).
  - vm_compute. discriminate.
  - destruct Hret as (fee & sa & Hs & _ & Hsum).
    + vm_compute. discriminate.
    + exists fee, sa. split; [exact Hs|exact Hsum].
Defined.
End Runs.

(** * Further properties of the code *)

(** ** Royalty engine: records, views and authority *)

Section RoyaltyRecords.
Import RoyaltyEngine RoyaltySpec.
Context {W : Type} `{Chain W}.
Implicit Types (s : storage) (w : W) (c : ctx W storage) (e : env).

Lemma contractAuthorized_ok e nft c a c' :
  contractAuthorized e nft c = Ok (a, c') ->
  c' = c /\
  (a = true ->
   sender e = owner (store c) \/
   contractOwner (world c) nft = Some (sender e)).
Proof.
  unfold contractAuthorized, _isContractOwner. intros Hrun. minv_in Hrun.
  all: split; [done|]; intros Ha.
  - left. by apply N.eqb_eq.
  - right. apply N.eqb_eq in Ha. by subst.
  - done.
Qed.

Lemma tokenAuthorized_ok e nft tokenId c a c' :
  tokenAuthorized e nft tokenId c = Ok (a, c') ->
  c' = c /\
  (a = true ->
   sender e = owner (store c) \/
   ownerOf (world c) nft tokenId = Some (sender e) \/
   contractOwner (world c) nft = Some (sender e)).
Proof.
  unfold tokenAuthorized, _isTokenOwner, _isContractOwner. intros Hrun.
  minv_in Hrun.
  all: split; [done|]; intros Ha.
  all: repeat match goal with
         | E : (_ =? _) = true |- _ => apply N.eqb_eq in E; subst
         end.
  all: try (by left); try (by right; left); try (by right; right).
  all: try done.
Qed.

Lemma setDefaultRoyalty_inv e r p c c' :
  setDefaultRoyalty e r p c = Ok (tt, c') ->
  sender e = owner (store c) /\
  withinCap {| recipient := r; percentage := p |} /\
  hasRecipient {| recipient := r; percentage := p |} /\
  world c' = world c /\
  store c' = set_defaultRoyalty {| recipient := r; percentage := p |} (store c).
Proof.
  unfold setDefaultRoyalty, onlyOwner. intros Hrun.
  apply bind_ok in Hrun as (? & c1 & Hown & Hrun). minv Hown.
  apply bind_ok in Hrun as (? & c1 & Hchk & Hrun).
  apply checkRoyalty_ok in Hchk as (-> & Hcap & Hrec). minv_in Hrun.
  by apply N.eqb_eq in Hreq.
Qed.

Lemma setContractRoyalty_inv e nft r p c c' :
  setContractRoyalty e nft r p c = Ok (tt, c') ->
  (sender e = owner (store c) \/
   contractOwner (world c) nft = Some (sender e)) /\
  withinCap {| recipient := r; percentage := p |} /\
  hasRecipient {| recipient := r; percentage := p |} /\
  world c' = world c /\
  store c' = set_contractRoyalties
               <[nft := {| recipient := r; percentage := p |}]> (store c).
Proof.
  unfold setContractRoyalty. intros Hrun.
  apply bind_ok in Hrun as (a & c1 & Hauth & Hrun).
  apply contractAuthorized_ok in Hauth as (-> & Hauth).
  apply bind_ok in Hrun as (? & c1 & Hreq & Hrun). minv Hreq.
  apply bind_ok in Hrun as (? & c1 & Hchk & Hrun).
  apply checkRoyalty_ok in Hchk as (-> & Hcap & Hrec). minv_in Hrun.
  auto.
Qed.

Lemma setTokenRoyalty_inv e nft tokenId r p c c' :
  setTokenRoyalty e nft tokenId r p c = Ok (tt, c') ->
  (sender e = owner (store c) \/
   ownerOf (world c) nft tokenId = Some (sender e) \/
   contractOwner (world c) nft = Some (sender e)) /\
  withinCap {| recipient := r; percentage := p |} /\
  hasRecipient {| recipient := r; percentage := p |} /\
  world c' = world c /\
  store c' = set_tokenRoyalties
               <[(nft, tokenId) := {| recipient := r; percentage := p |}]>
               (store c).
Proof.
  unfold setTokenRoyalty. intros Hrun.
  apply bind_ok in Hrun as (a & c1 & Hauth & Hrun).
  apply tokenAuthorized_ok in Hauth as (-> & Hauth).
  apply bind_ok in Hrun as (? & c1 & Hreq & Hrun). minv Hreq.
  apply bind_ok in Hrun as (? & c1 & Hchk & Hrun).
  apply checkRoyalty_ok in Hchk as (-> & Hcap & Hrec). minv_in Hrun.
  auto.
Qed.

Lemma removeContractRoyalty_inv e nft c c' :
  removeContractRoyalty e nft c = Ok (tt, c') ->
  (sender e = owner (store c) \/
   contractOwner (world c) nft = Some (sender e)) /\
  world c' = world c /\
  store c' = set_contractRoyalties (delete nft) (store c).
Proof.
  unfold removeContractRoyalty. intros Hrun.
  apply bind_ok in Hrun as (a & c1 & Hauth & Hrun).
  apply contractAuthorized_ok in Hauth as (-> & Hauth).
  minv_in Hrun. auto.
Qed.

Lemma removeTokenRoyalty_inv e nft tokenId c c' :
  removeTokenRoyalty e nft tokenId c = Ok (tt, c') ->
  (sender e = owner (store c) \/
   ownerOf (world c) nft tokenId = Some (sender e) \/
   contractOwner (world c) nft = Some (sender e)) /\
  world c' = world c /\
  store c' = set_tokenRoyalties (delete (nft, tokenId)) (store c).
Proof.
  unfold removeTokenRoyalty. intros Hrun.
  apply bind_ok in Hrun as (a & c1 & Hauth & Hrun).
  apply tokenAuthorized_ok in Hauth as (-> & Hauth).
  minv_in Hrun. auto.
Qed.

(** A quote depends on the three records it may read, and on nothing
    else of the storage. *)
Lemma getRoyalty_same_records w s s' nft tokenId salePrice :
  sload (tokenRoyalties s') (nft, tokenId)
  = sload (tokenRoyalties s) (nft, tokenId) ->
  sload (contractRoyalties s') nft = sload (contractRoyalties s) nft ->
  defaultRoyalty s' = defaultRoyalty s ->
  returned (getRoyalty nft tokenId salePrice (enter w s'))
  = returned (getRoyalty nft tokenId salePrice (enter w s)).
Proof.
  intros Ht Hc Hd. rewrite !getRoyalty_eq. cbn [world store enter].
  unfold resolve, cascade.
  destruct (externalAnswer w nft tokenId salePrice) as [[r a]|].
  { cbn [layerRecord answer]. by destruct (_ <=? _). }
  rewrite Ht, Hc, Hd.
  repeat case_decide; cbn [layerRecord answer]; rewrite ?Ht, ?Hc, ?Hd;
    by destruct (_ <=? _).
Qed.

Lemma getRoyalty_token w s nft tokenId salePrice :
  let t := sload (tokenRoyalties s) (nft, tokenId) in
  externalAnswer w nft tokenId salePrice = None ->
  present t ->
  salePrice * percentage t <= MAX_UINT256 ->
  getRoyalty nft tokenId salePrice (enter w s)
  = Ok ((recipient t, salePrice * percentage t / 10000), enter w s).
Proof.
  intros t Hx Hp Hfit. rewrite getRoyalty_eq. cbn [world store enter].
  rewrite (resolve_manual _ _ _ _ _ Hx). unfold cascade.
  rewrite decide_True by done. cbn [layerRecord answer]. fold t.
  apply N.leb_le in Hfit. by rewrite Hfit.
Qed.

Lemma getRoyalty_contract w s nft tokenId salePrice :
  let k := sload (contractRoyalties s) nft in
  externalAnswer w nft tokenId salePrice = None ->
  ~ present (sload (tokenRoyalties s) (nft, tokenId)) ->
  present k ->
  salePrice * percentage k <= MAX_UINT256 ->
  getRoyalty nft tokenId salePrice (enter w s)
  = Ok ((recipient k, salePrice * percentage k / 10000), enter w s).
Proof.
  intros k Hx Hn Hp Hfit. rewrite getRoyalty_eq. cbn [world store enter].
  rewrite (resolve_manual _ _ _ _ _ Hx). unfold cascade.
  rewrite decide_False by done. rewrite decide_True by done.
  cbn [layerRecord answer]. fold k.
  apply N.leb_le in Hfit. by rewrite Hfit.
Qed.

(** X1. In every state the royalty engine can reach, every stored record
    (global default, contract-level, token-level) carries at most 1000
    basis points and a recipient whenever its fraction is not zero; a
    quote for a price with [salePrice * 1000] within uint256 therefore
    always returns, is at most a tenth of the price, and is zero unless it
    names a recipient. *)
Theorem royalty_quotes_sound s :
  reachable (W := W) s ->
  everyRecord (fun r => percentage r <= MAX_ROYALTY_PERCENTAGE /\
                        (percentage r <> 0 -> recipient r <> 0)) s /\
  forall w nft tokenId salePrice,
    salePrice * 1000 <= MAX_UINT256 ->
    exists r a,
      getRoyalty nft tokenId salePrice (enter w s) = Ok ((r, a), enter w s) /\
      a <= salePrice / 10 /\ (a = 0 \/ r <> 0).
Proof.
  intros Hs.
  pose proof (reachable_capped s Hs) as Hcap.
  pose proof (reachable_addressed s Hs) as Hadd.
  split.
  - destruct Hcap as (Hd & Hc & Ht). destruct Hadd as (Hd' & Hc' & Ht').
    split; [done|]. split; [intros nft|intros nft tokenId]; split;
      first [apply Hc | apply Hc' | apply Ht | apply Ht'].
  - intros w nft tokenId salePrice Hfit.
    pose proof (getRoyalty_returns w s nft tokenId salePrice Hcap Hfit) as Hret.
    destruct (answer s nft tokenId salePrice
                (resolve w s nft tokenId salePrice)) as [r a].
    exists r, a. split; [done|]. split.
    + by eapply getRoyalty_bounded.
    + by eapply getRoyalty_addressed.
Qed.

(** X2. The three views of a token's royalty agree.  In a state where
    every record with a non-zero fraction has a recipient (every reachable
    state), and when the registry gives no accepted EIP-2981 answer,
    [getRoyalty] pays the recipient [getRoyaltyRecipient] reports the
    amount [salePrice * getRoyaltyPercentage / 10000]; [hasTokenRoyalty]
    and [hasContractRoyalty] tell whether the token-level and the
    contract-level record are set. *)
Theorem royalty_views_agree w s nft tokenId salePrice :
  addressed s ->
  externalAnswer w nft tokenId salePrice = None ->
  exists r p,
    getRoyaltyRecipient nft tokenId (enter w s) = Ok (r, enter w s) /\
    getRoyaltyPercentage nft tokenId (enter w s) = Ok (p, enter w s) /\
    (salePrice * p <= MAX_UINT256 ->
     getRoyalty nft tokenId salePrice (enter w s)
     = Ok ((r, salePrice * p / 10000), enter w s)) /\
    hasTokenRoyalty nft tokenId (enter w s)
    = Ok (bool_decide (present (sload (tokenRoyalties s) (nft, tokenId))),
          enter w s) /\
    hasContractRoyalty nft (enter w s)
    = Ok (bool_decide (present (sload (contractRoyalties s) nft)), enter w s).
Proof.
  intros (Hd & Hc & Ht) Hx.
  assert (forall rec : RoyaltyInfo,
             hasRecipient rec ->
             negb (recipient rec =? 0) = isSet rec /\
             isSet rec = bool_decide (present rec)) as Hrec.
  { intros rec Hh. split.
    - unfold isSet. destruct (recipient rec =? 0) eqn:E; [|done]. simpl.
      apply N.eqb_eq in E. symmetry. apply N.ltb_ge.
      destruct (decide (percentage rec = 0)) as [->|Hp]; [done|].
      by apply Hh in Hp.
    - destruct (isSet rec) eqn:E.
      + apply isSet_present in E. by rewrite bool_decide_eq_true_2.
      + apply isSet_absent in E. by rewrite bool_decide_eq_false_2. }
  specialize (Ht nft tokenId). specialize (Hc nft).
  destruct (Hrec _ Ht) as [Et Et']. destruct (Hrec _ Hc) as [Ec Ec'].
  destruct (Hrec _ Hd) as [Ed Ed'].
  assert (hasTokenRoyalty nft tokenId (enter w s)
          = Ok (bool_decide (present (sload (tokenRoyalties s) (nft, tokenId))),
                enter w s)) as Hht by (by rewrite <- Et').
  assert (hasContractRoyalty nft (enter w s)
          = Ok (bool_decide (present (sload (contractRoyalties s) nft)),
                enter w s)) as Hhc by (by rewrite <- Ec').
  rewrite Hht, Hhc. clear Hht Hhc.
  unfold getRoyaltyRecipient, getRoyaltyPercentage.
  mrun. rewrite Et.
  destruct (isSet (sload (tokenRoyalties s) (nft, tokenId))) eqn:It.
  { do 2 eexists. repeat split. intros Hfit.
    apply getRoyalty_token; [done| by apply isSet_present |done]. }
  cbn. rewrite Ec.
  destruct (isSet (sload (contractRoyalties s) nft)) eqn:Ic.
  { do 2 eexists. repeat split. intros Hfit.
    apply getRoyalty_contract;
      [done| by apply isSet_absent | by apply isSet_present |done]. }
  do 2 eexists. repeat split. intros Hfit. cbn [world store log] in Hfit.
  rewrite getRoyalty_eq. cbn [world store enter].
  rewrite (resolve_manual _ _ _ _ _ Hx). unfold cascade.
  apply isSet_absent in It. apply isSet_absent in Ic.
  rewrite !decide_False by done.
  destruct (isSet (defaultRoyalty s)) eqn:Id.
  - apply isSet_present in Id. rewrite decide_True by done.
    cbn [layerRecord answer]. apply N.leb_le in Hfit. by rewrite Hfit.
  - apply negb_false_iff, N.eqb_eq in Ed.
    apply isSet_absent in Id. rewrite decide_False by done.
    cbn [layerRecord answer].
    assert (percentage (defaultRoyalty s) = 0) as ->.
    { destruct (decide (percentage (defaultRoyalty s) = 0)); [done|].
      exfalso. apply Id. by right. }
    rewrite Ed, !N.mul_0_r. reflexivity.
Qed.

(** X3. A committed [setTokenRoyalty] was made by the engine owner, the
    token's holder or the registry's owner, with at most 1000 basis points
    and a recipient unless the fraction is zero.  From then on, unless the
    registry itself gives an accepted EIP-2981 answer, a quote for that
    token pays the recipient written [salePrice * percentage / 10000],
    whatever the contract-level record and the default say; quotes for
    every other token are what they were; and writing the empty record
    ([address(0)], 0) has the effect of [removeTokenRoyalty]. *)
Theorem setTokenRoyalty_round_trip e nft tokenId r p c c' :
  setTokenRoyalty e nft tokenId r p c = Ok (tt, c') ->
  (sender e = owner (store c) \/
   ownerOf (world c) nft tokenId = Some (sender e) \/
   contractOwner (world c) nft = Some (sender e)) /\
  p <= 1000 /\ (p <> 0 -> r <> 0) /\
  (forall w salePrice,
      externalAnswer w nft tokenId salePrice = None ->
      r <> 0 -> salePrice * p <= MAX_UINT256 ->
      getRoyalty nft tokenId salePrice (enter w (store c'))
      = Ok ((r, salePrice * p / 10000), enter w (store c'))) /\
  (forall w nft' tokenId' salePrice,
      (nft', tokenId') <> (nft, tokenId) ->
      returned (getRoyalty nft' tokenId' salePrice (enter w (store c')))
      = returned (getRoyalty nft' tokenId' salePrice (enter w (store c)))) /\
  (r = 0 ->
   forall w salePrice,
     returned (getRoyalty nft tokenId salePrice (enter w (store c')))
     = returned (getRoyalty nft tokenId salePrice
                   (enter w (set_tokenRoyalties (delete (nft, tokenId))
                               (store c))))).
Proof.
  intros Hrun.
  apply setTokenRoyalty_inv in Hrun as (Hauth & Hcap & Hrec & _ & ->).
  unfold withinCap, hasRecipient, MAX_ROYALTY_PERCENTAGE in *. simpl in *.
  split; [done|]. split; [done|]. split; [done|]. split; [|split].
  - intros w salePrice Hx Hr Hfit.
    pose proof (getRoyalty_token w
                  (set_tokenRoyalties
                     <[(nft, tokenId) := {| recipient := r; percentage := p |}]>
                     (store c)) nft tokenId salePrice) as Hget.
    cbn in Hget. rewrite sload_insert_eq in Hget. apply Hget; [done| |done].
    by left.
  - intros w nft' tokenId' salePrice Hne.
    apply getRoyalty_same_records; cbn; [|done|done].
    by rewrite sload_insert_ne.
  - intros -> w salePrice.
    assert (p = 0) as ->.
    { destruct (decide (p = 0)); [done|]. exfalso. by apply Hrec. }
    apply getRoyalty_same_records; cbn; [|done|done].
    by rewrite sload_insert_eq, sload_delete_eq.
Qed.

(** X4. A committed [setContractRoyalty] applies to the whole collection
    but never over a token-level record: a token of the registry without
    a record of its own is quoted the new contract-level recipient and
    fraction, a token with its own record keeps its quote, and so does
    every token of every other registry. *)
Theorem setContractRoyalty_covers_collection e nft r p c c' :
  setContractRoyalty e nft r p c = Ok (tt, c') ->
  (sender e = owner (store c) \/
   contractOwner (world c) nft = Some (sender e)) /\
  p <= 1000 /\ (p <> 0 -> r <> 0) /\
  (forall w tokenId salePrice,
      externalAnswer w nft tokenId salePrice = None ->
      ~ present (sload (tokenRoyalties (store c)) (nft, tokenId)) ->
      r <> 0 -> salePrice * p <= MAX_UINT256 ->
      getRoyalty nft tokenId salePrice (enter w (store c'))
      = Ok ((r, salePrice * p / 10000), enter w (store c'))) /\
  (forall w tokenId salePrice,
      present (sload (tokenRoyalties (store c)) (nft, tokenId)) ->
      returned (getRoyalty nft tokenId salePrice (enter w (store c')))
      = returned (getRoyalty nft tokenId salePrice (enter w (store c)))) /\
  (forall w nft' tokenId salePrice,
      nft' <> nft ->
      returned (getRoyalty nft' tokenId salePrice (enter w (store c')))
      = returned (getRoyalty nft' tokenId salePrice (enter w (store c)))).
Proof.
  intros Hrun.
  apply setContractRoyalty_inv in Hrun as (Hauth & Hcap & Hrec & _ & ->).
  unfold withinCap, hasRecipient, MAX_ROYALTY_PERCENTAGE in *. simpl in *.
  split; [done|]. split; [done|]. split; [done|]. split; [|split].
  - intros w tokenId salePrice Hx Hnone Hr Hfit.
    pose proof (getRoyalty_contract w
                  (set_contractRoyalties
                     <[nft := {| recipient := r; percentage := p |}]>
                     (store c)) nft tokenId salePrice) as Hget.
    cbn in Hget. rewrite sload_insert_eq in Hget.
    apply Hget; [done|done| |done]. by left.
  - intros w tokenId salePrice Hp. rewrite !getRoyalty_eq.
    cbn [world store enter]. unfold resolve, cascade. cbn.
    destruct (externalAnswer w nft tokenId salePrice) as [[r' a']|];
      [cbn; by destruct (_ <=? _)|].
    rewrite !decide_True by done. cbn. by destruct (_ <=? _).
  - intros w nft' tokenId salePrice Hne.
    apply getRoyalty_same_records; cbn; [done| |done].
    by rewrite sload_insert_ne.
Qed.

(** X5. After a committed [removeTokenRoyalty], [hasTokenRoyalty] is
    false and no quote for the token comes from the token layer; the
    contract-level records, the default and every other token's record
    are untouched; and removing a record that [setTokenRoyalty] had just
    written where there was none gives back the storage as it was. *)
Theorem removeTokenRoyalty_falls_back e nft tokenId c c' :
  removeTokenRoyalty e nft tokenId c = Ok (tt, c') ->
  (forall w, hasTokenRoyalty nft tokenId (enter w (store c'))
             = Ok (false, enter w (store c'))) /\
  (forall w salePrice,
      resolve w (store c') nft tokenId salePrice <> TokenOverride) /\
  contractRoyalties (store c') = contractRoyalties (store c) /\
  defaultRoyalty (store c') = defaultRoyalty (store c) /\
  (forall nft' tokenId',
      (nft', tokenId') <> (nft, tokenId) ->
      sload (tokenRoyalties (store c')) (nft', tokenId')
      = sload (tokenRoyalties (store c)) (nft', tokenId')) /\
  (forall e0 r p c0 c1,
      tokenRoyalties (store c0) !! (nft, tokenId) = None ->
      setTokenRoyalty e0 nft tokenId r p c0 = Ok (tt, c1) ->
      store c = store c1 ->
      store c' = store c0).
Proof.
  intros Hrun. apply removeTokenRoyalty_inv in Hrun as (_ & _ & ->).
  split; [|split; [|split; [|split; [|split]]]]; try done.
  - intros w. unfold hasTokenRoyalty. mrun.
    cbn [tokenRoyalties set_tokenRoyalties]. by rewrite sload_delete_eq.
  - intros w salePrice. unfold resolve, cascade. cbn.
    destruct (externalAnswer w nft tokenId salePrice) as [[r a]|]; [done|].
    rewrite sload_delete_eq. rewrite decide_False.
    + repeat case_decide; done.
    + unfold present. cbn. intros [?|?]; done.
  - intros nft' tokenId' Hne. cbn. by rewrite sload_delete_ne.
  - intros e0 r p c0 c1 Hnone Hset ->.
    apply setTokenRoyalty_inv in Hset as (_ & _ & _ & _ & ->).
    destruct (store c0) as [cr tr d o]. unfold set_tokenRoyalties. cbn in *.
    f_equal. by apply delete_insert_id.
Qed.

(** X6. Authority over the records.  A committed call by anyone but the
    engine owner leaves the owner slot and the global default alone; it
    leaves a registry's contract-level record alone unless the caller is
    what [Ownable(registry).owner()] returns; and it leaves a token's
    record alone unless the caller is that or what
    [IERC721(registry).ownerOf(tokenId)] returns.  A registry whose
    ownership queries revert gives nobody but the engine owner a say. *)
Theorem royalty_writes_need_authority e call c c' :
  exec e call c = Ok (tt, c') ->
  sender e <> owner (store c) ->
  owner (store c') = owner (store c) /\
  defaultRoyalty (store c') = defaultRoyalty (store c) /\
  (forall nft,
      contractOwner (world c) nft <> Some (sender e) ->
      sload (contractRoyalties (store c')) nft
      = sload (contractRoyalties (store c)) nft) /\
  (forall nft tokenId,
      contractOwner (world c) nft <> Some (sender e) ->
      ownerOf (world c) nft tokenId <> Some (sender e) ->
      sload (tokenRoyalties (store c')) (nft, tokenId)
      = sload (tokenRoyalties (store c)) (nft, tokenId)).
Proof.
  intros Hrun Hno. unfold exec in Hrun.
  apply bind_ok in Hrun as (? & c1 & Hval & Hrun). minv Hval.
  destruct call.
  - apply setDefaultRoyalty_inv in Hrun as (? & _). done.
  - apply setContractRoyalty_inv in Hrun as ([?|Hc] & _ & _ & _ & ->);
      [done|].
    repeat split; try done. intros nft Hn. cbn.
    rewrite sload_insert_ne; [done|]. by intros ->.
  - apply setTokenRoyalty_inv in Hrun as ([?|Hc] & _ & _ & _ & ->); [done|].
    repeat split; try done. intros nft tokenId0 Hn Ht. cbn.
    rewrite sload_insert_ne; [done|]. intros [= -> ->]. by destruct Hc.
  - unfold batchSetContractRoyalties, onlyOwner in Hrun.
    apply bind_ok in Hrun as (? & c1 & Hown & Hrun). minv Hown.
    by apply N.eqb_eq in Hreq.
  - apply removeContractRoyalty_inv in Hrun as ([?|Hc] & _ & ->); [done|].
    repeat split; try done. intros nft Hn. cbn.
    rewrite sload_delete_ne; [done|]. by intros ->.
  - apply removeTokenRoyalty_inv in Hrun as ([?|Hc] & _ & ->); [done|].
    repeat split; try done. intros nft tokenId0 Hn Ht. cbn.
    rewrite sload_delete_ne; [done|]. intros [= -> ->]. by destruct Hc.
  - unfold transferOwnership, onlyOwner in Hrun.
    apply bind_ok in Hrun as (? & c1 & Hown & Hrun). minv Hown.
    by apply N.eqb_eq in Hreq.
  - unfold renounceOwnership, onlyOwner in Hrun.
    apply bind_ok in Hrun as (? & c1 & Hown & Hrun). minv Hown.
    by apply N.eqb_eq in Hreq.
Qed.

Lemma batchLoop_inv ns : forall rs ps c u c',
  batchLoop ns rs ps c = Ok (u, c') ->
  length ns = length rs -> length rs = length ps ->
  world c' = world c /\
  tokenRoyalties (store c') = tokenRoyalties (store c) /\
  defaultRoyalty (store c') = defaultRoyalty (store c) /\
  owner (store c') = owner (store c) /\
  (forall i r p, rs !! i = Some r -> ps !! i = Some p ->
                 p <= 1000 /\ (p <> 0 -> r <> 0)) /\
  (forall n, n ∉ ns ->
             sload (contractRoyalties (store c')) n
             = sload (contractRoyalties (store c)) n) /\
  (NoDup ns ->
   forall i n r p,
     ns !! i = Some n -> rs !! i = Some r -> ps !! i = Some p ->
     sload (contractRoyalties (store c')) n
     = {| recipient := r; percentage := p |}).
Proof.
  induction ns as [|n ns IH]; intros rs ps c u c' Hrun Hl1 Hl2.
  - destruct rs; [|discriminate]. destruct ps; [|discriminate].
    cbn in Hrun. minv Hrun. repeat split; try done.
  - destruct rs as [|r rs]; [discriminate|].
    destruct ps as [|p ps]; [discriminate|].
    cbn [batchLoop] in Hrun.
    apply bind_ok in Hrun as (? & c1 & Hchk & Hrun).
    apply checkRoyalty_ok in Hchk as (-> & Hcap & Hrec).
    apply bind_ok in Hrun as (? & c2 & Hmod & Hrun). minv Hmod.
    apply bind_ok in Hrun as (? & c3 & Hemit & Hrun). minv Hemit.
    apply IH in Hrun as (Hw & Ht & Hd & Ho & Hok & Hframe & Hread);
      [|by inversion Hl1|by inversion Hl2].
    cbn in Hw, Ht, Hd, Ho, Hframe.
    split; [done|]. split; [done|]. split; [done|]. split; [done|].
    split; [|split].
    + intros [|i] r0 p0 Hr Hp; cbn in Hr, Hp.
      * inversion Hr; inversion Hp; subst. done.
      * by apply (Hok i).
    + intros n0 Hn0. apply not_elem_of_cons in Hn0 as [Hne Hn0].
      rewrite Hframe by done. by rewrite sload_insert_ne.
    + intros Hnd. apply NoDup_cons in Hnd as [Hfresh Hnd].
      intros [|i] n0 r0 p0 Hn Hr Hp; cbn in Hn, Hr, Hp.
      * inversion Hn; inversion Hr; inversion Hp; subst.
        rewrite Hframe by done. by rewrite sload_insert_eq.
      * by apply (Hread Hnd i).
Qed.

(** X7. [batchSetContractRoyalties] is the owner's, takes three lists of
    one length, and is all or nothing: a batch that commits checked every
    entry against the cap and the recipient rule, left every registry not
    in the list, every token-level record and the default alone, and,
    when no registry is listed twice, reads back entry by entry; lists of
    different lengths are rejected with [Array length mismatch]. *)
Theorem batchSetContractRoyalties_all_or_nothing e ns rs ps c :
  (forall c',
      batchSetContractRoyalties e ns rs ps c = Ok (tt, c') ->
      sender e = owner (store c) /\
      length ns = length rs /\ length rs = length ps /\
      (forall i r p, rs !! i = Some r -> ps !! i = Some p ->
                     p <= 1000 /\ (p <> 0 -> r <> 0)) /\
      tokenRoyalties (store c') = tokenRoyalties (store c) /\
      defaultRoyalty (store c') = defaultRoyalty (store c) /\
      (forall n, n ∉ ns ->
                 sload (contractRoyalties (store c')) n
                 = sload (contractRoyalties (store c)) n) /\
      (NoDup ns ->
       forall i n r p,
         ns !! i = Some n -> rs !! i = Some r -> ps !! i = Some p ->
         sload (contractRoyalties (store c')) n
         = {| recipient := r; percentage := p |})) /\
  (sender e = owner (store c) ->
   length ns <> length rs \/ length rs <> length ps ->
   batchSetContractRoyalties e ns rs ps c
   = Revert (Require "Array length mismatch")) /\
  (sender e <> owner (store c) ->
   batchSetContractRoyalties e ns rs ps c
   = Revert (Require "Ownable: caller is not the owner")).
Proof.
  split; [|split].
  - intros c' Hrun. unfold batchSetContractRoyalties, onlyOwner in Hrun.
    apply bind_ok in Hrun as (? & c1 & Hown & Hrun). minv Hown.
    apply bind_ok in Hrun as (? & c1 & Hlen & Hrun). minv Hlen.
    apply N.eqb_eq in Hreq.
    apply andb_true_iff in Hreq0 as [Hl1 Hl2].
    apply Nat.eqb_eq in Hl1. apply Nat.eqb_eq in Hl2.
    apply batchLoop_inv in Hrun as (_ & Ht & Hd & _ & Hok & Hframe & Hread);
      [|done|done].
    done.
  - intros Ho Hlen. unfold batchSetContractRoyalties, onlyOwner. mrun.
    rewrite Ho, N.eqb_refl.
    assert ((length ns =? length rs)%nat && (length rs =? length ps)%nat
            = false) as ->; [|done].
    apply andb_false_iff. rewrite !Nat.eqb_neq. done.
  - intros Ho. unfold batchSetContractRoyalties, onlyOwner. mrun.
    apply N.eqb_neq in Ho. by rewrite Ho.
Qed.
End RoyaltyRecords.

(** ** The example collection and the engine *)

Section MockCollection.
Import MockInv.
Context {W : Type} `{Chain W}.
Implicit Types (s : MockNFT.storage) (w : W) (c : ctx W MockNFT.storage)
  (e : env).

Lemma mock_setDefault_ok r f c u c' :
  MockNFT._setDefaultRoyalty r f c = Ok (u, c') ->
  f <= 1000 /\ r <> 0 /\
  store c' = MockNFT.set_defaultRoyaltyInfo
               {| MockNFT.recipient := r; MockNFT.royaltyFraction := f |}
               (store c).
Proof.
  unfold MockNFT._setDefaultRoyalty. intros Hrun. minv_in Hrun.
  apply N.leb_le in Hreq. apply negb_true_iff, N.eqb_neq in Hreq0. done.
Qed.

Lemma mock_setToken_ok t r f c u c' :
  MockNFT._setTokenRoyalty t r f c = Ok (u, c') ->
  f <= 1000 /\ r <> 0 /\
  store c' = MockNFT.set_tokenRoyaltyInfo
               <[t := {| MockNFT.recipient := r;
                         MockNFT.royaltyFraction := f |}]> (store c).
Proof.
  unfold MockNFT._setTokenRoyalty. intros Hrun. minv_in Hrun.
  apply N.leb_le in Hreq. apply negb_true_iff, N.eqb_neq in Hreq0. done.
Qed.

Lemma mock_exec_wellFormed e call c c' :
  MockNFT.exec e call c = Ok (tt, c') ->
  wellFormed (store c) -> wellFormed (store c').
Proof.
  intros Hrun (Hr & Hf & Ht). unfold MockNFT.exec in Hrun.
  apply bind_ok in Hrun as (? & c1 & Hval & Hrun). minv Hval.
  destruct call.
  - unfold MockNFT.setDefaultRoyalty, MockNFT.onlyOwner in Hrun.
    apply bind_ok in Hrun as (? & c1 & Hown & Hrun). minv Hown.
    apply mock_setDefault_ok in Hrun as (? & ? & ->). done.
  - unfold MockNFT.setTokenRoyalty, MockNFT._exists, MockNFT.ownerOf in Hrun.
    minv_in Hrun.
    all: match goal with
         | Hs : MockNFT._setTokenRoyalty _ _ _ _ = Ok _ |- _ =>
             apply mock_setToken_ok in Hs as (? & ? & ->)
         end.
    all: split; [done|]; split; [done|]; intros t; cbn.
    all: destruct (decide (tokenId = t)) as [->|];
         [by rewrite sload_insert_eq | by rewrite sload_insert_ne].
  - unfold MockNFT._burn, MockNFT.ownerOf, MockNFT._beforeTokenTransfer
      in Hrun.
    minv_in Hrun.
    split; [done|]. split; [done|]. intros t. cbn.
    destruct (decide (tokenId = t)) as [->|];
      [rewrite sload_delete_eq; cbn; lia | by rewrite sload_delete_ne].
Qed.

Lemma mock_reachable_wellFormed s :
  MockNFT.reachable (W := W) s -> wellFormed s.
Proof.
  induction 1
    as [e w r f c' Hrun|s e call w c' _ IH Hrun|s holders o p _ IH].
  - apply mock_setDefault_ok in Hrun as (? & ? & ->).
    split; [done|]. split; [done|]. intros t. cbn.
    rewrite sload_empty. cbn. lia.
  - by apply mock_exec_wellFormed in Hrun.
  - done.
Qed.

Lemma mock_royaltyInfo_eq s w tokenId salePrice :
  let token := sload (MockNFT._tokenRoyaltyInfo s) tokenId in
  let royalty := if MockNFT.recipient token =? 0
                 then MockNFT._defaultRoyaltyInfo s else token in
  MockNFT.royaltyInfo tokenId salePrice (enter w s) =
  if salePrice * MockNFT.royaltyFraction royalty <=? MAX_UINT256
  then Ok ((MockNFT.recipient royalty,
            salePrice * MockNFT.royaltyFraction royalty / 10000), enter w s)
  else Revert Overflow.
Proof.
  cbn zeta. unfold MockNFT.royaltyInfo, checked_mul. mrun.
  destruct (MockNFT.recipient _ =? 0); mrun; by destruct (_ <=? _).
Qed.

(** X8. The example collection always answers EIP-2981 queries within
    the engine's acceptance test.  In every state the collection can
    reach, [royaltyInfo] names a recipient other than [address(0)] (the
    token's own record, else the default the constructor insisted on) and
    an amount of at most a tenth of the price, for every price with
    [salePrice * 1000] within uint256, for minted and unminted ids
    alike. *)
Theorem mock_royaltyInfo_within_tenth s w tokenId salePrice :
  MockNFT.reachable (W := W) s ->
  salePrice * 1000 <= MAX_UINT256 ->
  exists r a,
    MockNFT.royaltyInfo tokenId salePrice (enter w s) = Ok ((r, a), enter w s) /\
    r <> 0 /\ 10 * a <= salePrice /\
    r = (if MockNFT.recipient (sload (MockNFT._tokenRoyaltyInfo s) tokenId) =? 0
         then MockNFT.recipient (MockNFT._defaultRoyaltyInfo s)
         else MockNFT.recipient (sload (MockNFT._tokenRoyaltyInfo s) tokenId)).
Proof.
  intros Hs Hfit. apply mock_reachable_wellFormed in Hs as (Hr & Hf & Ht).
  specialize (Ht tokenId). rewrite mock_royaltyInfo_eq. cbn zeta.
  destruct (MockNFT.recipient _ =? 0) eqn:E.
  - assert ((salePrice * MockNFT.royaltyFraction (MockNFT._defaultRoyaltyInfo s)
             <=? MAX_UINT256) = true) as -> by (apply N.leb_le; nia).
    do 2 eexists. split; [reflexivity|]. split; [done|]. split; [|done].
    apply tenth_le, N.leb_le. by apply bps_tenth.
  - apply N.eqb_neq in E.
    assert ((salePrice * MockNFT.royaltyFraction
                           (sload (MockNFT._tokenRoyaltyInfo s) tokenId)
             <=? MAX_UINT256) = true) as -> by (apply N.leb_le; nia).
    do 2 eexists. split; [reflexivity|]. split; [done|]. split; [|done].
    apply tenth_le, N.leb_le. by apply bps_tenth.
Qed.

(** X9. A token-level royalty of the example collection can be set only
    for a token that exists and only by the collection owner or the
    token's holder, with a recipient and at most 1000 basis points; from
    then on [royaltyInfo] answers with it for that token and as before
    for every other; and burning the token resets the record, so that the
    id is answered from the default again. *)
Theorem mock_setTokenRoyalty_round_trip e tokenId r f c c' :
  MockNFT.setTokenRoyalty e tokenId r f c = Ok (tt, c') ->
  let h := sload (MockNFT._owners (store c)) tokenId in
  h <> 0 /\ (sender e = MockNFT.owner (store c) \/ sender e = h) /\
  f <= 1000 /\ r <> 0 /\
  (forall w salePrice,
      salePrice * f <= MAX_UINT256 ->
      MockNFT.royaltyInfo tokenId salePrice (enter w (store c'))
      = Ok ((r, salePrice * f / 10000), enter w (store c'))) /\
  (forall w t salePrice,
      t <> tokenId ->
      returned (MockNFT.royaltyInfo t salePrice (enter w (store c')))
      = returned (MockNFT.royaltyInfo t salePrice (enter w (store c)))) /\
  (forall w c2,
      MockNFT._burn tokenId (enter w (store c')) = Ok (tt, c2) ->
      sload (MockNFT._owners (store c2)) tokenId = 0 /\
      forall w2 salePrice,
        let d := MockNFT._defaultRoyaltyInfo (store c) in
        salePrice * MockNFT.royaltyFraction d <= MAX_UINT256 ->
        MockNFT.royaltyInfo tokenId salePrice (enter w2 (store c2))
        = Ok ((MockNFT.recipient d,
               salePrice * MockNFT.royaltyFraction d / 10000),
              enter w2 (store c2))).
Proof.
  unfold MockNFT.setTokenRoyalty, MockNFT._exists, MockNFT.ownerOf.
  intros Hrun. cbn zeta.
  assert (exists c0,
             store c0 = store c /\
             sload (MockNFT._owners (store c)) tokenId <> 0 /\
             (sender e = MockNFT.owner (store c) \/
              sender e = sload (MockNFT._owners (store c)) tokenId) /\
             MockNFT._setTokenRoyalty tokenId r f c0 = Ok (tt, c'))
    as (c0 & Hc0 & Hex & Hauth & Hset).
  { minv_in Hrun.
    all: apply negb_true_iff, N.eqb_neq in Hreq.
    all: eexists; split; [|split; [exact Hreq|split; [|eassumption]]];
         [reflexivity|].
    - left. by apply N.eqb_eq.
    - right. by apply N.eqb_eq. }
  apply mock_setToken_ok in Hset as (Hf & Hr & Hst). rewrite Hc0 in Hst.
  do 4 (split; [done|]). split; [|split].
  - intros w salePrice Hfit. rewrite mock_royaltyInfo_eq. cbn zeta.
    rewrite Hst. cbn. rewrite sload_insert_eq. cbn.
    apply N.eqb_neq in Hr. rewrite Hr. cbn. apply N.leb_le in Hfit.
    by rewrite Hfit.
  - intros w t salePrice Hne. rewrite !mock_royaltyInfo_eq. cbn zeta.
    rewrite Hst. cbn. rewrite sload_insert_ne by done.
    by destruct (_ <=? _).
  - intros w c2 Hburn.
    unfold MockNFT._burn, MockNFT.ownerOf, MockNFT._beforeTokenTransfer
      in Hburn.
    minv_in Hburn. rewrite Hst. cbn. rewrite sload_delete_eq.
    split; [done|]. intros w2 salePrice Hfit.
    rewrite mock_royaltyInfo_eq. cbn zeta. cbn. rewrite sload_delete_eq. cbn.
    apply N.leb_le in Hfit. by rewrite Hfit.
Qed.
End MockCollection.

Section MockAndEngine.
Context {W : Type} `{Chain W}.

(** X10. For a registry that is a deployed example collection, the engine
    never consults its own records: whatever token-level, contract-level
    or default record the engine holds, [RoyaltyEngine.getRoyalty] returns
    the collection's own [royaltyInfo] answer. *)
Theorem getRoyalty_defers_to_collection
    (w : W) (s : RoyaltyEngine.storage) (ms : MockNFT.storage)
    (nft : address) (tokenId salePrice : uint256) :
  MockNFT.reachable (W := W) ms ->
  supportsRoyaltyInterface w nft = true ->
  royaltyInfo w nft tokenId salePrice
  = returned (MockNFT.royaltyInfo tokenId salePrice (enter w ms)) ->
  salePrice * 1000 <= MAX_UINT256 ->
  exists r a,
    MockNFT.royaltyInfo tokenId salePrice (enter w ms)
    = Ok ((r, a), enter w ms) /\
    RoyaltyEngine.getRoyalty nft tokenId salePrice (enter w s)
    = Ok ((r, a), enter w s).
Proof.
  intros Hms Hsup Hinfo Hfit.
  pose proof (mock_reachable_wellFormed ms Hms) as (Hr & Hf & Ht).
  specialize (Ht tokenId). rewrite mock_royaltyInfo_eq in *. cbn zeta in *.
  set (royalty := if MockNFT.recipient _ =? 0 then _ else _) in *.
  assert (MockNFT.recipient royalty <> 0 /\
          MockNFT.royaltyFraction royalty <= 1000) as [Hrec Hcap].
  { subst royalty. destruct (MockNFT.recipient _ =? 0) eqn:E; [done|].
    by apply N.eqb_neq in E. }
  assert ((salePrice * MockNFT.royaltyFraction royalty <=? MAX_UINT256) = true)
    as Hle by (apply N.leb_le; nia).
  rewrite Hle in *. cbn in Hinfo.
  do 2 eexists. split; [reflexivity|].
  unfold RoyaltyEngine.getRoyalty. mrun. rewrite Hsup. cbn [world].
  rewrite Hinfo.
  apply N.eqb_neq in Hrec. rewrite Hrec. cbn [negb andb].
  assert ((salePrice * MockNFT.royaltyFraction royalty / 10000
           <=? salePrice / 10) = true) as ->; [|done].
  apply N.leb_le. by apply bps_tenth.
Qed.
End MockAndEngine.

(** ** Marketplace: settings, books and the life of listings and offers *)

(** Inversion of the composite steps of both engines. *)
Ltac minv_engines H :=
  lazymatch type of H with
  | Marketplace.split _ _ _ = Ok _ =>
      let Hfit := fresh "Hprod" in
      let Hle := fresh "Hsplit" in
      apply split_ok in H; destruct H as (? & Hfit & Hle & ?)
  | Marketplace.payout _ _ _ _ _ _ _ = Ok _ =>
      let Hs := fresh "Hstore" in
      let Hl := fresh "Hlog" in
      apply payout_ok in H; destruct H as (Hs & Hl)
  | Escrow._completeEscrow _ _ _ = Ok _ =>
      let Hs := fresh "Hstore" in
      let Hl := fresh "Hlog" in
      apply completeEscrow_ok in H; destruct H as (? & ? & Hs & Hl)
  | Escrow.unwind _ _ _ _ = Ok _ =>
      let Hs := fresh "Hstore" in
      let Hl := fresh "Hlog" in
      let Hw := fresh "Hworld" in
      apply unwind_ok in H; destruct H as (Hw & Hs & Hl)
  end.
Ltac minv_user H ::= minv_engines H.

Section MarketBooks.
Import Marketplace MarketInv MarketAdmin Expected.
Context {W : Type} `{Chain W} `{Keccak}.
Implicit Types (s : storage) (w : W) (c : ctx W storage) (e : env).

(** Unfolds a call down to the primitives. *)
Ltac market_open Hrun :=
  unfold exec, listItem, buyItem, cancelListing, updateListing, createOffer,
    acceptOffer, cancelOffer, setContractWhitelist, setMarketplaceFee,
    setFeeRecipient, setRoyaltyEngine, pause, unpause, emergencyWithdraw,
    transferOwnership, renounceOwnership, onlyOwner, whenNotPaused,
    whenPaused, onlyWhitelistedContract, validListing, validOffer,
    engineApproved, cancelExisting, _cancelListing in Hrun.



Lemma exec_fee_capped e re call c c' :
  exec e re call c = Ok (tt, c') ->
  marketplaceFeePercentage (store c) <= MAX_FEE_PERCENTAGE ->
  marketplaceFeePercentage (store c') <= MAX_FEE_PERCENTAGE.
Proof.
  intros Hrun Hcap.
  destruct call; market_open Hrun; minv_in Hrun; rewrite ?Hstore; try done.
  by apply N.leb_le.
Qed.

Lemma reachable_fee_capped s :
  reachable (W := W) s -> marketplaceFeePercentage s <= MAX_FEE_PERCENTAGE.
Proof.
  induction 1 as [e f r|s e re call w c' _ IH Hrun].
  - cbn. unfold MAX_FEE_PERCENTAGE. lia.
  - by apply exec_fee_capped in Hrun.
Qed.

Lemma seller_share price fee royalty :
  fee <= price / 10 -> royalty <= price / 10 ->
  8 * price <= 10 * (price - fee - royalty).
Proof. intros Hf Hr. pose proof (N.Div0.mul_div_le price 10). lia. Qed.




Lemma createOffer_inv e nft tokenId duration c c' :
  createOffer e nft tokenId duration c = Ok (tt, c') ->
  let offerId := keccak256 [sender e; nft; tokenId; timestamp e] in
  paused (store c) = false /\
  sload (whitelistedContracts (store c)) nft = true /\
  0 < value e /\ 0 < duration /\
  world c' = world c /\
  store c' =
  set_userOffers
    (fun m => <[sender e := sload m (sender e) ++ [offerId]]> m)
    (set_offers
       <[offerId := {| o_buyer := sender e; o_nftContract := nft;
                       o_tokenId := tokenId; o_amount := value e;
                       o_createdAt := timestamp e;
                       o_expiresAt := timestamp e + duration;
                       o_active := true |}]> (store c)).
Proof.
  unfold createOffer, whenNotPaused, onlyWhitelistedContract.
  intros Hrun. minv_in Hrun.
  apply negb_true_iff in Hreq. apply N.ltb_lt in Hreq1, Hreq2. done.
Qed.





(** X16. [createOffer] does not look for an offer already stored under
    the id it computes.  Two offers by one buyer for one token in one
    block share [keccak256(buyer, nft, tokenId, timestamp)]: the second
    record replaces the first, the id is on the buyer's list twice, and a
    later [cancelOffer] sends back the second amount only. *)
Theorem createOffer_replaces_same_block_offer
    e1 e2 nft tokenId d1 d2 c c1 w c2 :
  createOffer e1 nft tokenId d1 c = Ok (tt, c1) ->
  createOffer e2 nft tokenId d2 (enter w (store c1)) = Ok (tt, c2) ->
  sender e2 = sender e1 -> timestamp e2 = timestamp e1 ->
  let offerId := keccak256 [sender e1; nft; tokenId; timestamp e1] in
  o_amount (getOffer (store c1) offerId) = value e1 /\
  getOffer (store c2) offerId
  = {| o_buyer := sender e1; o_nftContract := nft; o_tokenId := tokenId;
       o_amount := value e2; o_createdAt := timestamp e1;
       o_expiresAt := timestamp e1 + d2; o_active := true |} /\
  getUserOffers (store c2) (sender e1)
  = getUserOffers (store c) (sender e1) ++ [offerId; offerId] /\
  forall e3 w3 c3,
    cancelOffer e3 offerId (enter w3 (store c2)) = Ok (tt, c3) ->
    payments (log c3) = [(sender e1, value e2)] /\
    o_active (getOffer (store c3) offerId) = false.
Proof.
  intros H1 H2 Hs Ht offerId.
  apply createOffer_inv in H1 as (_ & _ & _ & _ & _ & E1).
  apply createOffer_inv in H2 as (_ & _ & _ & _ & _ & E2).
  cbn [store enter] in E2. rewrite Hs, Ht in E2. fold offerId in E1, E2.
  unfold getOffer, getUserOffers. rewrite E2, E1. cbn.
  rewrite !sload_insert_eq. cbn. split; [done|]. split; [done|].
  split; [by rewrite <- app_assoc|].
  intros e3 w3 c3 Hc. apply cancelOffer_inv in Hc as (_ & _ & _ & _ & Hl & Hst).
  rewrite Hl, Hst. cbn. rewrite !sload_insert_eq. cbn. done.
Qed.

(** X17. Listing takes no custody of the token.  A committed [listItem]
    was for a whitelisted registry, with a price and a duration above
    zero, by the token's holder, who had approved the marketplace for the
    token or as operator; it records the listing under
    [keccak256(nft, tokenId, timestamp)], expiring at timestamp plus
    duration, and moves neither the token nor any ether.  So if the token
    has another holder when a buyer comes, [buyItem] is rejected with
    [Seller no longer owns NFT]. *)
Theorem listItem_takes_no_custody e nft tokenId price duration c c' :
  listItem e nft tokenId price duration c = Ok (tt, c') ->
  let listingId := keccak256 [nft; tokenId; timestamp e] in
  sload (whitelistedContracts (store c)) nft = true /\
  0 < price /\ 0 < duration /\
  ownerOf (world c) nft tokenId = Some (sender e) /\
  (isApprovedForAll (world c) nft (sender e) (this e) = Some true \/
   getApproved (world c) nft tokenId = Some (this e)) /\
  getListing (store c') listingId
  = {| l_seller := sender e; l_nftContract := nft; l_tokenId := tokenId;
       l_price := price; l_createdAt := timestamp e;
       l_expiresAt := timestamp e + duration; l_active := true |} /\
  world c' = world c /\
  payments (log c') = payments (log c) /\
  nftMoves (log c') = nftMoves (log c) /\
  forall e2 re w2 holder,
    paused (store c') = false ->
    timestamp e2 < timestamp e + duration ->
    price <= value e2 ->
    sender e2 <> sender e ->
    ownerOf w2 nft tokenId = Some holder -> holder <> sender e ->
    buyItem e2 re listingId (enter w2 (store c'))
    = Revert (Require "Seller no longer owns NFT").
Proof.
  unfold listItem, whenNotPaused, onlyWhitelistedContract, engineApproved,
    cancelExisting, _cancelListing, getListing.
  intros Hrun. cbn zeta. minv_in Hrun.
  all: apply N.ltb_lt in Hreq1, Hreq2; apply N.eqb_eq in Hreq3; subst.
  all: rewrite ?sload_insert_eq.
  all: do 4 (split; [done|]).
  all: split; [first [by left | right; by apply N.eqb_eq in Hreq4; subst]|].
  all: split; [done|]; split; [done|].
  all: rewrite ?payments_app, ?nftMoves_app; cbn; rewrite ?app_nil_r.
  all: split; [done|]; split; [done|].
  all: intros e2 re w2 holder Hp Hlive Hpay Hne Hown Hmoved.
  all: apply N.ltb_lt in Hlive; apply N.leb_le in Hpay;
       apply N.eqb_neq in Hne; apply N.eqb_neq in Hmoved.
  all: unfold buyItem, whenNotPaused, validListing, view; mrun.
  all: repeat first
         [ rewrite sload_insert_eq | rewrite Hp | rewrite Hlive
         | rewrite Hpay | rewrite Hne | rewrite Hown | rewrite Hmoved
         | progress cbn [world store log paused listings set_listings
                         set_tokenToListingId set_userListings
                         set_totalListings negb l_active l_expiresAt
                         l_price l_seller l_nftContract l_tokenId] ].
  all: reflexivity.
Qed.

(** X18. [updateListing] is the seller's alone and changes the price and
    nothing else.  A committed call was made by the seller of an active,
    unexpired listing with a price above zero (the owner, who may cancel a
    listing, may not reprice it); the listing keeps seller, asset, times
    and activity, every other listing, the index, the offers, the settings
    and the counters stay as they were; and from then on [buyItem] asks
    for the new price. *)
Theorem updateListing_changes_price_only e listingId newPrice c c' :
  updateListing e listingId newPrice c = Ok (tt, c') ->
  let l := getListing (store c) listingId in
  sender e = l_seller l /\ l_active l = true /\
  timestamp e < l_expiresAt l /\ 0 < newPrice /\
  getListing (store c') listingId = l_set_price newPrice l /\
  (forall id, id <> listingId ->
              getListing (store c') id = getListing (store c) id) /\
  tokenToListingId (store c') = tokenToListingId (store c) /\
  offers (store c') = offers (store c) /\
  settings (store c') = settings (store c) /\
  counters (store c') = counters (store c) /\
  world c' = world c /\
  forall e2 re w2,
    paused (store c') = false -> timestamp e2 < l_expiresAt l ->
    value e2 < newPrice ->
    buyItem e2 re listingId (enter w2 (store c'))
    = Revert (Require "Insufficient payment").
Proof.
  unfold updateListing, validListing, getListing. intros Hrun. minv_in Hrun.
  apply N.ltb_lt in Hreq0, Hreq2. apply N.eqb_eq in Hreq1.
  rewrite sload_insert_eq.
  split; [done|]. split; [done|]. split; [done|]. split; [done|].
  split; [done|]. split; [by intros id Hne; rewrite sload_insert_ne|].
  do 5 (split; [done|]).
  intros e2 re w2 Hp Hlive Hlow. cbn in Hp.
  unfold buyItem, whenNotPaused, validListing. mrun.
  cbn [paused listings set_listings]. rewrite Hp. cbn.
  rewrite sload_insert_eq. cbn. rewrite Hreq.
  apply N.ltb_lt in Hlive. rewrite Hlive. cbn.
  apply N.leb_gt in Hlow. rewrite sload_insert_eq. cbn [l_price l_set_price].
  by rewrite Hlow.
Qed.



End MarketBooks.

(** ** Escrow: ids, the life of a record, disputes and settings *)

Section EscrowRecords.
Import Escrow EscrowInv EscrowLife Expected.
Context {W : Type} `{Chain W}.
Implicit Types (s : storage) (w : W) (c : ctx W storage) (e : env)
  (x : EscrowTransaction).

(** Unfolds a call down to the primitives and the two composite steps. *)
Ltac escrow_open Hrun :=
  unfold exec, createEscrow, approveEscrow, cancelEscrow, initiateDispute,
    resolveDispute, setContractWhitelist, setEscrowFee, setFeeRecipient,
    setDisputeResolver, pause, unpause, emergencyWithdraw, transferOwnership,
    renounceOwnership, onlyOwner, whenNotPaused, whenPaused,
    onlyDisputeResolver, validEscrow in Hrun.


















Lemma valid_issued s escrowId :
  issued s escrowId ->
  (0 <? escrowId) && (escrowId <? nextEscrowId s) = true.
Proof. intros [Hlo Hhi]. apply andb_true_iff. by rewrite !N.ltb_lt. Qed.

(** X26. A dispute can be opened by a party until the deadline plus the
    dispute window, and then takes the escrow out of the parties' hands.
    On an issued Active escrow a call by the seller or the buyer commits
    up to [deadline + disputeWindow], changing the status to Disputed and
    nothing else, and is rejected with [Dispute window closed] after it;
    anyone else is rejected with [Not authorized].  Once Disputed, the
    escrow rejects [approveEscrow], [cancelEscrow] (after the deadline as
    before it) and a second [initiateDispute] with [Escrow not active],
    and [resolveDispute] from anyone but the dispute resolver. *)
Theorem dispute_window_and_freeze e escrowId c :
  let x := getEscrow (store c) escrowId in
  issued (store c) escrowId ->
  status x = Active ->
  deadline x + disputeWindow (store c) <= MAX_UINT256 ->
  (sender e <> seller x -> sender e <> buyer x ->
   initiateDispute e escrowId c = Revert (Require "Not authorized")) /\
  (sender e = seller x \/ sender e = buyer x ->
   initiateDispute e escrowId c =
   if timestamp e <=? deadline x + disputeWindow (store c)
   then Ok (tt, Ctx (world c)
                  (set_escrowTransactions
                     <[escrowId := set_status Disputed x]> (store c))
                  (log c ++ [Emit "EscrowDisputed" [escrowId]]))
   else Revert (Require "Dispute window closed")) /\
  forall c',
    initiateDispute e escrowId c = Ok (tt, c') ->
    getEscrow (store c') escrowId = set_status Disputed x /\
    forall e2 w2,
      approveEscrow e2 escrowId (enter w2 (store c'))
      = Revert (Require "Escrow not active") /\
      cancelEscrow e2 escrowId (enter w2 (store c'))
      = Revert (Require "Escrow not active") /\
      initiateDispute e2 escrowId (enter w2 (store c'))
      = Revert (Require "Escrow not active") /\
      forall favorBuyer,
        sender e2 <> disputeResolver (store c') ->
        resolveDispute e2 escrowId favorBuyer (enter w2 (store c'))
        = Revert (Require "Only dispute resolver").
Proof.
  intros x Hid Hact Hfit. subst x. unfold getEscrow in *.
  pose proof (valid_issued _ _ Hid) as Hv.
  split; [|split].
  - intros Hs Hb. unfold initiateDispute, validEscrow. mrun.
    rewrite Hv. simpl. rewrite Hact. simpl.
    apply N.eqb_neq in Hs, Hb. by rewrite Hs, Hb.
  - intros Hauth. unfold initiateDispute, validEscrow, checked_add. mrun.
    rewrite Hv. simpl. rewrite Hact. simpl.
    match goal with |- context [?a || ?b] => assert (a || b = true) as -> end.
    { apply orb_true_iff. rewrite !N.eqb_eq. done. }
    simpl. apply N.leb_le in Hfit. rewrite Hfit. simpl.
    by destruct (timestamp e <=? _).
  - intros c' Hrun. apply initiateDispute_inv in Hrun as (_ & _ & _ & ->).
    cbn. rewrite sload_insert_eq. split; [done|]. intros e2 w2.
    split; [|split; [|split]].
    + unfold approveEscrow, validEscrow. mrun. cbn. rewrite Hv. simpl.
      by rewrite sload_insert_eq.
    + unfold cancelEscrow, validEscrow. mrun. cbn. rewrite Hv. simpl.
      by rewrite sload_insert_eq.
    + unfold initiateDispute, validEscrow. mrun. cbn. rewrite Hv. simpl.
      by rewrite sload_insert_eq.
    + intros fb Hres. unfold resolveDispute, onlyDisputeResolver. mrun. cbn.
      cbn in Hres. apply N.eqb_neq in Hres. by rewrite Hres.
Qed.

Lemma exec_escrow_fee e call c c' :
  exec e call c = Ok (tt, c') ->
  escrowFeePercentage (store c) <= MAX_FEE_PERCENTAGE /\
  disputeWindow (store c) = 604800 ->
  escrowFeePercentage (store c') <= MAX_FEE_PERCENTAGE /\
  disputeWindow (store c') = 604800.
Proof.
  intros Hrun Hcap.
  destruct call; escrow_open Hrun; minv_in Hrun;
    repeat match goal with
      | H : store _ = _ |- _ => progress rewrite H
      end; try done.
  split; [by apply N.leb_le|apply Hcap].
Qed.

Lemma reachable_escrow_fee s :
  reachable (W := W) s ->
  escrowFeePercentage s <= MAX_FEE_PERCENTAGE /\ disputeWindow s = 604800.
Proof.
  induction 1 as [e f r|s e call w c' _ IH Hrun].
  - cbn. unfold MAX_FEE_PERCENTAGE. split; [lia|done].
  - by apply exec_escrow_fee in Hrun.
Qed.

Lemma nine_tenths price bps :
  bps <= 1000 -> 9 * price <= 10 * (price - price * bps / 10000).
Proof.
  intros Hb. pose proof (bps_tenth price bps Hb).
  pose proof (N.Div0.mul_div_le price 10). lia.
Qed.

End EscrowRecords.

(** ** Further concrete runs *)

Section MoreRuns.
Import Sim Scenario Midway Cases.
Local Existing Instance Sim.chain.
Local Existing Instance Sim.keccak.

Lemma royalty_step_reach c e call :
  RoyaltyEngine.reachable (store c) ->
  rexec e call (enter (world c) (store c)) = Ok (tt, step (rexec e call) c) ->
  RoyaltyEngine.reachable (store (step (rexec e call) c)).
Proof. intros Hr Hc. eapply RoyaltyEngine.reachable_step; eauto. Qed.

Lemma reach_r1 : RoyaltyEngine.reachable (store r1).
Proof.
  unfold r1. apply royalty_step_reach; [|vm_compute; reflexivity].
  apply RoyaltyEngine.reachable_init.
Qed.

Lemma reach_r2 : RoyaltyEngine.reachable (store r2).
Proof.
  unfold r2. apply royalty_step_reach; [|vm_compute; reflexivity].
  apply reach_r1.
Qed.

Lemma reach_engine : RoyaltyEngine.reachable engine.
Proof.
  assert (store r1 = engine) as <- by (vm_compute; reflexivity).
  apply reach_r1.
Qed.

Lemma run_r2 :
  RoyaltyEngine.setTokenRoyalty holder_tx nft 7 alice 250
    (enter (world r1) (store r1)) = Ok (tt, r2).
Proof. vm_compute. reflexivity. Qed.

(** With the 5% default and Alice's 2.5% on token 7, a quote on 1 ether
    returns, within the tenth and with a recipient. *)
Lemma royalty_quotes_sound_witness :
  RoyaltyEngine.reachable (store r2) /\
  exists r a,
    RoyaltyEngine.getRoyalty nft 7 ether (enter genesis (store r2))
    = Ok ((r, a), enter genesis (store r2)) /\
    a <= ether / 10 /\ (a = 0 \/ r <> 0).
Proof.
  split; [exact reach_r2|].
  destruct (royalty_quotes_sound (store r2) reach_r2) as [_ Hq].
  apply Hq. vm_compute. discriminate.
Defined.

(** In that state the views name Alice and 250 basis points for token 7,
    and the quote on 1 ether is hers. *)
Lemma royalty_views_agree_witness :
  RoyaltySpec.addressed (store r2) /\
  RoyaltySpec.externalAnswer genesis nft 7 ether = None /\
  exists r p,
    RoyaltyEngine.getRoyaltyRecipient nft 7 (enter genesis (store r2))
    = Ok (r, enter genesis (store r2)) /\
    RoyaltyEngine.getRoyaltyPercentage nft 7 (enter genesis (store r2))
    = Ok (p, enter genesis (store r2)).
Proof.
  pose proof (reachable_addressed (store r2) reach_r2) as Hadd.
  assert (RoyaltySpec.externalAnswer genesis nft 7 ether = None) as Hx
    by reflexivity.
  split; [exact Hadd|]. split; [exact Hx|].
  destruct (royalty_views_agree genesis (store r2) nft 7 ether Hadd Hx)
    as (r & p & Hr & Hp & _).
  exists r, p. split; [exact Hr|exact Hp].
Defined.

(** Alice's record for token 7 reads back: 2.5% of 1 ether to Alice. *)
Lemma setTokenRoyalty_round_trip_witness :
  RoyaltyEngine.setTokenRoyalty holder_tx nft 7 alice 250
    (enter (world r1) (store r1)) = Ok (tt, r2) /\
  RoyaltyEngine.getRoyalty nft 7 ether (enter genesis (store r2))
  = Ok ((alice, ether * 250 / 10000), enter genesis (store r2)).
Proof.
  split; [exact run_r2|].
  destruct (setTokenRoyalty_round_trip _ _ _ _ _ _ _ run_r2)
    as (_ & _ & _ & Hget & _).
  apply Hget; [reflexivity|discriminate|vm_compute; discriminate].
Defined.

(** The owner's 3% for the collection is what token 7, which has no
    record of its own, is quoted. *)
Lemma setContractRoyalty_covers_collection_witness :
  RoyaltyEngine.setContractRoyalty collection_tx nft bob 300
    (enter (world r1) (store r1)) = Ok (tt, r1_collection) /\
  RoyaltyEngine.getRoyalty nft 7 ether (enter genesis (store r1_collection))
  = Ok ((bob, ether * 300 / 10000), enter genesis (store r1_collection)).
Proof.
  assert (RoyaltyEngine.setContractRoyalty collection_tx nft bob 300
            (enter (world r1) (store r1)) = Ok (tt, r1_collection)) as Hrun
    by (vm_compute; reflexivity).
  split; [exact Hrun|].
  destruct (setContractRoyalty_covers_collection _ _ _ _ _ _ Hrun)
    as (_ & _ & _ & Hget & _).
  apply Hget; [reflexivity| |discriminate|vm_compute; discriminate].
  vm_compute. intros [Hr|Hp]; [apply Hr|apply Hp]; reflexivity.
Defined.

(** Alice removes her record again: the storage is what it was before
    she set it. *)
Lemma removeTokenRoyalty_falls_back_witness :
  RoyaltyEngine.removeTokenRoyalty (tx alice 0 7 royalties) nft 7
    (enter (world r2) (store r2)) = Ok (tt, r3) /\
  store r3 = store (enter (world r1) (store r1)).
Proof.
  assert (RoyaltyEngine.removeTokenRoyalty (tx alice 0 7 royalties) nft 7
            (enter (world r2) (store r2)) = Ok (tt, r3)) as Hrun
    by (vm_compute; reflexivity).
  split; [exact Hrun|].
  destruct (removeTokenRoyalty_falls_back _ _ _ _ _ Hrun)
    as (_ & _ & _ & _ & _ & Hback).
  apply (Hback holder_tx alice 250 (enter (world r1) (store r1)) r2);
    [reflexivity|exact run_r2|reflexivity].
Defined.

(** Alice is not the engine owner: her call left the owner slot and the
    default as they were. *)
Lemma royalty_writes_need_authority_witness :
  sender holder_tx <> RoyaltyEngine.owner (store r1) /\
  RoyaltyEngine.owner (store r2) = RoyaltyEngine.owner (store r1) /\
  RoyaltyEngine.defaultRoyalty (store r2)
  = RoyaltyEngine.defaultRoyalty (store r1).
Proof.
  assert (sender holder_tx
          <> RoyaltyEngine.owner (store (enter (world r1) (store r1))))
    as Hno by (vm_compute; discriminate).
  assert (RoyaltyEngine.exec holder_tx
            (RoyaltyEngine.SetTokenRoyalty nft 7 alice 250)
            (enter (world r1) (store r1)) = Ok (tt, r2)) as Hrun
    by (vm_compute; reflexivity).
  split; [exact Hno|].
  destruct (royalty_writes_need_authority _ _ _ _ Hrun Hno) as (Ho & Hd & _).
  split; [exact Ho|exact Hd].
Defined.

(** The owner's batch for two registries reads back entry by entry. *)
Lemma batchSetContractRoyalties_all_or_nothing_witness :
  sload (RoyaltyEngine.contractRoyalties (store r1_batch)) nft
  = {| RoyaltyEngine.recipient := carol; RoyaltyEngine.percentage := 300 |} /\
  sload (RoyaltyEngine.contractRoyalties (store r1_batch)) 51
  = {| RoyaltyEngine.recipient := bob; RoyaltyEngine.percentage := 0 |} /\
  RoyaltyEngine.batchSetContractRoyalties collection_tx [nft; 51] [carol] [300]
    (enter (world r1) (store r1)) = Revert (Require "Array length mismatch").
Proof.
  destruct (batchSetContractRoyalties_all_or_nothing collection_tx
              [nft; 51] [carol; bob] [300; 0] (enter (world r1) (store r1)))
    as (Hok & _).
  destruct (Hok r1_batch) as (_ & _ & _ & _ & _ & _ & _ & Hread).
  { vm_compute. reflexivity. }
  assert (NoDup [nft; 51]) as Hnd.
  { apply NoDup_cons. split; [|apply NoDup_singleton].
    intros Hin. apply list_elem_of_singleton in Hin. discriminate Hin. }
  split; [exact (Hread Hnd 0%nat nft carol 300 eq_refl eq_refl eq_refl)|].
  split; [exact (Hread Hnd 1%nat 51 bob 0 eq_refl eq_refl eq_refl)|].
  destruct (batchSetContractRoyalties_all_or_nothing collection_tx
              [nft; 51] [carol] [300] (enter (world r1) (store r1)))
    as (_ & Hlen & _).
  apply Hlen; [reflexivity|]. left. discriminate.
Defined.

Lemma reach_collection : MockNFT.reachable (W := ledger) (store collection).
Proof.
  apply (MockNFT.reachable_init (tx deployer 0 0 nft) genesis carol 750).
  vm_compute. reflexivity.
Qed.

Lemma reach_minted : MockNFT.reachable (W := ledger) minted.
Proof. apply MockNFT.reachable_inherited, reach_collection. Qed.

Lemma run_minted_own :
  MockNFT.setTokenRoyalty own_tx 7 alice 400 (enter genesis minted)
  = Ok (tt, minted_own).
Proof. vm_compute. reflexivity. Qed.

Lemma reach_minted_own : MockNFT.reachable (W := ledger) (store minted_own).
Proof.
  apply (MockNFT.reachable_step minted own_tx
           (MockNFT.SetTokenRoyalty 7 alice 400) genesis);
    [apply reach_minted|vm_compute; reflexivity].
Qed.

(** The collection answers for token 7 with Alice's 4%, and for the
    unminted token 8 with Carol's 7.5%: both within the tenth. *)
Lemma mock_royaltyInfo_within_tenth_witness :
  (exists r a,
      MockNFT.royaltyInfo 7 ether (enter genesis (store minted_own))
      = Ok ((r, a), enter genesis (store minted_own)) /\
      r <> 0 /\ 10 * a <= ether) /\
  (exists r a,
      MockNFT.royaltyInfo 8 ether (enter genesis (store minted_own))
      = Ok ((r, a), enter genesis (store minted_own)) /\
      r <> 0 /\ 10 * a <= ether).
Proof.
  assert (ether * 1000 <= MAX_UINT256) as Hfit by (vm_compute; discriminate).
  split.
  - destruct (mock_royaltyInfo_within_tenth (store minted_own) genesis 7 ether
                reach_minted_own Hfit) as (r & a & Hr & Hz & Ha & _).
    exists r, a. split; [exact Hr|]. split; [exact Hz|exact Ha].
  - destruct (mock_royaltyInfo_within_tenth (store minted_own) genesis 8 ether
                reach_minted_own Hfit) as (r & a & Hr & Hz & Ha & _).
    exists r, a. split; [exact Hr|]. split; [exact Hz|exact Ha].
Defined.

(** With [nft] being that collection, the engine quotes token 7 what the
    collection says, although the engine holds a record of its own for
    the token. *)
Lemma getRoyalty_defers_to_collection_witness :
  exists r a,
    MockNFT.royaltyInfo 7 ether
      (enter (with_collection (store minted_own)) (store minted_own))
    = Ok ((r, a), enter (with_collection (store minted_own))
                    (store minted_own)) /\
    RoyaltyEngine.getRoyalty nft 7 ether
      (enter (with_collection (store minted_own)) (store r2))
    = Ok ((r, a), enter (with_collection (store minted_own)) (store r2)).
Proof.
  apply (getRoyalty_defers_to_collection
           (with_collection (store minted_own)) (store r2) (store minted_own)
           nft 7 ether).
  - apply reach_minted_own.
  - reflexivity.
  - vm_compute. reflexivity.
  - vm_compute. discriminate.
Defined.

(** Alice, holder of token 7, set 4% for herself: it reads back. *)
Lemma mock_setTokenRoyalty_round_trip_witness :
  MockNFT.setTokenRoyalty own_tx 7 alice 400 (enter genesis minted)
  = Ok (tt, minted_own) /\
  MockNFT.royaltyInfo 7 ether (enter genesis (store minted_own))
  = Ok ((alice, ether * 400 / 10000), enter genesis (store minted_own)).
Proof.
  split; [exact run_minted_own|].
  destruct (mock_setTokenRoyalty_round_trip _ _ _ _ _ _ run_minted_own)
    as (_ & _ & _ & _ & Hget & _).
  apply Hget. vm_compute. discriminate.
Defined.









Lemma run_twice1 :
  Marketplace.createOffer offer_tx nft 7 day
    (enter (world offer_paid) (store offer_paid)) = Ok (tt, twice1).
Proof. vm_compute. reflexivity. Qed.

Lemma run_twice2 :
  Marketplace.createOffer offer_tx2 nft 7 day
    (enter (world twice1_paid) (store twice1)) = Ok (tt, twice2).
Proof. vm_compute. reflexivity. Qed.

(** Bob offered 0.5 and then 0.25 ether for token 7 in one block: the
    offer on record holds 0.25, and cancelling it pays back 0.25. *)
Lemma createOffer_replaces_same_block_offer_witness :
  Marketplace.o_amount
    (Marketplace.getOffer (store twice1)
       (keccak256 [sender offer_tx; nft; 7; timestamp offer_tx]))
  = value offer_tx /\
  forall e3 w3 c3,
    Marketplace.cancelOffer e3
      (keccak256 [sender offer_tx; nft; 7; timestamp offer_tx])
      (enter w3 (store twice2)) = Ok (tt, c3) ->
    payments (log c3) = [(sender offer_tx, value offer_tx2)].
Proof.
  destruct (createOffer_replaces_same_block_offer
              offer_tx offer_tx2 nft 7 day day
              (enter (world offer_paid) (store offer_paid)) twice1
              (world twice1_paid) twice2 run_twice1 run_twice2
              eq_refl eq_refl) as (H1 & _ & _ & Hc).
  split; [exact H1|]. intros e3 w3 c3 Hrun.
  destruct (Hc e3 w3 c3 Hrun) as [Hp _]. exact Hp.
Defined.

Lemma run_m2_body :
  Marketplace.listItem (tx alice 0 1000 market) nft 7 ether week
    (enter (world m1) (store m1)) = Ok (tt, m2).
Proof. vm_compute. reflexivity. Qed.

(** Alice's listing moved nothing; once she has given the token to Carol,
    Bob's purchase is turned away. *)
Lemma listItem_takes_no_custody_witness :
  world m2 = world (enter (world m1) (store m1)) /\
  Marketplace.buyItem buyer_tx engine
    (keccak256 [nft; 7; timestamp (tx alice 0 1000 market)])
    (enter moved (store m2))
  = Revert (Require "Seller no longer owns NFT").
Proof.
  destruct (listItem_takes_no_custody _ _ _ _ _ _ _ run_m2_body)
    as (_ & _ & _ & _ & _ & _ & Hw & _ & _ & Hbuy).
  split; [exact Hw|].
  apply (Hbuy buyer_tx engine moved carol).
  - reflexivity.
  - vm_compute. reflexivity.
  - vm_compute. discriminate.
  - vm_compute. discriminate.
  - vm_compute. reflexivity.
  - vm_compute. discriminate.
Defined.

Lemma run_m2_repriced :
  Marketplace.updateListing reprice_tx listing1 (2 * ether)
    (enter (world m2) (store m2)) = Ok (tt, m2_repriced).
Proof. vm_compute. reflexivity. Qed.

(** Alice asks 2 ether instead: a buyer with 1.5 is now turned away. *)
Lemma updateListing_changes_price_only_witness :
  Marketplace.getListing (store m2_repriced) listing1
  = Marketplace.l_set_price (2 * ether)
      (Marketplace.getListing (store (enter (world m2) (store m2))) listing1) /\
  Marketplace.buyItem buyer_tx engine listing1
    (enter (world m2_paid) (store m2_repriced))
  = Revert (Require "Insufficient payment").
Proof.
  destruct (updateListing_changes_price_only _ _ _ _ _ run_m2_repriced)
    as (_ & _ & _ & _ & Hl & _ & _ & _ & _ & _ & _ & Hbuy).
  split; [exact Hl|].
  apply Hbuy; [reflexivity|reflexivity|vm_compute; reflexivity].
Defined.




Lemma reach_e1 : Escrow.reachable (store e1).
Proof.
  unfold e1. apply escrow_step_reach; [|vm_compute; reflexivity].
  apply Escrow.reachable_init.
Qed.



Lemma issued_e2 : EscrowLife.issued (store (enter (world e2) (store e2))) 1.
Proof. split; reflexivity. Qed.







Lemma run_e3_body :
  Escrow.initiateDispute dispute_tx 1 (enter (world e2) (store e2))
  = Ok (tt, e3).
Proof. vm_compute. reflexivity. Qed.

(** Bob disputes escrow 1 in time; from then on even a cancellation after
    the deadline is rejected. *)
Lemma dispute_window_and_freeze_witness :
  Escrow.getEscrow (store e3) 1
  = Escrow.set_status Escrow.Disputed
      (Escrow.getEscrow (store (enter (world e2) (store e2))) 1) /\
  Escrow.cancelEscrow late_tx 1 (enter genesis (store e3))
  = Revert (Require "Escrow not active").
Proof.
  destruct (dispute_window_and_freeze dispute_tx 1
              (enter (world e2) (store e2))) as (_ & _ & Hafter).
  - exact issued_e2.
  - reflexivity.
  - vm_compute. discriminate.
  - destruct (Hafter e3 run_e3_body) as (Hrec & Hrej).
    split; [exact Hrec|].
    destruct (Hrej late_tx genesis) as (_ & Hc & _). exact Hc.
Defined.

End MoreRuns.

(** * Receivers that call back *)

(** ** Scripts *)

Section Scripts.
Context {W S C : Type}.
Implicit Types (c : ctx W S) (p : Reentrancy.script W C).

(** A relation between the context a receiver is called in and the one it
    returns that every nested call respects is respected by the script. *)
Lemma follow_preserves (P : ctx W S -> ctx W S -> Prop) run e p c c' :
  (forall c, P c c) ->
  (forall c1 c2 c3, P c1 c2 -> P c2 c3 -> P c1 c3) ->
  (forall f c, P c (Ctx (f (world c)) (store c) (log c))) ->
  (forall e1 call c1 c2, run e1 call c1 = Ok (tt, c2) -> P c1 c2) ->
  Reentrancy.follow run e p c = Ok (tt, c') -> P c c'.
Proof.
  intros Hrefl Htrans Hact Hrun. revert c.
  induction p as [| |f next IH|from val call next IH]; intros c Hp; simpl in Hp.
  - inversion Hp. subst. apply Hrefl.
  - discriminate.
  - eapply Htrans; [apply (Hact f)|]. by apply IH.
  - destruct (run _ call c) as [[[] c1]|err] eqn:Hcall.
    + eapply Htrans; [by eapply Hrun|]. by eapply IH.
    + by eapply IH.
Qed.

(** The only revert of a script is its own refusal. *)
Lemma follow_revert run e p c err :
  Reentrancy.follow run e p c = Revert err ->
  err = CallFailed "onERC721Received".
Proof.
  revert c. induction p as [| |f next IH|from val call next IH];
    intros c Hp; simpl in Hp.
  - discriminate.
  - by inversion Hp.
  - by eapply IH.
  - destruct (run _ call c) as [[[] c1]|err'] eqn:Hcall; by eapply IH.
Qed.

Context (exec : Receivers W S -> env -> C -> M W S unit)
        (nonReentrant : C -> bool) (code : Reentrancy.accounts W S C).

Lemma callbacks_revert depth locked e nft from to tokenId c err :
  Reentrancy.callbacks exec nonReentrant code depth locked e nft from to
    tokenId c = Revert err ->
  err = CallFailed "onERC721Received".
Proof.
  destruct depth; simpl; destruct (to =? this e); try discriminate;
    apply follow_revert.
Qed.

(** What every call let in under a guard in state [ok] respects, as long
    as the receivers it calls do, the receivers of the chain respect. *)
Lemma callbacks_preserves (P : ctx W S -> ctx W S -> Prop)
    (ok : bool -> Prop) :
  (forall c, P c c) ->
  (forall c1 c2 c3, P c1 c2 -> P c2 c3 -> P c1 c3) ->
  (forall f c, P c (Ctx (f (world c)) (store c) (log c))) ->
  (forall (inner : bool -> Receivers W S) locked e call c c',
      ok locked ->
      (forall l e1 nft from to tokenId c1 c2,
          ok l -> inner l e1 nft from to tokenId c1 = Ok (tt, c2) -> P c1 c2) ->
      Reentrancy.dispatch exec nonReentrant inner locked e call c = Ok (tt, c') ->
      P c c') ->
  forall depth locked e nft from to tokenId c c',
    ok locked ->
    Reentrancy.callbacks exec nonReentrant code depth locked e nft from to
      tokenId c = Ok (tt, c') ->
    P c c'.
Proof.
  intros Hrefl Htrans Hact Hstep.
  induction depth as [|depth IH]; intros locked e nft from to tokenId c c' Hok;
    simpl; destruct (to =? this e).
  - inversion 1. subst. apply Hrefl.
  - apply follow_preserves; try done.
  - inversion 1. subst. apply Hrefl.
  - apply follow_preserves; try done.
    intros e1 call c1 c2. apply Hstep; [done|].
    intros l e2 nft2 from2 to2 tokenId2 c3 c4 Hl. by apply IH.
Qed.
End Scripts.

Section MarketHandover.
Import Marketplace MarketInv MarketAdmin Expected MarketplaceTx.
Context {W : Type} `{Chain W} `{Keccak}.
Implicit Types (s : storage) (w : W) (c : ctx W storage) (e : env)
  (R : Receivers W storage).

Lemma buyItem_handover R e re listingId c c' :
  buyItem (receivers := R) e re listingId c = Ok (tt, c') ->
  let l := sload (listings (store c)) listingId in
  paused (store c) = false /\
  l_active l = true /\
  timestamp e < l_expiresAt l /\
  l_price l <= value e /\
  sender e <> l_seller l /\
  exists royaltyRecipient royaltyAmount ci c1,
    RoyaltyEngine.getRoyalty (l_nftContract l) (l_tokenId l) (l_price l)
      (Ctx (world c) re []) = Ok ((royaltyRecipient, royaltyAmount), ci) /\
    let fee := l_price l * marketplaceFeePercentage (store c) / 10000 in
    let sellerAmount := l_price l - fee - royaltyAmount in
    fee + royaltyAmount <= l_price l /\
    nftSafeTransferFrom (receivers := R) e (l_nftContract l) (l_seller l)
      (sender e) (l_tokenId l)
      (Ctx (world c) (deactivate listingId (store c)) (log c)) = Ok (tt, c1) /\
    let l1 := sload (listings (store c1)) listingId in
    log c' = log c1
      ++ settlement (l_seller l1) (feeRecipient (store c1)) royaltyRecipient
           sellerAmount fee royaltyAmount
      ++ refund (sender e) (value e) (l_price l1)
      ++ [Emit "ItemSold" [listingId; sender e; l_seller l1; l_nftContract l1;
                           l_tokenId l1; l_price l1]] /\
    store c' = set_totalVolume (totalVolume (store c1) + l_price l1)
                 (set_totalSales (totalSales (store c1) + 1) (store c1)).
Proof.
  unfold buyItem, whenNotPaused, validListing. intros Hrun.
  minv_in Hrun.
  all: apply negb_true_iff in Hreq; apply negb_true_iff, N.eqb_neq in Hreq3.
  all: apply N.ltb_lt in Hreq1; apply N.leb_le in Hreq2.
  all: repeat split; try done.
  all: do 4 eexists; split; [eassumption|].
  all: cbn zeta; split; [done|]; split; [destruct x8; exact Hm|].
  all: rewrite ?Hstore, ?Hlog; simpl; split; [|done].
  all: unfold refund; rewrite Hif; by list_assoc.
Qed.

Lemma acceptOffer_handover R e re offerId c c' :
  acceptOffer (receivers := R) e re offerId c = Ok (tt, c') ->
  let o := sload (offers (store c)) offerId in
  paused (store c) = false /\
  o_active o = true /\
  timestamp e < o_expiresAt o /\
  exists royaltyRecipient royaltyAmount ci c1 cancelled,
    RoyaltyEngine.getRoyalty (o_nftContract o) (o_tokenId o) (o_amount o)
      (Ctx (world c) re []) = Ok ((royaltyRecipient, royaltyAmount), ci) /\
    let fee := o_amount o * marketplaceFeePercentage (store c) / 10000 in
    let sellerAmount := o_amount o - fee - royaltyAmount in
    fee + royaltyAmount <= o_amount o /\
    nftSafeTransferFrom (receivers := R) e (o_nftContract o) (sender e)
      (o_buyer o) (o_tokenId o)
      (Ctx (world c) (set_offers <[offerId := o_set_active false o]> (store c))
         (log c)) = Ok (tt, c1) /\
    let o1 := sload (offers (store c1)) offerId in
    log c' = log c1
      ++ settlement (sender e) (feeRecipient (store c1)) royaltyRecipient
           sellerAmount fee royaltyAmount
      ++ cancelled
      ++ [Emit "OfferAccepted" [offerId; sender e; o_buyer o1; o_amount o1]] /\
    payments cancelled = [] /\
    offers (store c') = offers (store c1) /\
    marketplaceFeePercentage (store c') = marketplaceFeePercentage (store c1).
Proof.
  unfold acceptOffer, whenNotPaused, validOffer, engineApproved, cancelExisting,
    _cancelListing.
  intros Hrun. minv_in Hrun.
  all: apply negb_true_iff in Hreq; apply N.ltb_lt in Hreq1.
  all: repeat split; try done.
  all: match goal with
       | Hm : nftSafeTransferFrom _ _ _ _ _ _ = Ok (?u, ?cm) |- _ =>
           destruct u; exists n, n0; eexists; exists cm
       end.
  1, 3: match goal with
        | Hm : nftSafeTransferFrom _ _ _ _ _ _ = Ok (_, ?cm) |- _ =>
            exists [Emit "ListingCancelled"
                      [sload (tokenToListingId (store cm))
                         (o_nftContract (sload (offers (store cm)) offerId),
                          o_tokenId (sload (offers (store cm)) offerId))]]
        end.
  3, 4: exists [].
  all: split; [eassumption|].
  all: cbn zeta; split; [done|]; split; [eassumption|].
  all: rewrite ?Hstore, ?Hlog; simpl; repeat split; try done.
  all: by list_assoc.
Qed.

(** *** What a receiver can do under the guard *)

Lemma undisturbed_refl s : undisturbed s s.
Proof. unfold undisturbed. done. Qed.

Lemma undisturbed_trans s1 s2 s3 :
  undisturbed s1 s2 -> undisturbed s2 s3 -> undisturbed s1 s3.
Proof.
  intros (Hl1 & Ho1 & Hc1 & Hf1) (Hl2 & Ho2 & Hc2 & Hf2).
  split; [|split; [|split]].
  - intros id Hoff. rewrite Hl2; [by apply Hl1|]. by rewrite Hl1.
  - intros id Hoff. rewrite Ho2; [by apply Ho1|]. by rewrite Ho1.
  - congruence.
  - auto.
Qed.

Lemma quietly_refl c : quietly c c.
Proof. split; [apply undisturbed_refl|]. exists []. by rewrite app_nil_r. Qed.

Lemma quietly_trans c1 c2 c3 : quietly c1 c2 -> quietly c2 c3 -> quietly c1 c3.
Proof.
  intros [Hu1 [n1 Hn1]] [Hu2 [n2 Hn2]]. split.
  - by eapply undisturbed_trans.
  - exists (n1 ++ n2). by rewrite Hn2, Hn1, app_assoc.
Qed.

Lemma undisturbed_listing s s' listingId (l' : Listing) :
  l_active (sload (listings s) listingId) = true ->
  listings s' = <[listingId := l']> (listings s) ->
  offers s' = offers s ->
  counters s' = counters s ->
  marketplaceFeePercentage s' = marketplaceFeePercentage s ->
  undisturbed s s'.
Proof.
  intros Hact Hl Ho Hc Hf. split; [|split; [|split]].
  - intros id Hoff. rewrite Hl.
    destruct (decide (listingId = id)) as [->|Hne]; [congruence|].
    by rewrite sload_insert_ne.
  - intros id _. by rewrite Ho.
  - done.
  - by rewrite Hf.
Qed.

Lemma undisturbed_settings s s' :
  listings s' = listings s -> offers s' = offers s ->
  counters s' = counters s ->
  (marketplaceFeePercentage s <= MAX_FEE_PERCENTAGE ->
   marketplaceFeePercentage s' <= MAX_FEE_PERCENTAGE) ->
  undisturbed s s'.
Proof.
  intros Hl Ho Hc Hf. split; [|split; [|split]]; try done.
  - intros id _. by rewrite Hl.
  - intros id _. by rewrite Ho.
Qed.

(** A call let in while the guard is held. *)
Lemma dispatch_locked_quietly (inner : bool -> Receivers W storage) e call c c' :
  Reentrancy.dispatch run nonReentrant inner true e call c = Ok (tt, c') ->
  quietly c c'.
Proof.
  unfold Reentrancy.dispatch, run. destruct call as [re call].
  destruct call; cbn [nonReentrant fst snd]; try discriminate; intros Hrun.
  all: unfold exec, cancelListing, updateListing, cancelOffer,
         setContractWhitelist, setMarketplaceFee, setFeeRecipient,
         setRoyaltyEngine, pause, unpause, emergencyWithdraw,
         transferOwnership, renounceOwnership, onlyOwner, whenNotPaused,
         whenPaused, validListing, validOffer, _cancelListing in Hrun.
  all: minv_in Hrun.
  all: split;
         [|first [ exists []; cbn; by rewrite app_nil_r
                 | eexists; cbn; by list_assoc ]].
  all: try (apply undisturbed_settings; cbn; try done; fail).
  - eapply undisturbed_listing; try done.
  - eapply undisturbed_listing; try done.
  - split; [|split; [|split]]; cbn; try done.
    intros id Hoff.
    destruct (decide (offerId = id)) as [->|Hne]; [congruence|].
    by rewrite sload_insert_ne.
  - apply undisturbed_settings; cbn; try done. intros _. by apply N.leb_le.
Qed.

(** Hence what the receivers of the chain can do under the guard. *)
Lemma callbacks_locked_quietly code depth e nft from to tokenId c c' :
  callbacks code depth true e nft from to tokenId c = Ok (tt, c') ->
  quietly c c'.
Proof.
  unfold callbacks.
  apply (callbacks_preserves run nonReentrant code quietly (fun l => l = true)).
  - apply quietly_refl.
  - apply quietly_trans.
  - intros f c0. split; [apply undisturbed_refl|].
    exists []. cbn. by rewrite app_nil_r.
  - intros inner locked e0 call c0 c1 -> _. apply dispatch_locked_quietly.
  - done.
Qed.

Lemma handover_locked_quietly code depth e nft from to tokenId c c' :
  nftSafeTransferFrom (receivers := callbacks code depth true) e nft from to
    tokenId c = Ok (tt, c') ->
  undisturbed (store c) (store c') /\
  exists nested, log c' = log c ++ [MoveNft nft from to tokenId] ++ nested.
Proof.
  unfold nftSafeTransferFrom.
  destruct (safeTransferFrom _ _ _ _ _ _) as [w1|]; [|discriminate].
  intros Hcb. apply callbacks_locked_quietly in Hcb as [Hu [nested Hn]].
  split; [exact Hu|]. exists nested. rewrite Hn. cbn. by rewrite <- app_assoc.
Qed.
End MarketHandover.

(** ** Escrow: what is done before and after the token is handed over *)

Section EscrowHandover.
Import Escrow EscrowInv EscrowLife Expected EscrowTx.
Context {W : Type} `{Chain W}.
Implicit Types (s : storage) (w : W) (c : ctx W storage) (e : env)
  (R : Receivers W storage).

Lemma completeEscrow_handover R e escrowId c u c' :
  _completeEscrow (receivers := R) e escrowId c = Ok (u, c') ->
  let x := sload (escrowTransactions (store c)) escrowId in
  let fee := price x * escrowFeePercentage (store c) / 10000 in
  price x * escrowFeePercentage (store c) <= MAX_UINT256 /\
  fee <= price x /\
  exists c1,
    nftSafeTransferFrom (receivers := R) e (nftContract x) (this e) (buyer x)
      (tokenId x)
      (Ctx (world c)
         (set_escrowTransactions <[escrowId := set_status Completed x]>
            (store c))
         (log c)) = Ok (tt, c1) /\
    let x1 := sload (escrowTransactions (store c1)) escrowId in
    store c' = store c1 /\
    log c' = log c1
             ++ settlement (seller x1) (feeRecipient (store c1)) 0
                  (price x - fee) fee 0
             ++ [Emit "EscrowCompleted" [escrowId]].
Proof.
  unfold _completeEscrow, settlement. intros Hrun.
  minv_in Hrun.
  all: match goal with
       | Hm : nftSafeTransferFrom _ _ _ _ _ _ = Ok (?u, ?cm) |- _ =>
           destruct u; split; [done|]; split; [done|]; exists cm
       end.
  all: split; [eassumption|]; split; [done|].
  all: rewrite ?Hif; by list_assoc.
Qed.

Lemma unwind_handover R e escrowId x c u c' :
  unwind (receivers := R) e escrowId x c = Ok (u, c') ->
  exists c1,
    nftSafeTransferFrom (receivers := R) e (nftContract x) (this e) (seller x)
      (tokenId x)
      (Ctx (world c)
         (set_escrowTransactions <[escrowId := set_status Cancelled x]>
            (store c))
         (log c)) = Ok (tt, c1) /\
    let x1 := sload (escrowTransactions (store c1)) escrowId in
    send (world c1) (this e) (buyer x1) (price x1) = Some (world c') /\
    store c' = store c1 /\
    log c' = log c1 ++ [SendEth (buyer x1) (price x1)].
Proof.
  unfold unwind. intros Hrun. minv_in Hrun.
  match goal with
  | Hm : nftSafeTransferFrom _ _ _ _ _ _ = Ok (?u, ?cm) |- _ =>
      destruct u; exists cm
  end.
  done.
Qed.

(** Inversion of the composite steps, whoever the receivers are. *)
Ltac minv_handover H :=
  lazymatch type of H with
  | _completeEscrow _ _ _ = Ok _ =>
      let Hs := fresh "Hstore" in
      let Hl := fresh "Hlog" in
      let Hh := fresh "Hhand" in
      apply completeEscrow_handover in H;
      destruct H as (? & ? & ? & Hh & Hs & Hl)
  | unwind _ _ _ _ = Ok _ =>
      let Hs := fresh "Hstore" in
      let Hl := fresh "Hlog" in
      let Hh := fresh "Hhand" in
      let Hw := fresh "Hsend" in
      apply unwind_handover in H; destruct H as (? & Hh & Hw & Hs & Hl)
  end.
Ltac minv_user H ::= minv_handover H.

Lemma approveEscrow_handover R e escrowId c c' :
  approveEscrow (receivers := R) e escrowId c = Ok (tt, c') ->
  let x := sload (escrowTransactions (store c)) escrowId in
  let x' := if sender e =? seller x
            then set_sellerApproved true x
            else set_buyerApproved true x in
  let fee := price x * escrowFeePercentage (store c) / 10000 in
  0 < escrowId < nextEscrowId (store c) /\
  status x = Active /\
  (sender e = seller x \/ sender e = buyer x) /\
  ((bothApproved x' = true /\
    fee <= price x /\
    exists c1,
      nftSafeTransferFrom (receivers := R) e (nftContract x) (this e)
        (buyer x) (tokenId x)
        (Ctx (world c)
           (set_escrowTransactions <[escrowId := set_status Completed x']>
              (store c))
           (log c)) = Ok (tt, c1) /\
      let x1 := sload (escrowTransactions (store c1)) escrowId in
      store c' = store c1 /\
      log c' = log c1
               ++ settlement (seller x1) (feeRecipient (store c1)) 0
                    (price x - fee) fee 0
               ++ [Emit "EscrowCompleted" [escrowId]])
   \/
   (bothApproved x' = false /\
    store c' = set_escrowTransactions <[escrowId := x']> (store c) /\
    log c' = log c /\ world c' = world c)).
Proof.
  unfold approveEscrow, validEscrow, bothApproved. intros Hrun.
  minv_in Hrun.
  all: rewrite ?sload_insert_eq in *; simpl in *.
  all: apply andb_true_iff in Hreq as [Hlo Hhi];
       apply N.ltb_lt in Hlo; apply N.ltb_lt in Hhi.
  all: apply status_eqb_eq in Hreq0.
  all: split; [done|]; split; [done|]; split;
       [first [left; by apply N.eqb_eq | right; by apply N.eqb_eq]|].
  all: rewrite ?Hif; simpl.
  1, 3: left; split; [done|]; split; [done|];
        match goal with
        | Hh : nftSafeTransferFrom _ _ _ _ _ _ = Ok (_, ?cm) |- _ =>
            exists cm; unfold set_escrowTransactions in Hh; simpl in Hh;
            rewrite insert_insert_eq in Hh
        end; done.
  all: right; done.
Qed.

Lemma cancelEscrow_handover R e escrowId c c' :
  cancelEscrow (receivers := R) e escrowId c = Ok (tt, c') ->
  let x := sload (escrowTransactions (store c)) escrowId in
  0 < escrowId < nextEscrowId (store c) /\
  status x = Active /\
  (sender e = seller x \/ sender e = buyer x \/ deadline x < timestamp e) /\
  exists c1,
    nftSafeTransferFrom (receivers := R) e (nftContract x) (this e) (seller x)
      (tokenId x)
      (Ctx (world c)
         (set_escrowTransactions <[escrowId := set_status Cancelled x]>
            (store c))
         (log c)) = Ok (tt, c1) /\
    let x1 := sload (escrowTransactions (store c1)) escrowId in
    send (world c1) (this e) (buyer x1) (price x1) = Some (world c') /\
    store c' = store c1 /\
    log c' = log c1 ++ [SendEth (buyer x1) (price x1);
                        Emit "EscrowCancelled" [escrowId]].
Proof.
  unfold cancelEscrow, validEscrow. intros Hrun. minv_in Hrun.
  apply andb_true_iff in Hreq as [Hlo Hhi].
  apply N.ltb_lt in Hlo. apply N.ltb_lt in Hhi.
  apply status_eqb_eq in Hreq0.
  rewrite !orb_true_iff, !N.eqb_eq, N.ltb_lt in Hreq1.
  repeat split; try done; [tauto|].
  eexists. split; [eassumption|]. cbn zeta. split; [done|]. split; [done|].
  rewrite Hlog. by list_assoc.
Qed.

Lemma resolveDispute_handover R e escrowId favorBuyer c c' :
  resolveDispute (receivers := R) e escrowId favorBuyer c = Ok (tt, c') ->
  let x := sload (escrowTransactions (store c)) escrowId in
  let fee := price x * escrowFeePercentage (store c) / 10000 in
  sender e = disputeResolver (store c) /\
  0 < escrowId < nextEscrowId (store c) /\
  status x = Disputed /\
  ((favorBuyer = true /\
    fee <= price x /\
    exists c1,
      nftSafeTransferFrom (receivers := R) e (nftContract x) (this e)
        (buyer x) (tokenId x)
        (Ctx (world c)
           (set_escrowTransactions <[escrowId := set_status Completed x]>
              (store c))
           (log c)) = Ok (tt, c1) /\
      let x1 := sload (escrowTransactions (store c1)) escrowId in
      store c' = store c1 /\
      log c' = log c1
               ++ settlement (seller x1) (feeRecipient (store c1)) 0
                    (price x - fee) fee 0
               ++ [Emit "EscrowCompleted" [escrowId];
                   Emit "DisputeResolved" [escrowId; 1]])
   \/
   (favorBuyer = false /\
    exists c1,
      nftSafeTransferFrom (receivers := R) e (nftContract x) (this e)
        (seller x) (tokenId x)
        (Ctx (world c)
           (set_escrowTransactions <[escrowId := set_status Cancelled x]>
              (store c))
           (log c)) = Ok (tt, c1) /\
      let x1 := sload (escrowTransactions (store c1)) escrowId in
      send (world c1) (this e) (buyer x1) (price x1) = Some (world c') /\
      store c' = store c1 /\
      log c' = log c1 ++ [SendEth (buyer x1) (price x1);
                          Emit "DisputeResolved" [escrowId; 0]])).
Proof.
  unfold resolveDispute, onlyDisputeResolver, validEscrow. intros Hrun.
  minv_in Hrun.
  all: apply N.eqb_eq in Hreq; apply status_eqb_eq in Hreq1.
  all: apply andb_true_iff in Hreq0 as [Hlo Hhi];
       apply N.ltb_lt in Hlo; apply N.ltb_lt in Hhi.
  all: split; [done|]; split; [done|]; split; [done|].
  - left. split; [done|]. split; [done|]. eexists. split; [eassumption|].
    cbn zeta. split; [done|]. rewrite Hlog. by list_assoc.
  - right. split; [done|]. eexists. split; [eassumption|].
    cbn zeta. split; [done|]. split; [done|]. rewrite Hlog. by list_assoc.
Qed.

Lemma createEscrow_handover R e buyer0 nft tokenId0 deadline0 c c' :
  createEscrow (receivers := R) e buyer0 nft tokenId0 deadline0 c = Ok (tt, c') ->
  let escrowId := nextEscrowId (store c) in
  let new := {| seller := sender e; buyer := buyer0; nftContract := nft;
                tokenId := tokenId0; price := value e;
                createdAt := timestamp e; deadline := deadline0;
                status := Active; sellerApproved := false;
                buyerApproved := false |} in
  wellFormed new /\
  sload (whitelistedContracts (store c)) nft = true /\
  ownerOf (world c) nft tokenId0 = Some (sender e) /\
  exists c1,
    nftSafeTransferFrom (receivers := R) e nft (sender e) (this e) tokenId0
      (Ctx (world c)
         (set_userEscrows
            (fun m => <[buyer0 := sload m buyer0 ++ [escrowId]]> m)
            (set_userEscrows
               (fun m => <[sender e := sload m (sender e) ++ [escrowId]]> m)
               (set_escrowTransactions <[escrowId := new]>
                  (set_nextEscrowId (escrowId + 1) (store c)))))
         (log c)) = Ok (tt, c1) /\
    world c' = world c1 /\
    store c' = store c1 /\
    log c' = log c1 ++ [Emit "EscrowCreated"
                          [escrowId; sender e; buyer0; nft; tokenId0; value e]].
Proof.
  unfold createEscrow, whenNotPaused, wellFormed. intros Hrun. minv_in Hrun.
  all: apply negb_true_iff, N.eqb_neq in Hreq0, Hreq1.
  all: apply N.ltb_lt in Hreq3, Hreq4. all: apply N.eqb_eq in Hreq5.
  all: subst; repeat split; try done.
  all: match goal with
       | Hm : nftSafeTransferFrom _ _ _ _ _ _ = Ok (?u, ?cm) |- _ =>
           destruct u; exists cm
       end; done.
Qed.

(** *** What every call keeps *)

Lemma kept_refl s : kept s s.
Proof. unfold kept. repeat split; try done. Qed.

Lemma kept_trans s1 s2 s3 : kept s1 s2 -> kept s2 s3 -> kept s1 s3.
Proof.
  intros (Hn1 & Hr1 & Hf1 & Hw1) (Hn2 & Hr2 & Hf2 & Hw2).
  split; [lia|]. split; [|split; [auto|congruence]].
  intros id Hid. cbn zeta.
  assert (issued s2 id) as Hid2 by (unfold issued in *; lia).
  destruct (Hr1 id Hid) as [Ht1 Hs1]. destruct (Hr2 id Hid2) as [Ht2 Hs2].
  cbn zeta in *. split; [congruence|].
  intros Hset. rewrite <- (Hs1 Hset). apply Hs2. by rewrite (Hs1 Hset).
Qed.

Lemma keeping_refl c : keeping c c.
Proof. split; [apply kept_refl|]. exists []. by rewrite app_nil_r. Qed.

Lemma keeping_trans c1 c2 c3 : keeping c1 c2 -> keeping c2 c3 -> keeping c1 c3.
Proof.
  intros [Hu1 [n1 Hn1]] [Hu2 [n2 Hn2]]. split.
  - by eapply kept_trans.
  - exists (n1 ++ n2). by rewrite Hn2, Hn1, app_assoc.
Qed.

(** Rewriting an escrow that is not settled, its terms left alone. *)
Lemma kept_update s s' escrowId (x' : EscrowTransaction) :
  escrowTransactions s' = <[escrowId := x']> (escrowTransactions s) ->
  terms x' = terms (sload (escrowTransactions s) escrowId) ->
  ~ settled (sload (escrowTransactions s) escrowId) ->
  nextEscrowId s' = nextEscrowId s ->
  escrowFeePercentage s' = escrowFeePercentage s ->
  disputeWindow s' = disputeWindow s ->
  kept s s'.
Proof.
  intros He Ht Hopen Hn Hf Hw. split; [lia|]. split; [|split; [by rewrite Hf|done]].
  intros id _. cbn zeta. rewrite He.
  destruct (decide (escrowId = id)) as [->|Hne].
  - rewrite sload_insert_eq. done.
  - by rewrite sload_insert_ne.
Qed.

Lemma kept_settings s s' :
  escrowTransactions s' = escrowTransactions s ->
  nextEscrowId s' = nextEscrowId s ->
  (escrowFeePercentage s <= MAX_FEE_PERCENTAGE ->
   escrowFeePercentage s' <= MAX_FEE_PERCENTAGE) ->
  disputeWindow s' = disputeWindow s ->
  kept s s'.
Proof.
  intros He Hn Hf Hw. split; [lia|]. split; [|done].
  intros id _. cbn zeta. by rewrite He.
Qed.

(** Recording a new escrow under the next id. *)
Lemma kept_create s s' (x' : EscrowTransaction) :
  escrowTransactions s' = <[nextEscrowId s := x']> (escrowTransactions s) ->
  nextEscrowId s' = nextEscrowId s + 1 ->
  escrowFeePercentage s' = escrowFeePercentage s ->
  disputeWindow s' = disputeWindow s ->
  kept s s'.
Proof.
  intros He Hn Hf Hw. split; [lia|]. split; [|split; [by rewrite Hf|done]].
  intros id Hid. cbn zeta. rewrite He.
  rewrite sload_insert_ne; [done|]. unfold issued in Hid. lia.
Qed.

Lemma open_active (x : EscrowTransaction) : status x = Active -> ~ settled x.
Proof. unfold settled. intros ->. by intros [?|?]. Qed.

Lemma open_disputed (x : EscrowTransaction) : status x = Disputed -> ~ settled x.
Proof. unfold settled. intros ->. by intros [?|?]. Qed.

Lemma handover_keeping R e nft from to tokenId c c' :
  (forall e1 nft1 from1 to1 tokenId1 c1 c2,
      received (Receivers := R) e1 nft1 from1 to1 tokenId1 c1 = Ok (tt, c2) ->
      keeping c1 c2) ->
  nftSafeTransferFrom (receivers := R) e nft from to tokenId c = Ok (tt, c') ->
  kept (store c) (store c') /\
  exists nested, log c' = log c ++ [MoveNft nft from to tokenId] ++ nested.
Proof.
  intros HR. unfold nftSafeTransferFrom.
  destruct (safeTransferFrom _ _ _ _ _ _) as [w1|]; [|discriminate].
  intros Hcb. apply HR in Hcb as [Hu [nested Hn]].
  split; [exact Hu|]. exists nested. rewrite Hn. cbn. by rewrite <- app_assoc.
Qed.

(** Every call keeps the escrows on record, if the receivers it hands a
    token to do. *)
Lemma exec_keeping R e call c c' :
  (forall e1 nft1 from1 to1 tokenId1 c1 c2,
      received (Receivers := R) e1 nft1 from1 to1 tokenId1 c1 = Ok (tt, c2) ->
      keeping c1 c2) ->
  exec (receivers := R) e call c = Ok (tt, c') ->
  keeping c c'.
Proof.
  intros HR Hrun. destruct call; unfold exec in Hrun;
    apply bind_ok in Hrun as (? & c1 & Hentry & Hrun); minv Hentry;
    cbn [world store log] in *.
  - apply createEscrow_handover in Hrun as (_ & _ & _ & cm & Hh & _ & Hs & Hl).
    apply (handover_keeping R) in Hh as [Hk [nested Hn]]; [|done].
    cbn [world store log] in *. split.
    + rewrite Hs. eapply kept_trans; [|exact Hk].
      eapply kept_create; reflexivity.
    + eexists. rewrite Hl, Hn. by list_assoc.
  - apply approveEscrow_handover in Hrun as (Hid & Hact & _ & Hcases).
    cbn zeta in Hcases.
    destruct Hcases as [(_ & _ & cm & Hh & Hs & Hl)|(_ & Hs & Hl & _)].
    + apply (handover_keeping R) in Hh as [Hk [nested Hn]]; [|done].
      cbn [world store log] in *. split.
      * rewrite Hs. eapply kept_trans; [|exact Hk].
        eapply kept_update; try reflexivity; [|by apply open_active].
        by destruct (sender e =? _).
      * eexists. rewrite Hl, Hn. by list_assoc.
    + split; [|exists []; by rewrite Hl, app_nil_r].
      rewrite Hs. eapply kept_update; try reflexivity; [|by apply open_active].
      by destruct (sender e =? _).
  - apply cancelEscrow_handover in Hrun as (Hid & Hact & _ & cm & Hh & _ & Hs & Hl).
    apply (handover_keeping R) in Hh as [Hk [nested Hn]]; [|done].
    cbn [world store log] in *. split.
    + rewrite Hs. eapply kept_trans; [|exact Hk].
      eapply kept_update; try reflexivity. by apply open_active.
    + eexists. rewrite Hl, Hn. by list_assoc.
  - unfold initiateDispute, validEscrow in Hrun. minv_in Hrun.
    apply status_eqb_eq in Hreq0. split; [|eexists; by list_assoc].
    eapply kept_update; try reflexivity. by apply open_active.
  - apply resolveDispute_handover in Hrun as (_ & Hid & Hdis & Hcases).
    cbn zeta in Hcases.
    destruct Hcases as [(_ & _ & cm & Hh & Hs & Hl)|(_ & cm & Hh & _ & Hs & Hl)].
    + apply (handover_keeping R) in Hh as [Hk [nested Hn]]; [|done].
      cbn [world store log] in *. split.
      * rewrite Hs. eapply kept_trans; [|exact Hk].
        eapply kept_update; try reflexivity. by apply open_disputed.
      * eexists. rewrite Hl, Hn. by list_assoc.
    + apply (handover_keeping R) in Hh as [Hk [nested Hn]]; [|done].
      cbn [world store log] in *. split.
      * rewrite Hs. eapply kept_trans; [|exact Hk].
        eapply kept_update; try reflexivity. by apply open_disputed.
      * eexists. rewrite Hl, Hn. by list_assoc.
  - unfold setContractWhitelist, onlyOwner in Hrun. minv_in Hrun.
    split; [by apply kept_settings|eexists; by list_assoc].
  - unfold setEscrowFee, onlyOwner in Hrun. minv_in Hrun.
    split; [|eexists; by list_assoc].
    apply kept_settings; try done. intros _. by apply N.leb_le.
  - unfold setFeeRecipient, onlyOwner in Hrun. minv_in Hrun.
    split; [by apply kept_settings|exists []; by rewrite app_nil_r].
  - unfold setDisputeResolver, onlyOwner in Hrun. minv_in Hrun.
    split; [by apply kept_settings|exists []; by rewrite app_nil_r].
  - unfold pause, onlyOwner, whenNotPaused in Hrun. minv_in Hrun.
    split; [by apply kept_settings|eexists; by list_assoc].
  - unfold unpause, onlyOwner, whenPaused in Hrun. minv_in Hrun.
    split; [by apply kept_settings|eexists; by list_assoc].
  - unfold emergencyWithdraw, onlyOwner, whenPaused in Hrun. minv_in Hrun.
    split; [by apply kept_settings|eexists; by list_assoc].
  - unfold transferOwnership, onlyOwner in Hrun. minv_in Hrun.
    split; [by apply kept_settings|eexists; by list_assoc].
  - unfold renounceOwnership, onlyOwner in Hrun. minv_in Hrun.
    split; [by apply kept_settings|eexists; by list_assoc].
Qed.

(** Hence the receivers of the chain keep them, whatever they call. *)
Lemma dispatch_keeping (inner : bool -> Receivers W storage) locked e call c c' :
  (forall l e1 nft from to tokenId c1 c2,
      inner l e1 nft from to tokenId c1 = Ok (tt, c2) -> keeping c1 c2) ->
  Reentrancy.dispatch run nonReentrant inner locked e call c = Ok (tt, c') ->
  keeping c c'.
Proof.
  intros Hin. unfold Reentrancy.dispatch, run.
  destruct (nonReentrant call); [destruct locked; [discriminate|]|];
    apply exec_keeping; intros e1 nft1 from1 to1 tokenId1 c1 c2; apply Hin.
Qed.

Lemma callbacks_keeping code depth locked e nft from to tokenId c c' :
  callbacks code depth locked e nft from to tokenId c = Ok (tt, c') ->
  keeping c c'.
Proof.
  unfold callbacks.
  apply (callbacks_preserves run nonReentrant code keeping (fun _ => True)).
  - apply keeping_refl.
  - apply keeping_trans.
  - intros f c0. split; [apply kept_refl|].
    exists []. cbn. by rewrite app_nil_r.
  - intros inner l e0 call c0 c1 _ Hin. apply dispatch_keeping.
    intros l0 e1 nft1 from1 to1 tokenId1 c2 c3. by apply Hin.
  - done.
Qed.

(** The token handed over, and what the receiver has left behind when it
    returns. *)
Lemma handover_kept code depth locked e nft from to tokenId c c' :
  nftSafeTransferFrom (receivers := callbacks code depth locked) e nft from to
    tokenId c = Ok (tt, c') ->
  kept (store c) (store c') /\
  exists nested, log c' = log c ++ [MoveNft nft from to tokenId] ++ nested.
Proof.
  apply handover_keeping. intros e1 nft1 from1 to1 tokenId1 c1 c2.
  apply callbacks_keeping.
Qed.

Lemma transaction_keeping code depth e call c c' :
  transaction code depth e call c = Ok (tt, c') -> keeping c c'.
Proof.
  unfold transaction, Reentrancy.transaction. apply dispatch_keeping.
  intros l e1 nft1 from1 to1 tokenId1 c1 c2. apply callbacks_keeping.
Qed.
End EscrowHandover.

(** ** Sales with receivers that call back *)

Section SalesUnderGuard.
Import Marketplace MarketInv MarketAdmin Expected MarketplaceTx.
Context {W : Type} `{Chain W} `{Keccak}.
Implicit Types (s : storage) (w : W) (c : ctx W storage) (e : env)
  (code : accounts W) (depth : nat).

(** A committed [buyItem]: what it hands over, what the receiver can have
    done, and what it does once the receiver has returned. *)
Lemma buyItem_under_guard code depth e re listingId c c' :
  buyItem (receivers := callbacks code depth true) e re listingId c
  = Ok (tt, c') ->
  let l := sload (listings (store c)) listingId in
  paused (store c) = false /\
  l_active l = true /\
  timestamp e < l_expiresAt l /\
  l_price l <= value e /\
  sender e <> l_seller l /\
  exists royaltyRecipient royaltyAmount ci c1 nested,
    RoyaltyEngine.getRoyalty (l_nftContract l) (l_tokenId l) (l_price l)
      (Ctx (world c) re []) = Ok ((royaltyRecipient, royaltyAmount), ci) /\
    let fee := l_price l * marketplaceFeePercentage (store c) / 10000 in
    let sellerAmount := l_price l - fee - royaltyAmount in
    fee + royaltyAmount <= l_price l /\
    nftSafeTransferFrom (receivers := callbacks code depth true) e
      (l_nftContract l) (l_seller l) (sender e) (l_tokenId l)
      (Ctx (world c) (deactivate listingId (store c)) (log c)) = Ok (tt, c1) /\
    undisturbed (deactivate listingId (store c)) (store c1) /\
    log c1 = log c
      ++ [MoveNft (l_nftContract l) (l_seller l) (sender e) (l_tokenId l)]
      ++ nested /\
    sload (listings (store c1)) listingId = l_set_active false l /\
    log c' = log c1
      ++ settlement (l_seller l) (feeRecipient (store c1)) royaltyRecipient
           sellerAmount fee royaltyAmount
      ++ refund (sender e) (value e) (l_price l)
      ++ [Emit "ItemSold" [listingId; sender e; l_seller l; l_nftContract l;
                           l_tokenId l; l_price l]] /\
    store c' = set_totalVolume (totalVolume (store c1) + l_price l)
                 (set_totalSales (totalSales (store c1) + 1) (store c1)).
Proof.
  intros Hrun. apply buyItem_handover in Hrun
    as (Hp & Hact & Hlive & Hpay & Hself & rr & ra & ci & c1 & Hget & Hle
        & Hh & Hlog & Hs).
  cbn zeta in *. do 5 (split; [done|]).
  destruct (handover_locked_quietly _ _ _ _ _ _ _ _ _ Hh) as [Hu [nested Hn]].
  assert (sload (listings (store c1)) listingId
          = l_set_active false (sload (listings (store c)) listingId)) as Hl1.
  { destruct Hu as (Hl & _). rewrite Hl; unfold deactivate; cbn;
      by rewrite sload_insert_eq. }
  exists rr, ra, ci, c1, nested. rewrite Hl1 in Hlog, Hs. cbn in Hlog, Hs.
  done.
Qed.

(** A committed [acceptOffer], likewise. *)
Lemma acceptOffer_under_guard code depth e re offerId c c' :
  acceptOffer (receivers := callbacks code depth true) e re offerId c
  = Ok (tt, c') ->
  let o := sload (offers (store c)) offerId in
  paused (store c) = false /\
  o_active o = true /\
  timestamp e < o_expiresAt o /\
  exists royaltyRecipient royaltyAmount ci c1 nested cancelled,
    RoyaltyEngine.getRoyalty (o_nftContract o) (o_tokenId o) (o_amount o)
      (Ctx (world c) re []) = Ok ((royaltyRecipient, royaltyAmount), ci) /\
    let fee := o_amount o * marketplaceFeePercentage (store c) / 10000 in
    let sellerAmount := o_amount o - fee - royaltyAmount in
    fee + royaltyAmount <= o_amount o /\
    nftSafeTransferFrom (receivers := callbacks code depth true) e
      (o_nftContract o) (sender e) (o_buyer o) (o_tokenId o)
      (Ctx (world c) (set_offers <[offerId := o_set_active false o]> (store c))
         (log c)) = Ok (tt, c1) /\
    undisturbed (set_offers <[offerId := o_set_active false o]> (store c))
      (store c1) /\
    log c1 = log c
      ++ [MoveNft (o_nftContract o) (sender e) (o_buyer o) (o_tokenId o)]
      ++ nested /\
    log c' = log c1
      ++ settlement (sender e) (feeRecipient (store c1)) royaltyRecipient
           sellerAmount fee royaltyAmount
      ++ cancelled
      ++ [Emit "OfferAccepted" [offerId; sender e; o_buyer o; o_amount o]] /\
    payments cancelled = [] /\
    sload (offers (store c')) offerId = o_set_active false o /\
    marketplaceFeePercentage (store c') = marketplaceFeePercentage (store c1).
Proof.
  intros Hrun. apply acceptOffer_handover in Hrun
    as (Hp & Hact & Hlive & rr & ra & ci & c1 & cancelled & Hget & Hle
        & Hh & Hlog & Hnone & Hs & Hfee).
  cbn zeta in *. do 3 (split; [done|]).
  destruct (handover_locked_quietly _ _ _ _ _ _ _ _ _ Hh) as [Hu [nested Hn]].
  assert (sload (offers (store c1)) offerId
          = o_set_active false (sload (offers (store c)) offerId)) as Ho1.
  { destruct Hu as (_ & Ho & _). rewrite Ho; cbn; by rewrite sload_insert_eq. }
  exists rr, ra, ci, c1, nested, cancelled. rewrite Ho1 in Hlog. cbn in Hlog.
  rewrite Hs, Ho1. done.
Qed.

(** C6. [buyItem] reverts, leaving no state behind, when the listing is
    inactive, when it has expired, and when the caller is its seller.  A
    committed [buyItem] was paid at least the price; it closed the listing
    and handed the token to the buyer, whose code may then have called the
    functions the guard leaves open; when that returned, it made the
    three-way payment, handed the buyer back exactly [payment - price]
    (nothing when they are equal) and logged the sale; and the listing is
    inactive at the end. *)
Theorem buyItem_guards_and_refund code depth (e : env)
    (re : RoyaltyEngine.storage) (listingId : bytes32) (c : ctx W storage) :
  let l := getListing (store c) listingId in
  (l_active l = false \/ l_expiresAt l <= timestamp e \/ sender e = l_seller l ->
   exists err,
     buyItem (receivers := callbacks code depth true) e re listingId c
     = Revert err) /\
  (forall c',
     buyItem (receivers := callbacks code depth true) e re listingId c
     = Ok (tt, c') ->
     l_price l <= value e /\
     l_active (getListing (store c') listingId) = false /\
     exists c1 nested paid,
       nftSafeTransferFrom (receivers := callbacks code depth true) e
         (l_nftContract l) (l_seller l) (sender e) (l_tokenId l)
         (Ctx (world c) (deactivate listingId (store c)) (log c))
       = Ok (tt, c1) /\
       log c1 = log c
         ++ [MoveNft (l_nftContract l) (l_seller l) (sender e) (l_tokenId l)]
         ++ nested /\
       log c' = log c1
         ++ paid
         ++ refund (sender e) (value e) (l_price l)
         ++ [Emit "ItemSold" [listingId; sender e; l_seller l;
                              l_nftContract l; l_tokenId l; l_price l]] /\
       total (payments paid) <= l_price l /\
       refund (sender e) (value e) (l_price l)
       = if l_price l <? value e
         then [SendEth (sender e) (value e - l_price l)] else []).
Proof.
  unfold getListing. cbn zeta. split.
  - intros Hbad.
    match goal with
    | |- exists err, ?m = Revert err =>
        destruct m as [[[] c']|err] eqn:Hrun; [|eauto]
    end.
    apply buyItem_handover in Hrun as (_ & Hact & Hlive & _ & Hself & _).
    exfalso. destruct Hbad as [Hbad|[Hbad|Hbad]]; [congruence| |done].
    clear -Hbad Hlive. lia.
  - intros c' Hrun.
    apply buyItem_under_guard in Hrun
      as (_ & _ & _ & Hpay & _ & rr & ra & ci & c1 & nested & _ & Hle & Hh
          & _ & Hn & Hl1 & Hlog & Hs).
    split; [done|]. split.
    { rewrite Hs. cbn. by rewrite Hl1. }
    exists c1, nested. eexists. split; [exact Hh|]. split; [exact Hn|].
    split; [exact Hlog|]. split; [|done].
    unfold settlement, total.
    match type of Hle with
    | context [?x / 10000] => set (fee := x / 10000) in *
    end.
    clearbody fee. clear -Hle.
    destruct (0 <? _); destruct (_ && _); simpl; lia.
Qed.
End SalesUnderGuard.

(** ** Escrows with receivers that call back *)

Section EscrowCallbacks.
Import Escrow EscrowInv EscrowLife Expected EscrowTx.
Context {W : Type} `{Chain W}.
Implicit Types (s : storage) (w : W) (c : ctx W storage) (e : env)
  (code : accounts W) (depth : nat) (locked : bool).

(** A settled escrow is as it was when the receiver returns. *)
Lemma handover_settled code depth locked e nft from to tokenId c c1 escrowId :
  nftSafeTransferFrom (receivers := callbacks code depth locked) e nft from to
    tokenId c = Ok (tt, c1) ->
  issued (store c) escrowId ->
  settled (sload (escrowTransactions (store c)) escrowId) ->
  sload (escrowTransactions (store c1)) escrowId
  = sload (escrowTransactions (store c)) escrowId /\
  kept (store c) (store c1) /\
  exists nested, log c1 = log c ++ [MoveNft nft from to tokenId] ++ nested.
Proof.
  intros Hh Hid Hset. apply handover_kept in Hh as [Hk Hn].
  split; [|done]. destruct Hk as (_ & Hr & _).
  destruct (Hr escrowId Hid) as [_ Hsame]. by apply Hsame.
Qed.

(** A committed [approveEscrow]. *)
Lemma approveEscrow_with_callbacks code depth locked e escrowId c c' :
  approveEscrow (receivers := callbacks code depth locked) e escrowId c
  = Ok (tt, c') ->
  let x := sload (escrowTransactions (store c)) escrowId in
  let x' := if sender e =? seller x
            then set_sellerApproved true x
            else set_buyerApproved true x in
  let fee := price x * escrowFeePercentage (store c) / 10000 in
  0 < escrowId < nextEscrowId (store c) /\
  status x = Active /\
  (sender e = seller x \/ sender e = buyer x) /\
  ((bothApproved x' = true /\
    fee <= price x /\
    exists c1 nested,
      nftSafeTransferFrom (receivers := callbacks code depth locked) e
        (nftContract x) (this e) (buyer x) (tokenId x)
        (Ctx (world c)
           (set_escrowTransactions <[escrowId := set_status Completed x']>
              (store c))
           (log c)) = Ok (tt, c1) /\
      log c1 = log c
        ++ [MoveNft (nftContract x) (this e) (buyer x) (tokenId x)] ++ nested /\
      sload (escrowTransactions (store c1)) escrowId = set_status Completed x' /\
      store c' = store c1 /\
      log c' = log c1
               ++ settlement (seller x) (feeRecipient (store c1)) 0
                    (price x - fee) fee 0
               ++ [Emit "EscrowCompleted" [escrowId]])
   \/
   (bothApproved x' = false /\
    store c' = set_escrowTransactions <[escrowId := x']> (store c) /\
    log c' = log c /\ world c' = world c)).
Proof.
  intros Hrun. apply approveEscrow_handover in Hrun as (Hid & Hact & Hauth & Hcases).
  cbn zeta in *. do 3 (split; [done|]).
  destruct Hcases as [(Hb & Hfee & c1 & Hh & Hs & Hl)|Hno]; [left|by right].
  split; [done|]. split; [done|].
  destruct (handover_settled _ _ _ _ _ _ _ _ _ _ escrowId Hh)
    as (Hx & _ & nested & Hn).
  { done. }
  { cbn. rewrite sload_insert_eq. by left. }
  cbn in Hx, Hn. rewrite sload_insert_eq in Hx.
  exists c1, nested. rewrite Hx in Hl.
  repeat split; try done.
  rewrite Hl. by destruct (sender e =? _).
Qed.

(** A committed [resolveDispute]. *)
Lemma resolveDispute_with_callbacks code depth locked e escrowId favorBuyer
    c c' :
  resolveDispute (receivers := callbacks code depth locked) e escrowId
    favorBuyer c = Ok (tt, c') ->
  let x := sload (escrowTransactions (store c)) escrowId in
  let fee := price x * escrowFeePercentage (store c) / 10000 in
  sender e = disputeResolver (store c) /\
  0 < escrowId < nextEscrowId (store c) /\
  status x = Disputed /\
  ((favorBuyer = true /\
    fee <= price x /\
    exists c1 nested,
      nftSafeTransferFrom (receivers := callbacks code depth locked) e
        (nftContract x) (this e) (buyer x) (tokenId x)
        (Ctx (world c)
           (set_escrowTransactions <[escrowId := set_status Completed x]>
              (store c))
           (log c)) = Ok (tt, c1) /\
      log c1 = log c
        ++ [MoveNft (nftContract x) (this e) (buyer x) (tokenId x)] ++ nested /\
      sload (escrowTransactions (store c1)) escrowId = set_status Completed x /\
      store c' = store c1 /\
      log c' = log c1
               ++ settlement (seller x) (feeRecipient (store c1)) 0
                    (price x - fee) fee 0
               ++ [Emit "EscrowCompleted" [escrowId];
                   Emit "DisputeResolved" [escrowId; 1]])
   \/
   (favorBuyer = false /\
    exists c1 nested,
      nftSafeTransferFrom (receivers := callbacks code depth locked) e
        (nftContract x) (this e) (seller x) (tokenId x)
        (Ctx (world c)
           (set_escrowTransactions <[escrowId := set_status Cancelled x]>
              (store c))
           (log c)) = Ok (tt, c1) /\
      log c1 = log c
        ++ [MoveNft (nftContract x) (this e) (seller x) (tokenId x)] ++ nested /\
      sload (escrowTransactions (store c1)) escrowId = set_status Cancelled x /\
      send (world c1) (this e) (buyer x) (price x) = Some (world c') /\
      store c' = store c1 /\
      log c' = log c1 ++ [SendEth (buyer x) (price x);
                          Emit "DisputeResolved" [escrowId; 0]])).
Proof.
  intros Hrun.
  apply resolveDispute_handover in Hrun as (Hres & Hid & Hdis & Hcases).
  cbn zeta in *. do 3 (split; [done|]).
  destruct Hcases as [(Hf & Hfee & c1 & Hh & Hs & Hl)
                     |(Hf & c1 & Hh & Hsend & Hs & Hl)]; [left|right].
  - split; [done|]. split; [done|].
    destruct (handover_settled _ _ _ _ _ _ _ _ _ _ escrowId Hh)
      as (Hx & _ & nested & Hn).
    { done. }
    { cbn. rewrite sload_insert_eq. by left. }
    cbn in Hx, Hn. rewrite sload_insert_eq in Hx.
    exists c1, nested. rewrite Hx in Hl. done.
  - split; [done|].
    destruct (handover_settled _ _ _ _ _ _ _ _ _ _ escrowId Hh)
      as (Hx & _ & nested & Hn).
    { done. }
    { cbn. rewrite sload_insert_eq. by right. }
    cbn in Hx, Hn. rewrite sload_insert_eq in Hx.
    exists c1, nested. rewrite Hx in Hl, Hsend. done.
Qed.

(** A committed [cancelEscrow]. *)
Lemma cancelEscrow_with_callbacks code depth locked e escrowId c c' :
  cancelEscrow (receivers := callbacks code depth locked) e escrowId c
  = Ok (tt, c') ->
  let x := sload (escrowTransactions (store c)) escrowId in
  0 < escrowId < nextEscrowId (store c) /\
  status x = Active /\
  (sender e = seller x \/ sender e = buyer x \/ deadline x < timestamp e) /\
  exists c1 nested,
    nftSafeTransferFrom (receivers := callbacks code depth locked) e
      (nftContract x) (this e) (seller x) (tokenId x)
      (Ctx (world c)
         (set_escrowTransactions <[escrowId := set_status Cancelled x]>
            (store c))
         (log c)) = Ok (tt, c1) /\
    log c1 = log c
      ++ [MoveNft (nftContract x) (this e) (seller x) (tokenId x)] ++ nested /\
    sload (escrowTransactions (store c1)) escrowId = set_status Cancelled x /\
    send (world c1) (this e) (buyer x) (price x) = Some (world c') /\
    store c' = store c1 /\
    log c' = log c1 ++ [SendEth (buyer x) (price x);
                        Emit "EscrowCancelled" [escrowId]].
Proof.
  intros Hrun.
  apply cancelEscrow_handover in Hrun
    as (Hid & Hact & Hauth & c1 & Hh & Hsend & Hs & Hl).
  cbn zeta in *. do 3 (split; [done|]).
  destruct (handover_settled _ _ _ _ _ _ _ _ _ _ escrowId Hh)
    as (Hx & _ & nested & Hn).
  { done. }
  { cbn. rewrite sload_insert_eq. by right. }
  cbn in Hx, Hn. rewrite sload_insert_eq in Hx.
  exists c1, nested. rewrite Hx in Hl, Hsend. done.
Qed.
End EscrowCallbacks.

(** * Settlements with receivers that call back *)

Section SettlementWithCallbacks.
Import Expected EscrowInv.
Context {W : Type} `{Chain W} `{Keccak}.

(** C1. Every completed settlement splits the price exactly, whatever the
    receiver of the token does when it is called.  A committed [buyItem]
    or [acceptOffer] computed a fee of
    [price * marketplaceFeePercentage / 10000], took the royalty the
    engine answered and a [sellerAmount] with
    [sellerAmount + fee + royalty = price], handed the token over, and,
    once the receiver had returned, sent exactly those amounts (the
    overpayment refund apart), which add up to the price when the engine's
    records name a recipient for every non-zero fraction; a committed
    completion of an escrow, through [approveEscrow] or through
    [resolveDispute] in favour of the buyer, computed
    [sellerAmount + fee = price] with no royalty and, once the receiver
    had returned, sent exactly those.  What the receiver makes the engine
    pay meanwhile belongs to the calls it makes, not to the settlement. *)
Theorem settlement_splits_price_exactly
    (market : MarketplaceTx.accounts W) (escrows : EscrowTx.accounts W)
    (depth : nat) :
  (forall e re listingId (c c' : ctx W Marketplace.storage),
      Marketplace.buyItem
        (receivers := MarketplaceTx.callbacks market depth true)
        e re listingId c = Ok (tt, c') ->
      let l := Marketplace.getListing (store c) listingId in
      let price := Marketplace.l_price l in
      exists royaltyRecipient royalty ci sellerAmount fee c1,
        RoyaltyEngine.getRoyalty (Marketplace.l_nftContract l)
          (Marketplace.l_tokenId l) price (Ctx (world c) re [])
        = Ok ((royaltyRecipient, royalty), ci) /\
        fee = price * Marketplace.marketplaceFeePercentage (store c) / 10000 /\
        sellerAmount + fee + royalty = price /\
        nftSafeTransferFrom
          (receivers := MarketplaceTx.callbacks market depth true) e
          (Marketplace.l_nftContract l) (Marketplace.l_seller l) (sender e)
          (Marketplace.l_tokenId l)
          (Ctx (world c) (MarketInv.deactivate listingId (store c)) (log c))
        = Ok (tt, c1) /\
        payments (log c') = payments (log c1)
          ++ payments (settlement (Marketplace.l_seller l)
                         (Marketplace.feeRecipient (store c1))
                         royaltyRecipient sellerAmount fee royalty)
          ++ payments (refund (sender e) (value e) price) /\
        (RoyaltySpec.addressed re ->
         total (payments (settlement (Marketplace.l_seller l)
                            (Marketplace.feeRecipient (store c1))
                            royaltyRecipient sellerAmount fee royalty))
         = price)) /\
  (forall e re offerId (c c' : ctx W Marketplace.storage),
      Marketplace.acceptOffer
        (receivers := MarketplaceTx.callbacks market depth true)
        e re offerId c = Ok (tt, c') ->
      let o := Marketplace.getOffer (store c) offerId in
      let price := Marketplace.o_amount o in
      exists royaltyRecipient royalty ci sellerAmount fee c1,
        RoyaltyEngine.getRoyalty (Marketplace.o_nftContract o)
          (Marketplace.o_tokenId o) price (Ctx (world c) re [])
        = Ok ((royaltyRecipient, royalty), ci) /\
        fee = price * Marketplace.marketplaceFeePercentage (store c) / 10000 /\
        sellerAmount + fee + royalty = price /\
        nftSafeTransferFrom
          (receivers := MarketplaceTx.callbacks market depth true) e
          (Marketplace.o_nftContract o) (sender e) (Marketplace.o_buyer o)
          (Marketplace.o_tokenId o)
          (Ctx (world c)
             (Marketplace.set_offers
                <[offerId := Marketplace.o_set_active false o]> (store c))
             (log c))
        = Ok (tt, c1) /\
        payments (log c') = payments (log c1)
          ++ payments (settlement (sender e)
                         (Marketplace.feeRecipient (store c1))
                         royaltyRecipient sellerAmount fee royalty) /\
        (RoyaltySpec.addressed re ->
         total (payments (settlement (sender e)
                            (Marketplace.feeRecipient (store c1))
                            royaltyRecipient sellerAmount fee royalty))
         = price)) /\
  (forall locked e escrowId (c c' : ctx W Escrow.storage),
      Escrow.approveEscrow
        (receivers := EscrowTx.callbacks escrows depth locked)
        e escrowId c = Ok (tt, c') ->
      Escrow.status (Escrow.getEscrow (store c') escrowId) = Escrow.Completed ->
      let x := Escrow.getEscrow (store c) escrowId in
      let x' := if sender e =? Escrow.seller x
                then Escrow.set_sellerApproved true x
                else Escrow.set_buyerApproved true x in
      exists sellerAmount fee c1,
        fee = Escrow.price x * Escrow.escrowFeePercentage (store c) / 10000 /\
        sellerAmount + fee + 0 = Escrow.price x /\
        nftSafeTransferFrom
          (receivers := EscrowTx.callbacks escrows depth locked) e
          (Escrow.nftContract x) (this e) (Escrow.buyer x) (Escrow.tokenId x)
          (Ctx (world c)
             (Escrow.set_escrowTransactions
                <[escrowId := Escrow.set_status Escrow.Completed x']> (store c))
             (log c))
        = Ok (tt, c1) /\
        payments (log c') = payments (log c1)
          ++ payments (settlement (Escrow.seller x)
                         (Escrow.feeRecipient (store c1)) 0 sellerAmount fee 0) /\
        total (payments (settlement (Escrow.seller x)
                           (Escrow.feeRecipient (store c1)) 0 sellerAmount fee 0))
        = Escrow.price x) /\
  (forall locked e escrowId (c c' : ctx W Escrow.storage),
      Escrow.resolveDispute
        (receivers := EscrowTx.callbacks escrows depth locked)
        e escrowId true c = Ok (tt, c') ->
      let x := Escrow.getEscrow (store c) escrowId in
      exists sellerAmount fee c1,
        fee = Escrow.price x * Escrow.escrowFeePercentage (store c) / 10000 /\
        sellerAmount + fee + 0 = Escrow.price x /\
        nftSafeTransferFrom
          (receivers := EscrowTx.callbacks escrows depth locked) e
          (Escrow.nftContract x) (this e) (Escrow.buyer x) (Escrow.tokenId x)
          (Ctx (world c)
             (Escrow.set_escrowTransactions
                <[escrowId := Escrow.set_status Escrow.Completed x]> (store c))
             (log c))
        = Ok (tt, c1) /\
        payments (log c') = payments (log c1)
          ++ payments (settlement (Escrow.seller x)
                         (Escrow.feeRecipient (store c1)) 0 sellerAmount fee 0) /\
        total (payments (settlement (Escrow.seller x)
                           (Escrow.feeRecipient (store c1)) 0 sellerAmount fee 0))
        = Escrow.price x).
Proof.
  split; [|split; [|split]].
  - intros e re listingId c c' Hrun. cbn zeta. unfold Marketplace.getListing.
    apply buyItem_under_guard in Hrun
      as (_ & _ & _ & _ & _ & rr & ra & ci & c1 & nested & Hget & Hle & Hh
          & _ & _ & _ & Hlog & _).
    assert (Marketplace.l_price (sload (Marketplace.listings (store c)) listingId)
            - Marketplace.l_price (sload (Marketplace.listings (store c)) listingId)
              * Marketplace.marketplaceFeePercentage (store c) / 10000
            - ra
            + Marketplace.l_price (sload (Marketplace.listings (store c)) listingId)
              * Marketplace.marketplaceFeePercentage (store c) / 10000
            + ra
            = Marketplace.l_price (sload (Marketplace.listings (store c)) listingId))
      as Hsum by fee_lia Hle.
    exists rr, ra, ci. do 2 eexists. exists c1. split; [exact Hget|].
    split; [reflexivity|]. split; [exact Hsum|]. split; [exact Hh|]. split.
    + rewrite Hlog. rewrite !payments_app. simpl. by rewrite app_nil_r.
    + intros Haddr. rewrite settlement_total; [exact Hsum|].
      by eapply (getRoyalty_addressed (world c) re).
  - intros e re offerId c c' Hrun. cbn zeta. unfold Marketplace.getOffer.
    apply acceptOffer_under_guard in Hrun
      as (_ & _ & _ & rr & ra & ci & c1 & nested & cancelled & Hget & Hle & Hh
          & _ & _ & Hlog & Hnone & _).
    assert (Marketplace.o_amount (sload (Marketplace.offers (store c)) offerId)
            - Marketplace.o_amount (sload (Marketplace.offers (store c)) offerId)
              * Marketplace.marketplaceFeePercentage (store c) / 10000
            - ra
            + Marketplace.o_amount (sload (Marketplace.offers (store c)) offerId)
              * Marketplace.marketplaceFeePercentage (store c) / 10000
            + ra
            = Marketplace.o_amount (sload (Marketplace.offers (store c)) offerId))
      as Hsum by fee_lia Hle.
    exists rr, ra, ci. do 2 eexists. exists c1. split; [exact Hget|].
    split; [reflexivity|]. split; [exact Hsum|]. split; [exact Hh|]. split.
    + rewrite Hlog. rewrite !payments_app, Hnone. simpl.
      by rewrite !app_nil_r.
    + intros Haddr. rewrite settlement_total; [exact Hsum|].
      by eapply (getRoyalty_addressed (world c) re).
  - intros locked e escrowId c c' Hrun Hdone. cbn zeta.
    unfold Escrow.getEscrow in *.
    apply approveEscrow_with_callbacks in Hrun as (_ & Hact & _ & Hcases).
    cbn zeta in Hcases.
    destruct Hcases as [(_ & Hle & c1 & nested & Hh & _ & _ & _ & Hlog)
                       |(_ & Hs & _)].
    + assert (Escrow.price (sload (Escrow.escrowTransactions (store c)) escrowId)
              - Escrow.price (sload (Escrow.escrowTransactions (store c)) escrowId)
                * Escrow.escrowFeePercentage (store c) / 10000
              + Escrow.price (sload (Escrow.escrowTransactions (store c)) escrowId)
                * Escrow.escrowFeePercentage (store c) / 10000
              + 0
              = Escrow.price (sload (Escrow.escrowTransactions (store c)) escrowId))
        as Hsum by fee_lia Hle.
      do 2 eexists. exists c1. split; [reflexivity|]. split; [exact Hsum|].
      split; [exact Hh|]. split.
      * rewrite Hlog. rewrite !payments_app. simpl. by rewrite app_nil_r.
      * rewrite settlement_total; [exact Hsum|by left].
    + exfalso. rewrite Hs in Hdone. simpl in Hdone.
      rewrite sload_insert_eq in Hdone.
      destruct (sender e =? _); simpl in Hdone; congruence.
  - intros locked e escrowId c c' Hrun. cbn zeta. unfold Escrow.getEscrow.
    apply resolveDispute_with_callbacks in Hrun as (_ & _ & _ & Hcases).
    cbn zeta in Hcases.
    destruct Hcases as [(_ & Hle & c1 & nested & Hh & _ & _ & _ & Hlog)|(? & _)];
      [|discriminate].
    assert (Escrow.price (sload (Escrow.escrowTransactions (store c)) escrowId)
            - Escrow.price (sload (Escrow.escrowTransactions (store c)) escrowId)
              * Escrow.escrowFeePercentage (store c) / 10000
            + Escrow.price (sload (Escrow.escrowTransactions (store c)) escrowId)
              * Escrow.escrowFeePercentage (store c) / 10000
            + 0
            = Escrow.price (sload (Escrow.escrowTransactions (store c)) escrowId))
      as Hsum by fee_lia Hle.
    do 2 eexists. exists c1. split; [reflexivity|]. split; [exact Hsum|].
    split; [exact Hh|]. split.
    + rewrite Hlog. rewrite !payments_app. simpl. by rewrite !app_nil_r.
    + rewrite settlement_total; [exact Hsum|by left].
Qed.
End SettlementWithCallbacks.

Section CancellationWithCallbacks.
Import Escrow EscrowInv EscrowLife EscrowTx.
Context {W : Type} `{Chain W}.

(** C8. On an Active escrow: up to the deadline [cancelEscrow] from anyone
    but the recorded seller and buyer is rejected; from the seller, from
    the buyer, and from any caller once [now > deadline], it marks the
    escrow Cancelled and hands the asset to the seller, and it commits as
    soon as that handover, with whatever the seller's code does on
    receiving it, and the refund go through; and a committed
    [cancelEscrow] moved the asset from the engine to the seller, sent,
    once the seller's code had returned, the whole held price to the buyer
    and nothing else, and left the status Cancelled. *)
Theorem cancelEscrow_authorization (code : accounts W) (depth : nat)
    (locked : bool) (e : env) (escrowId : uint256) (c : ctx W storage) :
  let x := getEscrow (store c) escrowId in
  let cancelled :=
    set_escrowTransactions <[escrowId := set_status Cancelled x]> (store c) in
  0 < escrowId < nextEscrowId (store c) ->
  status x = Active ->
  (timestamp e <= deadline x ->
   sender e <> seller x -> sender e <> buyer x ->
   cancelEscrow (receivers := callbacks code depth locked) e escrowId c
   = Revert (Require "Not authorized to cancel")) /\
  (forall c1 w2,
     sender e = seller x \/ sender e = buyer x \/ deadline x < timestamp e ->
     nftSafeTransferFrom (receivers := callbacks code depth locked) e
       (nftContract x) (this e) (seller x) (tokenId x)
       (Ctx (world c) cancelled (log c)) = Ok (tt, c1) ->
     send (world c1) (this e) (buyer x) (price x) = Some w2 ->
     exists c',
       cancelEscrow (receivers := callbacks code depth locked) e escrowId c
       = Ok (tt, c') /\ world c' = w2) /\
  (forall c',
     cancelEscrow (receivers := callbacks code depth locked) e escrowId c
     = Ok (tt, c') ->
     exists c1 nested,
       nftSafeTransferFrom (receivers := callbacks code depth locked) e
         (nftContract x) (this e) (seller x) (tokenId x)
         (Ctx (world c) cancelled (log c)) = Ok (tt, c1) /\
       log c1 = log c
         ++ [MoveNft (nftContract x) (this e) (seller x) (tokenId x)]
         ++ nested /\
       log c' = log c1 ++ [SendEth (buyer x) (price x);
                           Emit "EscrowCancelled" [escrowId]] /\
       status (getEscrow (store c') escrowId) = Cancelled).
Proof.
  unfold getEscrow. cbn zeta. intros Hid Hact. split; [|split].
  - intros Hearly Hs Hb. destruct Hid as [Hlo Hhi].
    unfold cancelEscrow, validEscrow. mrun.
    apply N.ltb_lt in Hlo. apply N.ltb_lt in Hhi. rewrite Hlo, Hhi. simpl.
    rewrite Hact. simpl.
    apply N.eqb_neq in Hs. apply N.eqb_neq in Hb. rewrite Hs, Hb.
    assert ((deadline (sload (escrowTransactions (store c)) escrowId)
             <? timestamp e) = false) as -> by (by apply N.ltb_ge).
    done.
  - intros c1 w2 Hauth Hh Hsend.
    destruct (handover_settled _ _ _ _ _ _ _ _ _ _ escrowId Hh)
      as (Hx & _ & _).
    { done. }
    { cbn. rewrite sload_insert_eq. by right. }
    cbn in Hx. rewrite sload_insert_eq in Hx.
    destruct Hid as [Hlo Hhi]. eexists.
    unfold cancelEscrow, validEscrow, unwind. mrun.
    apply N.ltb_lt in Hlo. apply N.ltb_lt in Hhi. rewrite Hlo, Hhi. simpl.
    rewrite Hact. simpl.
    match goal with |- context [?a || ?b || ?d] =>
      assert (a || b || d = true) as -> end.
    { rewrite !orb_true_iff, !N.eqb_eq, N.ltb_lt. tauto. }
    rewrite Hh. cbn. rewrite Hx. cbn. unfold transfer. rewrite Hsend.
    cbn. done.
  - intros c' Hrun.
    apply cancelEscrow_with_callbacks in Hrun
      as (_ & _ & _ & c1 & nested & Hh & Hn & Hx & _ & Hs & Hl).
    exists c1, nested. rewrite Hs, Hx. done.
Qed.
End CancellationWithCallbacks.

(** ** The marketplace among receivers that call back *)

Section MarketTransactions.
Import Marketplace MarketInv MarketAdmin Expected MarketplaceTx.
Context {W : Type} `{Chain W} `{Keccak}.
Implicit Types (s : storage) (w : W) (c : ctx W storage) (e : env)
  (code : accounts W) (depth : nat).

(** Only the two sales hand a token over: every other call runs the same
    whoever the receivers are. *)
Lemma exec_without_handover (R : Receivers W storage) e re call :
  match call with BuyItem _ | AcceptOffer _ => False | _ => True end ->
  exec (receivers := R) e re call = exec (receivers := passive) e re call.
Proof. by destruct call. Qed.

Lemma transaction_fee_capped code depth e re call c c' :
  transaction code depth e re call c = Ok (tt, c') ->
  marketplaceFeePercentage (store c) <= MAX_FEE_PERCENTAGE ->
  marketplaceFeePercentage (store c') <= MAX_FEE_PERCENTAGE.
Proof.
  unfold transaction, Reentrancy.transaction, Reentrancy.dispatch, run.
  intros Hrun Hcap.
  destruct call; cbn [nonReentrant fst snd] in Hrun.
  2: { unfold exec in Hrun. apply bind_ok in Hrun as (? & c0 & Hpay & Hrun).
       apply payable_ok in Hpay as (w1 & _ & ->).
       apply buyItem_under_guard in Hrun
         as (_ & _ & _ & _ & _ & rr & ra & ci & c1 & nested & _ & _ & _
             & Hu & _ & _ & _ & ->).
       destruct Hu as (_ & _ & _ & Hf). cbn in *. by apply Hf. }
  5: { unfold exec in Hrun. apply bind_ok in Hrun as (? & c0 & Hpay & Hrun).
       apply nonpayable_ok in Hpay as (_ & ->).
       apply acceptOffer_under_guard in Hrun
         as (_ & _ & _ & rr & ra & ci & c1 & nested & cancelled & _ & _ & _
             & Hu & _ & _ & _ & _ & Hfee).
       destruct Hu as (_ & _ & _ & Hf). rewrite Hfee. cbn in *. by apply Hf. }
  all: rewrite exec_without_handover in Hrun by done;
       by apply exec_fee_capped in Hrun.
Qed.

Lemma tx_reachable_fee_capped code s :
  reachable code s -> marketplaceFeePercentage s <= MAX_FEE_PERCENTAGE.
Proof.
  induction 1 as [e f r|s depth e re call w c' _ IH Hrun].
  - cbn. unfold MAX_FEE_PERCENTAGE. lia.
  - by apply transaction_fee_capped in Hrun.
Qed.

(** X13. The fee never leaves its cap, whatever the receivers of the
    chain call while a token is handed to them, and a sale through a
    deployed marketplace and a deployed royalty engine pays the seller
    first.  In every state the marketplace reaches by transactions among
    receivers that call back the fee is at most 1000 basis points; with
    any reachable state of the royalty engine behind it, a committed
    [buyItem] or [acceptOffer] hands the token over and, once the receiver
    has returned, sends its first payment to the seller, at least 80% of
    the price. *)
Theorem reachable_sale_pays_seller code s re :
  reachable code s ->
  RoyaltyEngine.reachable (W := W) re ->
  marketplaceFeePercentage s <= 1000 /\
  forall depth e w id,
    (forall c',
        buyItem (receivers := callbacks code depth true) e re id (enter w s)
        = Ok (tt, c') ->
        let l := getListing s id in
        exists c1 sellerAmount rest,
          nftSafeTransferFrom (receivers := callbacks code depth true) e
            (l_nftContract l) (l_seller l) (sender e) (l_tokenId l)
            (Ctx w (deactivate id s) []) = Ok (tt, c1) /\
          log c' = log c1 ++ SendEth (l_seller l) sellerAmount :: rest /\
          8 * l_price l <= 10 * sellerAmount) /\
    (forall c',
        acceptOffer (receivers := callbacks code depth true) e re id
          (enter w s) = Ok (tt, c') ->
        let o := getOffer s id in
        exists c1 sellerAmount rest,
          nftSafeTransferFrom (receivers := callbacks code depth true) e
            (o_nftContract o) (sender e) (o_buyer o) (o_tokenId o)
            (Ctx w (set_offers <[id := o_set_active false o]> s) [])
          = Ok (tt, c1) /\
          log c' = log c1 ++ SendEth (sender e) sellerAmount :: rest /\
          8 * o_amount o <= 10 * sellerAmount).
Proof.
  intros Hs Hre.
  pose proof (tx_reachable_fee_capped code s Hs) as Hfee.
  pose proof (reachable_capped re Hre) as Hcap.
  split; [exact Hfee|]. intros depth e w id.
  assert (forall nft tokenId p r a ci,
             RoyaltyEngine.getRoyalty nft tokenId p (Ctx w re [])
             = Ok ((r, a), ci) -> a <= p / 10) as Hroy.
  { intros nft tokenId p r a ci Hget.
    exact (getRoyalty_bounded w re nft tokenId p r a ci Hcap Hget). }
  split.
  - intros c' Hrun. cbn zeta. unfold getListing.
    apply buyItem_under_guard in Hrun
      as (_ & _ & _ & _ & _ & rr & ra & ci & c1 & nested & Hget & _ & Hh
          & _ & _ & _ & Hlog & _).
    cbn [world store log enter] in *. apply Hroy in Hget.
    exists c1. do 2 eexists. split; [exact Hh|]. split.
    + rewrite Hlog. unfold settlement. cbn [app]. reflexivity.
    + apply seller_share; [by apply fee_tenth|done].
  - intros c' Hrun. cbn zeta. unfold getOffer.
    apply acceptOffer_under_guard in Hrun
      as (_ & _ & _ & rr & ra & ci & c1 & nested & cancelled & Hget & _ & Hh
          & _ & _ & Hlog & _).
    cbn [world store log enter] in *. apply Hroy in Hget.
    exists c1. do 2 eexists. split; [exact Hh|]. split.
    + rewrite Hlog. unfold settlement. cbn [app]. reflexivity.
    + apply seller_share; [by apply fee_tenth|done].
Qed.
End MarketTransactions.

(** ** The escrow engine among receivers that call back *)

Section EscrowTransactions.
Import Escrow EscrowInv EscrowLife Expected EscrowTx.
Context {W : Type} `{Chain W}.
Implicit Types (s : storage) (w : W) (c : ctx W storage) (e : env)
  (code : accounts W) (depth : nat) (locked : bool).

Lemma tx_reachable_escrow_fee code s :
  reachable code s ->
  escrowFeePercentage s <= MAX_FEE_PERCENTAGE /\ disputeWindow s = 604800.
Proof.
  induction 1 as [e f r|s depth e call w c' _ [IHf IHw] Hrun].
  - cbn. unfold MAX_FEE_PERCENTAGE. split; [lia|done].
  - apply transaction_keeping in Hrun as [(_ & _ & Hf & Hw) _].
    cbn [store enter] in *. split; [by apply Hf|congruence].
Qed.

Lemma later_kept code s s' : later code s s' -> kept s s'.
Proof.
  induction 1 as [|s' depth e call w c' _ IH Hrun].
  - apply kept_refl.
  - eapply kept_trans; [exact IH|].
    by apply transaction_keeping in Hrun as [Hk _].
Qed.

(** X27. A dispute is the resolver's to settle, and settling it for the
    seller unwinds the escrow in full.  [resolveDispute] is rejected with
    [Only dispute resolver] for every other caller, the owner and the
    parties included, and with [Escrow not disputed] unless the escrow is
    Disputed; a committed call with [favorBuyer = false] marks the escrow
    Cancelled and hands the asset back to the seller, and once the
    seller's code has returned, whatever it has called meanwhile, it sends
    the whole price to the buyer, with no fee, and leaves the escrow
    Cancelled with its approval flags as they were. *)
Theorem resolveDispute_for_seller_refunds code depth locked e escrowId
    favorBuyer c :
  let x := getEscrow (store c) escrowId in
  (sender e <> disputeResolver (store c) ->
   resolveDispute (receivers := callbacks code depth locked) e escrowId
     favorBuyer c
   = Revert (Require "Only dispute resolver")) /\
  (sender e = disputeResolver (store c) -> issued (store c) escrowId ->
   status x <> Disputed ->
   resolveDispute (receivers := callbacks code depth locked) e escrowId
     favorBuyer c
   = Revert (Require "Escrow not disputed")) /\
  forall c',
    resolveDispute (receivers := callbacks code depth locked) e escrowId
      false c = Ok (tt, c') ->
    sender e = disputeResolver (store c) /\
    status x = Disputed /\
    exists c1 nested,
      nftSafeTransferFrom (receivers := callbacks code depth locked) e
        (nftContract x) (this e) (seller x) (tokenId x)
        (Ctx (world c)
           (set_escrowTransactions <[escrowId := set_status Cancelled x]>
              (store c))
           (log c)) = Ok (tt, c1) /\
      log c1 = log c
        ++ [MoveNft (nftContract x) (this e) (seller x) (tokenId x)]
        ++ nested /\
      store c' = store c1 /\
      log c' = log c1 ++ [SendEth (buyer x) (price x);
                          Emit "DisputeResolved" [escrowId; 0]] /\
      getEscrow (store c') escrowId = set_status Cancelled x.
Proof.
  intros x. subst x. unfold getEscrow. split; [|split].
  - intros Hres. unfold resolveDispute, onlyDisputeResolver. mrun.
    apply N.eqb_neq in Hres. by rewrite Hres.
  - intros Hres Hid Hst. unfold resolveDispute, onlyDisputeResolver,
      validEscrow. mrun.
    rewrite Hres, N.eqb_refl. simpl. rewrite (valid_issued _ _ Hid). simpl.
    assert (status_eqb (status (sload (escrowTransactions (store c)) escrowId))
              Disputed = false) as ->; [|done].
    destruct (status_eqb _ _) eqn:E; [|done]. by apply status_eqb_eq in E.
  - intros c' Hrun.
    apply resolveDispute_with_callbacks in Hrun
      as (Hres & _ & Hst & [(Hf & _)|(_ & c1 & nested & Hh & Hn & Hx & _ & Hs
                                      & Hl)]); [discriminate|].
    split; [done|]. split; [done|]. exists c1, nested.
    rewrite Hs, Hx. done.
Qed.

Lemma payments_after_handover l seller sellerAmount feeRecipient fee tail :
  exists rest,
    l ++ settlement seller feeRecipient 0 sellerAmount fee 0 ++ tail
    = l ++ SendEth seller sellerAmount :: rest.
Proof. unfold settlement. cbn [app]. eauto. Qed.

(** X28. The escrow fee never leaves its cap and the dispute window
    never changes, whatever the receivers of the chain call while a token
    is handed to them, and a completion pays the seller first.  In every
    state the engine reaches by transactions among receivers that call
    back the fee is at most 1000 basis points and the dispute window is
    the seven days of the deployment (there is no setter); a completing
    [approveEscrow] or [resolveDispute] has marked the escrow Completed
    when it hands the asset to the buyer, and once the buyer's code has
    returned its first payment goes to the seller, at least 90% of the
    price. *)
Theorem reachable_completion_pays_seller code s :
  reachable code s ->
  escrowFeePercentage s <= 1000 /\ disputeWindow s = 604800 /\
  forall depth locked e w escrowId,
    let x := getEscrow s escrowId in
    (forall c',
        approveEscrow (receivers := callbacks code depth locked) e escrowId
          (enter w s) = Ok (tt, c') ->
        status (getEscrow (store c') escrowId) = Completed ->
        exists c0 c1 sellerAmount rest,
          world c0 = w /\ log c0 = [] /\
          status (getEscrow (store c0) escrowId) = Completed /\
          nftSafeTransferFrom (receivers := callbacks code depth locked) e
            (nftContract x) (this e) (buyer x) (tokenId x) c0
          = Ok (tt, c1) /\
          log c' = log c1 ++ SendEth (seller x) sellerAmount :: rest /\
          9 * price x <= 10 * sellerAmount) /\
    (forall c',
        resolveDispute (receivers := callbacks code depth locked) e escrowId
          true (enter w s) = Ok (tt, c') ->
        exists c0 c1 sellerAmount rest,
          world c0 = w /\ log c0 = [] /\
          status (getEscrow (store c0) escrowId) = Completed /\
          nftSafeTransferFrom (receivers := callbacks code depth locked) e
            (nftContract x) (this e) (buyer x) (tokenId x) c0
          = Ok (tt, c1) /\
          log c' = log c1 ++ SendEth (seller x) sellerAmount :: rest /\
          9 * price x <= 10 * sellerAmount).
Proof.
  intros Hs. destruct (tx_reachable_escrow_fee code s Hs) as [Hfee Hwin].
  split; [exact Hfee|]. split; [exact Hwin|]. intros depth locked e w escrowId.
  cbn zeta. unfold getEscrow. split.
  - intros c' Hrun Hdone.
    apply approveEscrow_with_callbacks in Hrun as (_ & Hact & _ & Hcases).
    cbn [world store log enter] in *. cbn zeta in Hcases.
    destruct Hcases as [(_ & _ & c1 & nested & Hh & _ & _ & _ & Hlog)
                       |(_ & Hst & _)].
    + destruct (payments_after_handover (log c1)
                  (seller (sload (escrowTransactions s) escrowId))
                  (price (sload (escrowTransactions s) escrowId)
                   - price (sload (escrowTransactions s) escrowId)
                     * escrowFeePercentage s / 10000)
                  (feeRecipient (store c1))
                  (price (sload (escrowTransactions s) escrowId)
                   * escrowFeePercentage s / 10000)
                  [Emit "EscrowCompleted" [escrowId]]) as [rest Hrest].
      eexists. exists c1. do 2 eexists. split; [|split; [|split; [|split]]].
      4: exact Hh.
      1, 2: done.
      * cbn. by rewrite sload_insert_eq.
      * split; [rewrite Hlog; exact Hrest|]. by apply nine_tenths.
    + exfalso. unfold getEscrow in Hdone. rewrite Hst in Hdone. cbn in Hdone.
      rewrite sload_insert_eq in Hdone.
      destruct (sender e =? _); cbn in Hdone; congruence.
  - intros c' Hrun.
    apply resolveDispute_with_callbacks in Hrun
      as (_ & _ & _ & [(_ & _ & c1 & nested & Hh & _ & _ & _ & Hlog)|(Hf & _)]);
      [|discriminate].
    cbn [world store log enter] in *.
    destruct (payments_after_handover (log c1)
                (seller (sload (escrowTransactions s) escrowId))
                (price (sload (escrowTransactions s) escrowId)
                 - price (sload (escrowTransactions s) escrowId)
                   * escrowFeePercentage s / 10000)
                (feeRecipient (store c1))
                (price (sload (escrowTransactions s) escrowId)
                 * escrowFeePercentage s / 10000)
                [Emit "EscrowCompleted" [escrowId];
                 Emit "DisputeResolved" [escrowId; 1]]) as [rest Hrest].
    eexists. exists c1. do 2 eexists. split; [|split; [|split; [|split]]].
    4: exact Hh.
    1, 2: done.
    + cbn. by rewrite sload_insert_eq.
    + split; [rewrite Hlog; exact Hrest|]. by apply nine_tenths.
Qed.

(** The engine's own [onERC721Received] calls nothing. *)
Lemma handover_to_engine code depth locked e nft from tokenId c c1 :
  nftSafeTransferFrom (receivers := callbacks code depth locked) e nft from
    (this e) tokenId c = Ok (tt, c1) ->
  exists w1,
    safeTransferFrom (world c) nft (this e) from (this e) tokenId = Some w1 /\
    c1 = Ctx w1 (store c) (log c ++ [MoveNft nft from (this e) tokenId]).
Proof.
  unfold nftSafeTransferFrom.
  destruct (safeTransferFrom _ _ _ _ _ _) as [w1|]; [|discriminate].
  unfold received, callbacks. destruct depth; simpl; rewrite N.eqb_refl;
    inversion 1; eauto.
Qed.

(** X29. Who funds an escrow and who is paid from it.  [createEscrow]
    takes both the asset and the ether from its caller: the caller must
    hold the token, [msg.value] becomes the price and the caller is
    recorded as seller, the named counterparty as buyer.  Whatever
    transactions follow, and whatever the receivers of the chain call in
    them, a cancellation then hands the asset back to the caller and, once
    the caller's code has returned, sends that ether to the buyer, and a
    completion by both approvals hands the asset to the buyer and, once
    the buyer's code has returned, sends the ether, less the fee, back to
    the caller: the buyer is never asked to pay. *)
Theorem escrow_deposit_goes_to_buyer code s depth w e buyer0 nft tokenId0
    deadline0 c1 :
  reachable code s ->
  transaction code depth e (CreateEscrow buyer0 nft tokenId0 deadline0)
    (enter w s) = Ok (tt, c1) ->
  let id := nextEscrowId s in
  (exists w1,
      send w (sender e) (this e) (value e) = Some w1 /\
      ownerOf w1 nft tokenId0 = Some (sender e) /\
      safeTransferFrom w1 nft (this e) (sender e) (this e) tokenId0
      = Some (world c1)) /\
  seller (getEscrow (store c1) id) = sender e /\
  buyer (getEscrow (store c1) id) = buyer0 /\
  price (getEscrow (store c1) id) = value e /\
  buyer0 <> sender e /\ 0 < value e /\
  forall s' depth2 locked e2 w2 c2,
    later code (store c1) s' ->
    (cancelEscrow (receivers := callbacks code depth2 locked) e2 id
       (enter w2 s') = Ok (tt, c2) ->
     exists c0 cm nested,
       world c0 = w2 /\ log c0 = [] /\
       status (getEscrow (store c0) id) = Cancelled /\
       nftSafeTransferFrom (receivers := callbacks code depth2 locked) e2
         nft (this e2) (sender e) tokenId0 c0 = Ok (tt, cm) /\
       log cm = [MoveNft nft (this e2) (sender e) tokenId0] ++ nested /\
       log c2 = log cm ++ [SendEth buyer0 (value e);
                           Emit "EscrowCancelled" [id]]) /\
    (approveEscrow (receivers := callbacks code depth2 locked) e2 id
       (enter w2 s') = Ok (tt, c2) ->
     status (getEscrow (store c2) id) = Completed ->
     exists c0 cm nested fee,
       world c0 = w2 /\ log c0 = [] /\
       status (getEscrow (store c0) id) = Completed /\
       nftSafeTransferFrom (receivers := callbacks code depth2 locked) e2
         nft (this e2) buyer0 tokenId0 c0 = Ok (tt, cm) /\
       log cm = [MoveNft nft (this e2) buyer0 tokenId0] ++ nested /\
       fee <= value e /\
       log c2 = log cm
         ++ SendEth (sender e) (value e - fee)
            :: (if 0 <? fee then [SendEth (feeRecipient (store cm)) fee]
                else [])
         ++ [Emit "EscrowCompleted" [id]]).
Proof.
  intros Hs Hrun id.
  unfold transaction, Reentrancy.transaction, Reentrancy.dispatch, run in Hrun.
  cbn [nonReentrant] in Hrun. unfold exec in Hrun.
  apply bind_ok in Hrun as (? & c0 & Hpay & Hrun).
  apply payable_ok in Hpay as (w1 & Hsend & ->). cbn [world store log enter] in *.
  apply createEscrow_handover in Hrun
    as (Hwf & _ & Hown & cm & Hh & Hw & Hst & _).
  cbn [world store log] in *. cbn zeta in *. fold id in Hh.
  apply handover_to_engine in Hh as (w1' & Hmove & ->).
  cbn [world store log] in *.
  destruct Hwf as (_ & Hne & Hprice & _). cbn in Hne, Hprice.
  assert (getEscrow (store c1) id
          = {| seller := sender e; buyer := buyer0; nftContract := nft;
               tokenId := tokenId0; price := value e;
               createdAt := timestamp e; deadline := deadline0;
               status := Active; sellerApproved := false;
               buyerApproved := false |}) as Hrec.
  { unfold getEscrow. rewrite Hst. cbn. by rewrite sload_insert_eq. }
  assert (issued (store c1) id) as Hid.
  { unfold issued. rewrite Hst. cbn.
    assert (0 < nextEscrowId s) as Hpos; [|subst id; lia].
    clear -Hs. induction Hs as [e f r|s depth e call w c' _ IH Hrun].
    - cbn. lia.
    - apply transaction_keeping in Hrun as [(Hn & _) _].
      cbn [store enter] in Hn. lia. }
  split; [exists w1; rewrite Hw; done|]. rewrite Hrec. cbn.
  do 5 (split; [done|]). intros s' depth2 locked e2 w2 c2 Hl.
  destruct (later_kept _ _ _ Hl) as (_ & Hr & _).
  destruct (Hr id Hid) as [Ht _]. cbn zeta in Ht. fold (getEscrow (store c1) id) in Ht.
  rewrite Hrec in Ht. unfold terms in Ht. cbn in Ht.
  injection Ht as Hse Hbu Hnf Htk Hpr _ _.
  split.
  - intros Hc.
    apply cancelEscrow_with_callbacks in Hc
      as (_ & _ & _ & cm & nested & Hh & Hn & _ & _ & _ & Hlog).
    cbn [world store log enter] in *.
    rewrite Hse, Hbu, Hnf, Htk, Hpr in *.
    eexists. exists cm, nested. split; [|split; [|split; [|split]]].
    4: exact Hh.
    1, 2: done.
    + cbn. unfold getEscrow. cbn. by rewrite sload_insert_eq.
    + done.
  - intros Hc Hdone.
    apply approveEscrow_with_callbacks in Hc as (_ & Hact & _ & Hcases).
    cbn [world store log enter] in *. cbn zeta in Hcases.
    destruct Hcases as [(_ & Hfee & cm & nested & Hh & Hn & _ & _ & Hlog)
                       |(_ & Hst2 & _)].
    + rewrite Hse, Hbu, Hnf, Htk, Hpr in *.
      eexists. exists cm, nested. eexists.
      split; [|split; [|split; [|split; [|split; [|split]]]]].
      4: exact Hh.
      1, 2: done.
      * cbn. unfold getEscrow. cbn. by rewrite sload_insert_eq.
      * done.
      * exact Hfee.
      * rewrite Hlog. unfold settlement. cbn [app]. f_equal. f_equal.
        by destruct (0 <? _).
    + exfalso. unfold getEscrow in Hdone. rewrite Hst2 in Hdone. cbn in Hdone.
      rewrite sload_insert_eq in Hdone.
      destruct (sender e2 =? _); cbn in Hdone; congruence.
Qed.
End EscrowTransactions.

(** ** What a receiver cannot do *)

Section ReceiversKeptOut.
Context {W : Type} `{Chain W} `{Keccak}.

(** X30. What a receiver cannot do.  While [buyItem] or [acceptOffer]
    hands a token over the guard is held, and the calls it leaves open to
    the receiver ([cancelListing], [updateListing], [cancelOffer] and the
    owner's) leave every inactive listing and every inactive offer as it
    is, the three counters untouched and the fee within its cap.  The
    escrow engine holds no guard when it hands a token over: there the
    receiver can run every function, [createEscrow] included, to any
    depth, and still every escrow on record keeps its terms, a settled
    escrow stays as it is, ids are only added, the fee stays within its
    cap and the dispute window stays; and so it is across any number of
    transactions. *)
Theorem receivers_leave_settled_records
    (market : MarketplaceTx.accounts W) (escrows : EscrowTx.accounts W)
    (depth : nat) :
  (forall e nft from to tokenId (c c1 : ctx W Marketplace.storage),
      nftSafeTransferFrom
        (receivers := MarketplaceTx.callbacks market depth true)
        e nft from to tokenId c = Ok (tt, c1) ->
      MarketplaceTx.undisturbed (store c) (store c1)) /\
  (forall locked e nft from to tokenId (c c1 : ctx W Escrow.storage),
      nftSafeTransferFrom
        (receivers := EscrowTx.callbacks escrows depth locked)
        e nft from to tokenId c = Ok (tt, c1) ->
      EscrowTx.kept (store c) (store c1)) /\
  (forall e call (c c' : ctx W Escrow.storage),
      EscrowTx.transaction escrows depth e call c = Ok (tt, c') ->
      EscrowTx.kept (store c) (store c')) /\
  (forall s s', EscrowTx.later escrows s s' -> EscrowTx.kept s s').
Proof.
  split; [|split; [|split]].
  - intros e nft from to tokenId c c1 Hh.
    by apply handover_locked_quietly in Hh as [Hu _].
  - intros locked e nft from to tokenId c c1 Hh.
    by apply handover_kept in Hh as [Hk _].
  - intros e call c c' Hrun. by apply transaction_keeping in Hrun as [Hk _].
  - intros s s'. apply later_kept.
Qed.
End ReceiversKeptOut.

(** * Concrete runs with a receiver that calls back *)

Section RunsWithCallbacks.
Import Sim Scenario Midway Cases Reentering.
Local Existing Instance Sim.chain.
Local Existing Instance Sim.keccak.

Lemma market_tx_reach c e call :
  MarketplaceTx.reachable market_code (store c) ->
  mtx e call (enter (world c) (store c)) = Ok (tt, step (mtx e call) c) ->
  MarketplaceTx.reachable market_code (store (step (mtx e call) c)).
Proof. intros Hr Hc. eapply MarketplaceTx.reachable_step; eauto. Qed.

Lemma escrow_tx_reach c e call :
  EscrowTx.reachable escrow_code (store c) ->
  etx e call (enter (world c) (store c)) = Ok (tt, step (etx e call) c) ->
  EscrowTx.reachable escrow_code (store (step (etx e call) c)).
Proof. intros Hr Hc. eapply EscrowTx.reachable_step; eauto. Qed.

Lemma tx_reach_m2 : MarketplaceTx.reachable market_code (store m2).
Proof.
  assert (store m2
          = store (step (mtx (tx alice 0 1000 market)
                           (Marketplace.ListItem nft 7 ether week))
                     (step (mtx (tx deployer 0 10 market)
                              (Marketplace.SetContractWhitelist nft true)) m0)))
    as -> by (vm_compute; reflexivity).
  do 2 (apply market_tx_reach; [|vm_compute; reflexivity]).
  apply MarketplaceTx.reachable_init.
Qed.

Lemma tx_reach_v1 : MarketplaceTx.reachable market_code (store v1).
Proof.
  unfold v1. apply market_tx_reach; [apply tx_reach_m2|vm_compute; reflexivity].
Qed.

Lemma run_v2_body :
  Marketplace.buyItem (receivers := market_receivers) vault_tx engine listing1
    (enter (world v1_paid) (store v1_paid)) = Ok (tt, v2_body).
Proof. vm_compute. reflexivity. Qed.

(** The vault's purchase, as the chain sees it: the token moves, the vault
    takes its bid back from inside [onERC721Received] (its new bid was
    rejected), then Alice, the treasury and Carol are paid and the vault
    is handed its overpayment. *)
Example vault_purchase :
  log v2 =
  [MoveNft nft alice vault 7;
   SendEth vault (ether / 2); Emit "OfferCancelled" [bid];
   SendEth alice 925000000000000000; SendEth treasury 25000000000000000;
   SendEth carol 50000000000000000;
   SendEth vault (ether / 2);
   Emit "ItemSold" [listing1; vault; alice; nft; 7; ether]]
  /\ Reentrancy.dispatch MarketplaceTx.run MarketplaceTx.nonReentrant
       (MarketplaceTx.callbacks market_code 1) true
       (tx vault (ether / 4) 2000 market)
       (engine, Marketplace.CreateOffer nft 7 day)
       (enter (world v1_paid) (store v1_paid))
     = Revert (Require "ReentrancyGuard: reentrant call")
  /\ Marketplace.o_active (Marketplace.getOffer (store v2) bid) = false
  /\ holder (world v2) nft 7 = vault.
Proof. vm_compute. done. Qed.

(** The vault's purchase of the 1 ether listing with 1.5 ether: what the
    settlement sends adds up to the ether, after the half ether the vault
    has made the marketplace pay back meanwhile and before the half ether
    of overpayment. *)
Lemma settlement_splits_price_exactly_witness :
  Marketplace.buyItem (receivers := market_receivers) vault_tx engine listing1
    (enter (world v1_paid) (store v1_paid)) = Ok (tt, v2_body) /\
  payments (log v2_body)
  = [(vault, ether / 2); (alice, 925000000000000000);
     (treasury, 25000000000000000); (carol, 50000000000000000);
     (vault, ether / 2)] /\
  exists royaltyRecipient royalty sellerAmount fee
         (c1 : ctx ledger Marketplace.storage),
    sellerAmount + fee + royalty = ether /\
    payments (log v2_body)
    = payments (log c1)
      ++ payments (Expected.settlement alice
                     (Marketplace.feeRecipient (store c1)) royaltyRecipient
                     sellerAmount fee royalty)
      ++ [(vault, ether / 2)].
Proof.
  split; [exact run_v2_body|]. split; [vm_compute; reflexivity|].
  destruct (settlement_splits_price_exactly (W := ledger) market_code
              escrow_code 2) as (Hbuy & _).
  destruct (Hbuy _ _ _ _ _ run_v2_body)
    as (rr & roy & ci & sa & fee & c1 & _ & _ & Hsum & _ & Hpay & _).
  exists rr, roy, sa, fee, c1. split; [exact Hsum|exact Hpay].
Defined.

(** The vault's purchase commits: whatever it called meanwhile, the
    listing ends inactive and its refund is half an ether; Alice buying
    her own listing reverts. *)
Lemma buyItem_guards_and_refund_witness :
  Marketplace.l_active (Marketplace.getListing (store v2_body) listing1)
  = false /\
  (exists (c1 : ctx ledger Marketplace.storage) nested paid,
      log c1 = [MoveNft nft alice vault 7] ++ nested /\
      log v2_body
      = log c1 ++ paid ++ [SendEth vault (ether / 2)]
        ++ [Emit "ItemSold" [listing1; vault; alice; nft; 7; ether]]) /\
  exists err,
    Marketplace.buyItem (receivers := market_receivers)
      (tx alice ether 2000 market) engine listing1
      (enter (world m2) (store m2)) = Revert err.
Proof.
  destruct (buyItem_guards_and_refund market_code 2 vault_tx engine listing1
              (enter (world v1_paid) (store v1_paid))) as [_ Hok].
  destruct (Hok _ run_v2_body)
    as (_ & Hoff & c1 & nested & paid & _ & Hn & Hlog & _ & _).
  split; [exact Hoff|]. split.
  - exists c1, nested, paid. split; [exact Hn|exact Hlog].
  - destruct (buyItem_guards_and_refund market_code 2
                (tx alice ether 2000 market) engine
                listing1 (enter (world m2) (store m2))) as [Hguard _].
    apply Hguard. right. right. reflexivity.
Defined.

Lemma run_v2_sale :
  Marketplace.buyItem (receivers := market_receivers) vault_tx engine listing1
    (enter (world v1_paid) (store v1)) = Ok (tt, v2_body).
Proof. vm_compute. reflexivity. Qed.

(** The vault's purchase for 1 ether: once the vault's code has returned,
    Alice is paid first, and at least 0.8 ether. *)
Lemma reachable_sale_pays_seller_witness :
  MarketplaceTx.reachable market_code (store v1) /\
  RoyaltyEngine.reachable engine /\
  Marketplace.marketplaceFeePercentage (store v1) <= 1000 /\
  exists (c1 : ctx ledger Marketplace.storage) sellerAmount rest,
    log v2_body = log c1 ++ SendEth alice sellerAmount :: rest /\
    8 * ether <= 10 * sellerAmount.
Proof.
  split; [exact tx_reach_v1|]. split; [exact reach_engine|].
  destruct (reachable_sale_pays_seller market_code (store v1) engine
              tx_reach_v1 reach_engine) as (Hfee & Hsale).
  split; [exact Hfee|].
  destruct (Hsale 2%nat vault_tx (world v1_paid) listing1) as (Hbuy & _).
  destruct (Hbuy _ run_v2_sale) as (c1 & sa & rest & _ & Hlog & Hshare).
  exists c1, sa, rest. split; [exact Hlog|exact Hshare].
Defined.

(** The vault's cancellation of its escrow, as the chain sees it: token 8
    goes back to the vault, which from inside [onERC721Received] is
    refused a second cancellation and puts the token into a new escrow,
    and then Bob is sent the ether. *)
Example vault_cancellation :
  log s2_cancelled =
  [MoveNft nft escrow vault 8;
   MoveNft nft vault escrow 8;
   Emit "EscrowCreated" [2; vault; carol; nft; 8; ether];
   SendEth bob ether; Emit "EscrowCancelled" [1]]
  /\ Escrow.cancelEscrow (receivers := escrow_receivers) back_tx 1
       (enter (world s2_handed) (store s2_handed))
     = Revert (Require "Escrow not active")
  /\ Escrow.status (Escrow.getEscrow (store s2_cancelled) 1) = Escrow.Cancelled
  /\ Escrow.status (Escrow.getEscrow (store s2_cancelled) 2) = Escrow.Active
  /\ holder (world s2_cancelled) nft 8 = escrow.
Proof. vm_compute. done. Qed.

(** The vault cancels the escrow it has created: the token goes back to
    it and, whatever it calls on receiving it, Bob is then sent the whole
    ether and the escrow is Cancelled; Carol is rejected before the
    deadline. *)
Lemma cancelEscrow_authorization_witness :
  (exists c',
      Escrow.cancelEscrow (receivers := escrow_receivers) back_tx 1
        (enter (world s2) (store s2)) = Ok (tt, c') /\
      (exists (c1 : ctx ledger Escrow.storage) nested,
          log c1 = [MoveNft nft escrow vault 8] ++ nested /\
          log c' = log c1 ++ [SendEth bob ether; Emit "EscrowCancelled" [1]]) /\
      Escrow.status (Escrow.getEscrow (store c') 1) = Escrow.Cancelled) /\
  Escrow.cancelEscrow (receivers := escrow_receivers)
    (tx carol 0 5000 escrow) 1 (enter (world s2) (store s2))
  = Revert (Require "Not authorized to cancel").
Proof.
  assert (0 < 1 < Escrow.nextEscrowId (store (enter (world s2) (store s2))))
    as Hid by (split; reflexivity).
  assert (Escrow.status (Escrow.getEscrow (store (enter (world s2) (store s2))) 1)
          = Escrow.Active) as Hact by reflexivity.
  split.
  - destruct (cancelEscrow_authorization escrow_code 2 false back_tx 1
                (enter (world s2) (store s2)) Hid Hact)
      as (_ & Hcommit & Hok).
    destruct (Hcommit s2_handed (world s2_cancelled)) as (c' & Hrun & _).
    + left. reflexivity.
    + vm_compute. reflexivity.
    + vm_compute. reflexivity.
    + exists c'. split; [exact Hrun|].
      destruct (Hok c' Hrun) as (c1 & nested & _ & Hn & Hlog & Hst).
      split; [|exact Hst]. exists c1, nested. split; [exact Hn|exact Hlog].
  - destruct (cancelEscrow_authorization escrow_code 2 false
                (tx carol 0 5000 escrow) 1
                (enter (world s2) (store s2)) Hid Hact) as (Hrej & _).
    apply Hrej; vm_compute; discriminate.
Defined.

Lemma run_s2_handed :
  nftSafeTransferFrom (receivers := escrow_receivers) back_tx nft escrow vault 8
    (enter (world s2)
       (Escrow.set_escrowTransactions
          <[1 := Escrow.set_status Escrow.Cancelled
                   (Escrow.getEscrow (store s2) 1)]> (store s2)))
  = Ok (tt, s2_handed).
Proof. vm_compute. reflexivity. Qed.

(** Handed token 8 back, the vault has put it into escrow 2; escrow 1,
    already Cancelled, is as it was. *)
Lemma receivers_leave_settled_records_witness :
  Escrow.nextEscrowId (store s2_handed) = 3 /\
  Escrow.status (Escrow.getEscrow (store s2_handed) 2) = Escrow.Active /\
  Escrow.getEscrow (store s2_handed) 1
  = Escrow.set_status Escrow.Cancelled (Escrow.getEscrow (store s2) 1).
Proof.
  split; [reflexivity|]. split; [reflexivity|].
  destruct (receivers_leave_settled_records (W := ledger) market_code
              escrow_code 2) as (_ & Hkept & _).
  destruct (Hkept _ _ _ _ _ _ _ _ run_s2_handed) as (_ & Hrec & _).
  destruct (Hrec 1) as [_ Hsame].
  { split; reflexivity. }
  unfold Escrow.getEscrow. rewrite Hsame; [|right; reflexivity].
  vm_compute. reflexivity.
Defined.

Lemma tx_reach_s1 : EscrowTx.reachable escrow_code (store s1).
Proof.
  unfold s1. apply escrow_tx_reach; [|vm_compute; reflexivity].
  apply EscrowTx.reachable_init.
Qed.

Lemma run_s2 :
  etx deposit_tx (Escrow.CreateEscrow bob nft 8 90000)
    (enter (world s1) (store s1)) = Ok (tt, s2).
Proof. vm_compute. reflexivity. Qed.

Lemma run_s2_cancelled :
  Escrow.cancelEscrow (receivers := escrow_receivers) back_tx
    (Escrow.nextEscrowId (store s1)) (enter (world s2) (store s2))
  = Ok (tt, s2_cancelled).
Proof. vm_compute. reflexivity. Qed.

Lemma run_s3_refunded :
  Escrow.resolveDispute (receivers := escrow_receivers) resolve_tx 1 false
    (enter (world s3) (store s3)) = Ok (tt, s3_refunded).
Proof. vm_compute. reflexivity. Qed.

(** The resolver sides with the vault, the seller: the token goes back to
    it and, when its code has returned, Bob gets the whole ether back and
    the escrow is Cancelled; Carol, who is not the resolver, could not
    have decided. *)
Lemma resolveDispute_for_seller_refunds_witness :
  (exists (c1 : ctx ledger Escrow.storage) nested,
      log c1 = [MoveNft nft escrow vault 8] ++ nested /\
      log s3_refunded
      = log c1 ++ [SendEth bob ether; Emit "DisputeResolved" [1; 0]]) /\
  Escrow.status (Escrow.getEscrow (store s3_refunded) 1) = Escrow.Cancelled /\
  Escrow.resolveDispute (receivers := escrow_receivers) late_tx 1 false
    (enter (world s3) (store s3))
  = Revert (Require "Only dispute resolver").
Proof.
  destruct (resolveDispute_for_seller_refunds escrow_code 2 false resolve_tx 1
              false (enter (world s3) (store s3))) as (_ & _ & Hok).
  destruct (Hok s3_refunded run_s3_refunded)
    as (_ & _ & c1 & nested & _ & Hn & _ & Hlog & Hrec).
  split; [exists c1, nested; split; [exact Hn|exact Hlog]|].
  split; [by rewrite Hrec|].
  destruct (resolveDispute_for_seller_refunds escrow_code 2 false late_tx 1
              false (enter (world s3) (store s3))) as (Hrej & _).
  apply Hrej. vm_compute. discriminate.
Defined.

Lemma tx_reach_t3 : EscrowTx.reachable escrow_code (store t3).
Proof.
  unfold t3, t2.
  do 2 (apply escrow_tx_reach; [|vm_compute; reflexivity]).
  apply tx_reach_s1.
Qed.

Lemma run_t4 :
  Escrow.approveEscrow (receivers := escrow_receivers) complete_tx 1
    (enter (world t3) (store t3)) = Ok (tt, t4).
Proof. vm_compute. reflexivity. Qed.

(** The completion of Alice's escrow with the vault, as the chain sees
    it: token 7 goes to the vault, which from inside [onERC721Received]
    puts it into a new escrow, and then Alice and the treasury are paid. *)
Example vault_completion :
  log t4 =
  [MoveNft nft escrow vault 7;
   MoveNft nft vault escrow 7;
   Emit "EscrowCreated" [2; vault; carol; nft; 7; ether];
   SendEth alice 975000000000000000; SendEth treasury 25000000000000000;
   Emit "EscrowCompleted" [1]]
  /\ Escrow.status (Escrow.getEscrow (store t4) 1) = Escrow.Completed
  /\ Escrow.seller (Escrow.getEscrow (store t4) 2) = vault
  /\ Escrow.nextEscrowId (store t4) = 3.
Proof. vm_compute. done. Qed.

(** Alice's approval completes her escrow with the vault: the escrow is
    Completed when token 7 is handed to the vault, and once the vault's
    code has returned Alice is paid first, at least 0.9 ether. *)
Lemma reachable_completion_pays_seller_witness :
  EscrowTx.reachable escrow_code (store t3) /\
  Escrow.escrowFeePercentage (store t3) <= 1000 /\
  Escrow.disputeWindow (store t3) = 604800 /\
  Escrow.status (Escrow.getEscrow (store t4) 1) = Escrow.Completed /\
  exists (c0 c1 : ctx ledger Escrow.storage) sellerAmount rest,
    Escrow.status (Escrow.getEscrow (store c0) 1) = Escrow.Completed /\
    nftSafeTransferFrom (receivers := escrow_receivers) complete_tx nft escrow
      vault 7 c0 = Ok (tt, c1) /\
    log t4 = log c1 ++ SendEth alice sellerAmount :: rest /\
    9 * ether <= 10 * sellerAmount.
Proof.
  split; [exact tx_reach_t3|].
  destruct (reachable_completion_pays_seller escrow_code (store t3) tx_reach_t3)
    as (Hfee & Hwin & Hdone).
  split; [exact Hfee|]. split; [exact Hwin|].
  assert (Escrow.status (Escrow.getEscrow (store t4) 1) = Escrow.Completed)
    as Hst by reflexivity.
  split; [exact Hst|].
  destruct (Hdone 2%nat false complete_tx (world t3) 1) as (Happrove & _).
  destruct (Happrove t4 run_t4 Hst)
    as (c0 & c1 & sa & rest & _ & _ & Hc0 & Hh & Hlog & Hshare).
  exists c0, c1, sa, rest. split; [exact Hc0|]. split; [exact Hh|].
  split; [exact Hlog|exact Hshare].
Defined.

(** The vault put up token 8 and 1 ether for Bob; when it cancels, the
    token comes back to it and the ether goes to Bob. *)
Lemma escrow_deposit_goes_to_buyer_witness :
  EscrowTx.reachable escrow_code (store s1) /\
  Escrow.seller (Escrow.getEscrow (store s2) (Escrow.nextEscrowId (store s1)))
  = sender deposit_tx /\
  exists (cm : ctx ledger Escrow.storage) nested,
    log cm = [MoveNft nft (this back_tx) (sender deposit_tx) 8] ++ nested /\
    log s2_cancelled
    = log cm ++ [SendEth bob (value deposit_tx);
                 Emit "EscrowCancelled" [Escrow.nextEscrowId (store s1)]].
Proof.
  split; [exact tx_reach_s1|].
  destruct (escrow_deposit_goes_to_buyer escrow_code (store s1) 2%nat
              (world s1) deposit_tx bob nft 8 90000 s2 tx_reach_s1 run_s2)
    as (_ & Hseller & _ & _ & _ & _ & Hafter).
  split; [exact Hseller|].
  destruct (Hafter (store s2) 2%nat false back_tx (world s2) s2_cancelled
              (EscrowTx.later_now escrow_code (store s2)))
    as (Hcancel & _).
  destruct (Hcancel run_s2_cancelled)
    as (c0 & cm & nested & _ & _ & _ & _ & Hn & Hlog).
  exists cm, nested. split; [exact Hn|exact Hlog].
Defined.
End RunsWithCallbacks.
